(** * mox admin: transactional edits of the dynamic configuration

    A shallow embedding of package [admin] (DKIM key files, domains,
    accounts, addresses and aliases of the dynamic configuration
    domains.conf) and the properties of its handlers.

    Conventions of the embedding.
    - A handler is a computation in the monad [M]: it threads the process
      state [World] (published configuration, map store, file system,
      delivery queue) and returns either an [Error] or a value.
    - Go maps are references.  The two top-level maps of [config.Dynamic]
      ([Domains], [Accounts]) live in a store and [Dynamic] holds their
      locations, so that a write through a copied struct ([nc := c]) is a
      write to the map the published configuration points to.  Inner maps
      and slices are only ever replaced by fresh clones in this package and
      are embedded as values.
    - Functions of the Go library and of other mox packages are fields of
      [Env]; every statement is proved for an arbitrary [Env]. *)

From Stdlib Require Import Ascii.
From stdpp Require Import gmap strings list fin_maps.

Local Open Scope string_scope.
Local Open Scope list_scope.
Local Open Scope stdpp_scope.

(** ** Data of the other packages, as far as this package reads it *)

Module dns.

Record Domain := { ASCII : string; Unicode : string }.

Definition zero : Domain := {| ASCII := ""; Unicode := "" |}.

#[global] Instance Domain_eq_dec : EqDecision Domain.
Proof. solve_decision. Defined.

End dns.

Module smtp.

Definition Localpart := string.

Record Address := { Localpart_ : Localpart; Domain_ : dns.Domain }.

(** [smtp.NewAddress]. *)
Definition NewAddress (lp : Localpart) (d : dns.Domain) : Address :=
  {| Localpart_ := lp; Domain_ := d |}.

End smtp.

(** [time.Duration], in nanoseconds. *)
Definition Duration := Z.
Definition Hour : Duration := (3600 * 1000000000)%Z.

(** A reading of the clock, through the layouts the package formats it
    with. *)
Record Time := {
  fmt_2006 : string;              (* now.Format("2006") *)
  fmt_20060102T150405 : string;   (* now.Format("20060102T150405") *)
  fmt_UTC_20060102T150405 : string; (* now.UTC().Format("20060102T150405") *)
  fmt_RFC3339 : string;           (* now.Format(time.RFC3339) *)
}.

Module config.

Record Canonicalization := { HeaderRelaxed : bool; BodyRelaxed : bool }.

Record Selector := {
  Hash : string;
  Canonicalization_ : Canonicalization;
  Headers : list string;
  DontSealHeaders : bool;
  Expiration : string;
  PrivateKeyFile : string;
}.

Record DKIM := {
  Selectors : gmap string Selector;
  Sign : list string;
}.

Record DMARC := {
  DMARC_Account : string; DMARC_Localpart : string; DMARC_Mailbox : string }.

Record TLSRPT := {
  TLSRPT_Account : string; TLSRPT_Localpart : string; TLSRPT_Mailbox : string }.

Record MTASTS := {
  PolicyID : string;
  Mode : string;
  MaxAge : Duration;
  MX : list string;
}.

Record Alias := {
  Addresses : list string;
  PostPublic : bool;
  ListMembers : bool;
  AllowMsgFrom : bool;
}.

Record Domain := {
  Disabled : bool;
  ClientSettingsDomain : string;
  LocalpartCatchallSeparator : string;
  DKIM_ : DKIM;
  DMARC_ : option DMARC;
  TLSRPT_ : option TLSRPT;
  MTASTS_ : option MTASTS;
  Aliases : gmap string Alias;
}.

(** [config.Destination]: the delivery rules of an address.  The package
    only ever stores the zero value. *)
Record Destination := { Mailbox : string; FullName : string }.

Definition Destination_zero : Destination := {| Mailbox := ""; FullName := "" |}.

Record JunkParams := {
  Onegrams : bool;
  MaxPower : string;
  TopWords : nat;
  IgnoreWords : string;
  RareWords : nat;
}.

Record JunkFilter := { Threshold : string; Params : JunkParams }.

Record AutomaticJunkFlags := {
  Enabled : bool;
  JunkMailboxRegexp : string;
  NeutralMailboxRegexp : string;
}.

Record Account := {
  Account_Domain : string;
  Destinations : gmap string Destination;
  RejectsMailbox : string;
  JunkFilter_ : option JunkFilter;
  NoCustomPassword : bool;
  AutomaticJunkFlags_ : AutomaticJunkFlags;
  SubjectPass_Period : Duration;
  FromIDLoginAddresses : list string;
}.

(** An entry of [Account.Aliases]: the address subscribed to an alias and the
    alias, by its localpart and domain. *)
Record AddressAlias := {
  SubscriptionAddress : string;
  Alias_LocalpartStr : string;
  Alias_Domain : dns.Domain;
}.

(** Location of a top-level map in the store. *)
Definition loc := nat.

(** [config.Dynamic], the fields this package edits.  The other fields are
    copied with the struct and never touched. *)
Record Dynamic := { Domains : loc; Accounts : loc }.

(** [config.Static], the fields this package reads. *)
Record Static := {
  Listeners_MTASTSHTTPS_Enabled : list bool;
  HostnameDomain : dns.Domain;
  Postmaster_Account : string;
}.

End config.

(** [mox.AccountDestination], a value of [mox.Conf.AccountDestinationsLocked]. *)
Record AccountDestination := {
  AD_Catchall : bool;
  AD_Localpart : smtp.Localpart;
  AD_Account : string;
  AD_Destination : config.Destination;
}.

(** [store.TLSPublicKey]. *)
Record TLSPublicKey := {
  Fingerprint : string;
  LoginAddress : string;
  TPK_Account : string;
}.

(** [queue.Msg], the fields [AddressRemove] reads. *)
Record Msg := {
  Msg_SenderAccount : string;
  SenderLocalpart : smtp.Localpart;
  SenderDomain : dns.Domain;
  SenderDomainStr : string;
}.

(** Keys and their encodings. *)
Inductive PrivateKey :=
| RSAPrivateKey (bits : N) (secret : N)
| Ed25519PrivateKey (seed : N).

Definition bytes := list N.

Record PemBlock := {
  Pem_Type : string;
  Pem_Note : string;   (* Headers["Note"] *)
  Pem_Bytes : bytes;
}.

(** ** The file system *)

Record FS := {
  files : gmap string bytes;
  dirs : gset string;
}.

(** The calls on the operating system that can fail for a reason outside the
    model (permissions, a full disk, an I/O error). *)
Inductive IOCall :=
| IOMkdirAll (d : string)
| IOOpenExcl (p : string)
| IOWrite (p : string)
| IOClose (p : string)
| IOStat (p : string)
| IORename (src dst : string)
| IORemove (p : string).

(** The configuration as a value: what the published [Dynamic] points to. *)
Record Snapshot := {
  sDomains : gmap string config.Domain;
  sAccounts : gmap string config.Account;
}.

(** What parsing a configuration derives from it and keeps beside it: the
    index [mox.Conf.AccountDestinationsLocked] and the fields of accounts
    that are not persisted ([Account.Aliases],
    [Account.ParsedFromIDLoginAddresses]), by account name. *)
Record Parsed := {
  AccountDestinations : gmap string AccountDestination;
  AccountAliases : gmap string (list config.AddressAlias);
  ParsedFromIDLoginAddresses : gmap string (list smtp.Address);
}.

(** ** Errors

    One constructor per error the package returns.  [%w]-wrapping of
    [ErrRequest] is [isErrRequest]. *)
Inductive Error :=
(* writeFile *)
| ErrCreatingFile (path : string)
| ErrWritingFile (path : string)
| ErrCloseFile
(* key generation *)
| ErrGeneratingKey
| ErrMarshalKey
| ErrEncodingPem
| ErrMakingRSAKey (cause : Error)
| ErrUnknownAlgorithm
(* mox.WriteDynamicLocked *)
| ErrConfig (msg : string)
(* DKIMAdd, DKIMRemove *)
| ErrUnknownHash (hash : string)
| ErrMakingDKIMKey (cause : Error)
| ErrDomainNotExist
| ErrSelectorExists
| ErrSelectorNotExist
| ErrWritingKeyFile (cause : Error)
| ErrWritingDomainsConf (cause : Error)
(* DomainAdd, DomainRemove, DomainSave *)
| ErrDomainPresent
| ErrPreparingDomainConfig (cause : Error)
| ErrAccountExists
| ErrAccountNotYetExist
| ErrAccountNameEmpty
| ErrListingTLSPublicKeys (msg : string)
| ErrDomainReferencedInTLSPublicKey (login account : string)
| ErrDomainNotPresent
(* AccountAdd, AccountRemove, AccountSave *)
| ErrParsingEmailAddress
| ErrAccountPresent
| ErrAccountDirExists (dir : string)
| ErrStatAccountDir (dir : string)
| ErrAddressNotAvailable (cause : Error)
| ErrOpenAccount (msg : string)
| ErrFailingQueued (msg : string)
| ErrCancelingWebhooks (msg : string)
| ErrListingSuppressed (msg : string)
| ErrParsingSuppressed (addr : string)
| ErrRemovingSuppression (addr : string)
| ErrSchedulingRemoval (msg : string)
| ErrAccountNotPresent
(* checkAddressAvailable *)
| ErrCheckDomainNotExist
| ErrCanonicalizedConfigured (addr : string)
| ErrLocalpartHasSeparator (sep : string)
| ErrAddressInUseAsAlias
(* AddressAdd, AddressRemove *)
| ErrAccountNotExist
| ErrParsingDomain
| ErrCatchallConfigured
| ErrAddressNotExists
| ErrCannotFindAccount
| ErrAddressNotRemoved
| ErrParsingCatchallDomain
| ErrParsingAddress
| ErrUnknownDomainInAddress (addr : string)
| ErrListingTLSPublicKeysAccount (msg : string)
| ErrParsingTLSPublicKeyAddress
| ErrTLSPublicKeyReferences (fingerprint login : string)
| ErrCannotFindAliasDomain (aliasAddr : string)
| ErrCannotFindAlias (aliasAddr : string)
| ErrLastMemberOfAlias (aliasAddr : string)
| ErrListingQueue (msg : string)
| ErrUnknownSenderDomain (dom : string)
| ErrQueueDependsOnCatchall (sender : string)
| ErrQueueNoCatchall (sender : string)
(* aliases *)
| ErrAliasPresent
| ErrAliasNotExist
| ErrAtLeastOneAddress
| ErrNeedAtLeastOneAddress
| ErrNoSuchAlias
| ErrAddressNotFound (rest : list string)
(* a run-time panic of the Go program *)
| GoPanic (msg : string).

(** [errors.Is(err, ErrRequest)]: the error was built with
    [fmt.Errorf("%w: ...", ErrRequest, ...)], or wraps with [%w] an error
    that was. *)
Fixpoint isErrRequest (e : Error) : bool :=
  match e with
  | ErrUnknownHash _ | ErrMakingDKIMKey _ | ErrDomainNotExist
  | ErrSelectorExists | ErrSelectorNotExist
  | ErrDomainPresent | ErrAccountExists | ErrAccountNotYetExist
  | ErrAccountNameEmpty | ErrListingTLSPublicKeys _
  | ErrDomainReferencedInTLSPublicKey _ _ | ErrDomainNotPresent
  | ErrParsingEmailAddress | ErrAccountPresent | ErrAccountDirExists _
  | ErrStatAccountDir _ | ErrAddressNotAvailable _ | ErrOpenAccount _
  | ErrAccountNotPresent
  | ErrAccountNotExist | ErrParsingDomain | ErrCatchallConfigured
  | ErrAddressNotExists | ErrAddressNotRemoved | ErrParsingCatchallDomain
  | ErrParsingAddress | ErrUnknownDomainInAddress _
  | ErrListingTLSPublicKeysAccount _ | ErrParsingTLSPublicKeyAddress
  | ErrTLSPublicKeyReferences _ _
  | ErrUnknownSenderDomain _ | ErrQueueDependsOnCatchall _
  | ErrQueueNoCatchall _
  | ErrAliasPresent | ErrAliasNotExist | ErrAtLeastOneAddress
  | ErrNeedAtLeastOneAddress
  | ErrNoSuchAlias | ErrAddressNotFound _ => true
  | ErrWritingDomainsConf cause => isErrRequest cause
  | _ => false
  end.

(** ** The environment: the Go library and the other mox packages *)

Record Env := {
  (* path/filepath *)
  filepath_Join : list string → string;
  filepath_Dir : string → string;
  filepath_Base : string → string;
  filepath_Clean : string → string;
  (* time.Now and crypto/rand.Reader, by the number of readings taken *)
  clock : nat → Time;
  rand_rsa : nat → option N;
  rand_ed25519 : nat → option N;
  x509_MarshalPKCS8PrivateKey : PrivateKey → option bytes;
  pem_Encode : PemBlock → option bytes;
  Duration_String : Duration → string;
  (* os: injected failures, and how much a failing Write wrote *)
  io_fault : IOCall → FS → bool;
  short_write : string → bytes → FS → nat;
  (* dns, smtp *)
  Domain_Name : dns.Domain → string;
  dns_ParseDomain : string → option dns.Domain;
  smtp_ParseAddress : string → option smtp.Address;
  Address_String : smtp.Address → string;
  Localpart_String : smtp.Localpart → string;
  (* mox- *)
  Conf_Static : config.Static;
  ConfigDirPath : string → string;
  ConfigDynamicDirPath : string → string;
  DataDirPath : string → string;
  CanonicalLocalpart : smtp.Localpart → config.Domain → smtp.Localpart;
  LocalpartCatchallSeparatorsEffective : config.Domain → list string;
  prepareDynamicConfig : FS → Snapshot → string + Parsed;
  (* store *)
  TLSPublicKeyList : string → string + list TLSPublicKey;
  OpenAccount : Snapshot → string → option string;
  Account_Remove : string → option string;
  (* queue *)
  queue_List_fault : list Msg → string → option string;
  queue_Fail : list Msg → string → list Msg * nat * option string;
  queue_HookCancel : string → nat * option string;
  queue_SuppressionList : string → string + list string;
  queue_SuppressionRemove : string → smtp.Address → option string;
}.

(** ** The process state *)

(** The log lines that are a handler's only reaction to a failure:
    [moveAwayKeys] logs "renaming dkim private key file for removed domain"
    with the error, the source and the destination.  The other log lines of
    the package accompany a returned error or a success and are left out. *)
Inductive RenameFailure := DestinationExists | StatFailed | RenameFailed.

Inductive LogEntry :=
| LogRenamingKey (why : RenameFailure) (src dst : string).

Record World := {
  Conf_Dynamic : config.Dynamic;       (* mox.Conf.Dynamic *)
  Conf_Parsed : Parsed;                (* the index and the parsed fields *)
  domainMaps : list (gmap string config.Domain);   (* store of Domains maps *)
  accountMaps : list (gmap string config.Account); (* store of Accounts maps *)
  fs : FS;
  domainsConf : Snapshot;              (* the contents of domains.conf *)
  queue : list Msg;
  readings : nat;
  logged : list LogEntry;              (* error lines of the log *)
}.

Definition set_fs (f : FS) (w : World) : World :=
  {| Conf_Dynamic := Conf_Dynamic w; Conf_Parsed := Conf_Parsed w;
     domainMaps := domainMaps w; accountMaps := accountMaps w;
     fs := f; domainsConf := domainsConf w; queue := queue w;
     readings := readings w; logged := logged w |}.

Definition set_domainMaps (h : list (gmap string config.Domain)) (w : World) : World :=
  {| Conf_Dynamic := Conf_Dynamic w; Conf_Parsed := Conf_Parsed w;
     domainMaps := h; accountMaps := accountMaps w;
     fs := fs w; domainsConf := domainsConf w; queue := queue w;
     readings := readings w; logged := logged w |}.

Definition set_accountMaps (h : list (gmap string config.Account)) (w : World) : World :=
  {| Conf_Dynamic := Conf_Dynamic w; Conf_Parsed := Conf_Parsed w;
     domainMaps := domainMaps w; accountMaps := h;
     fs := fs w; domainsConf := domainsConf w; queue := queue w;
     readings := readings w; logged := logged w |}.

Definition set_queue (q : list Msg) (w : World) : World :=
  {| Conf_Dynamic := Conf_Dynamic w; Conf_Parsed := Conf_Parsed w;
     domainMaps := domainMaps w; accountMaps := accountMaps w;
     fs := fs w; domainsConf := domainsConf w; queue := q;
     readings := readings w; logged := logged w |}.

Definition set_readings (n : nat) (w : World) : World :=
  {| Conf_Dynamic := Conf_Dynamic w; Conf_Parsed := Conf_Parsed w;
     domainMaps := domainMaps w; accountMaps := accountMaps w;
     fs := fs w; domainsConf := domainsConf w; queue := queue w;
     readings := n; logged := logged w |}.

Definition set_logged (l : list LogEntry) (w : World) : World :=
  {| Conf_Dynamic := Conf_Dynamic w; Conf_Parsed := Conf_Parsed w;
     domainMaps := domainMaps w; accountMaps := accountMaps w;
     fs := fs w; domainsConf := domainsConf w; queue := queue w;
     readings := readings w; logged := l |}.

(** [mox.Conf.Dynamic = c] with what parsing [c] derived, after domains.conf
    was written. *)
Definition set_published (c : config.Dynamic) (p : Parsed) (s : Snapshot) (w : World) : World :=
  {| Conf_Dynamic := c; Conf_Parsed := p;
     domainMaps := domainMaps w; accountMaps := accountMaps w;
     fs := fs w; domainsConf := s; queue := queue w;
     readings := readings w; logged := logged w |}.

(** Reading a map through its reference. *)
Definition domainsAt (w : World) (l : config.loc) : gmap string config.Domain :=
  default ∅ (domainMaps w !! l).

Definition accountsAt (w : World) (l : config.loc) : gmap string config.Account :=
  default ∅ (accountMaps w !! l).

(** The configuration a [Dynamic] denotes in a state, and the published one. *)
Definition view (w : World) (c : config.Dynamic) : Snapshot :=
  {| sDomains := domainsAt w (config.Domains c);
     sAccounts := accountsAt w (config.Accounts c) |}.

Definition snapshot (w : World) : Snapshot := view w (Conf_Dynamic w).

(** The references of the published configuration are allocated. *)
Definition wf (w : World) : Prop :=
  config.Domains (Conf_Dynamic w) < length (domainMaps w) ∧
  config.Accounts (Conf_Dynamic w) < length (accountMaps w).

#[global] Instance wf_dec w : Decision (wf w).
Proof. unfold wf. apply _. Defined.

(** ** The monad of handlers *)

Definition M (A : Type) : Type := World → World * (Error + A).

Definition ret {A} (a : A) : M A := λ w, (w, inr a).

Definition throw {A} (e : Error) : M A := λ w, (w, inl e).

Definition bind {A B} (m : M A) (k : A → M B) : M B :=
  λ w, match m w with
       | (w', inl e) => (w', inl e)
       | (w', inr a) => k a w'
       end.

Definition gets {A} (f : World → A) : M A := λ w, (w, inr (f w)).

Definition modify (f : World → World) : M unit := λ w, (f w, inr tt).

(** [fmt.Errorf("...: %v", err)] around a call. *)
Definition wrap {A} (f : Error → Error) (m : M A) : M A :=
  λ w, match m w with
       | (w', inl e) => (w', inl (f e))
       | (w', inr a) => (w', inr a)
       end.

(** [defer]: [d] runs when the body returns, and sees its result. *)
Definition defer {A} (d : Error + A → World → World) (m : M A) : M A :=
  λ w, match m w with (w', r) => (d r w', r) end.

(** A value that must be there, or the error returned when it is not. *)
Definition orThrow {A} (o : option A) (e : Error) : M A :=
  match o with Some a => ret a | None => throw e end.

Notation "'let*' x := m 'in' k" := (bind m (λ x, k))
  (at level 10, x name, m at level 100, k at level 200).
Notation "m ;;; k" := (bind m (λ _, k))
  (at level 100, k at level 200, right associativity).

Definition isOk {A} (r : World * (Error + A)) : bool :=
  match r.2 with inr _ => true | inl _ => false end.

Section Admin.

Context (E : Env).

(** ** Operations of the Go library on the state *)

(** [time.Now()]. *)
Definition time_Now : M Time :=
  λ w, (set_readings (S (readings w)) w, inr (clock E (readings w))).

(** [d] and the directories above it: [d], [filepath.Dir(d)] and so on, up
    to the path that is its own directory ("/" or "."). *)
Fixpoint pathsUp (n : nat) (d : string) : list string :=
  match n with
  | 0 => [d]
  | S n' =>
    if bool_decide (filepath_Dir E d = d) then [d]
    else d :: pathsUp n' (filepath_Dir E d)
  end.

Definition ancestors (d : string) : list string := pathsUp (String.length d) d.

(** A regular file is in the place of [d] or of a directory above it. *)
Definition underFile (d : string) (f : FS) : bool :=
  existsb (λ a, bool_decide (is_Some (files f !! a))) (ancestors d).

(** [os.MkdirAll]: it makes the directory and the directories above it; it
    fails, and makes nothing, where a regular file is in the way.  No caller
    in this package looks at its error. *)
Definition os_MkdirAll (d : string) (f : FS) : FS :=
  if io_fault E (IOMkdirAll d) f then f
  else if underFile d f then f
  else {| files := files f; dirs := list_to_set (ancestors d) ∪ dirs f |}.

(** [p] is a directory, below no regular file. *)
Definition fs_isDir (p : string) (f : FS) : bool :=
  bool_decide (p ∈ dirs f) && negb (underFile p f).

Definition fs_exists (p : string) (f : FS) : bool :=
  bool_decide (is_Some (files f !! p)) || bool_decide (p ∈ dirs f).

(** [os.OpenFile(path, O_WRONLY|O_CREATE|O_EXCL, 0660)]: the state with the
    new empty file, or [None] for an error. *)
Definition os_OpenFile_excl (p : string) (f : FS) : option FS :=
  if fs_exists p f then None
  else if negb (fs_isDir (filepath_Dir E p) f) then None
  else if io_fault E (IOOpenExcl p) f then None
  else Some {| files := <[p := []]> (files f); dirs := dirs f |}.

(** [f.Write(data)]: the state and whether the write failed. *)
Definition file_Write (p : string) (data : bytes) (f : FS) : FS * bool :=
  if io_fault E (IOWrite p) f
  then ({| files := <[p := take (short_write E p data f) data]> (files f);
           dirs := dirs f |}, true)
  else ({| files := <[p := data]> (files f); dirs := dirs f |}, false).

(** [os.Remove(path)]: it removes a file, or a directory that is empty.
    When it fails (for a reason outside the model, for a directory that is
    not empty, for a path that does not exist) nothing is removed; every
    caller only logs its error. *)
Definition os_Remove (p : string) (f : FS) : FS :=
  if io_fault E (IORemove p) f then f
  else if bool_decide (is_Some (files f !! p))
  then {| files := delete p (files f); dirs := dirs f |}
  else if bool_decide (p ∈ dirs f)
          && bool_decide (map_Forall (λ q _, filepath_Dir E q ≠ p) (files f))
          && bool_decide (set_Forall (λ q, q = p ∨ filepath_Dir E q ≠ p) (dirs f))
  then {| files := files f; dirs := dirs f ∖ {[p]} |}
  else f.

Inductive StatResult := StatFound | StatNotExist | StatError.

Definition os_Stat (p : string) (f : FS) : StatResult :=
  if io_fault E (IOStat p) f then StatError
  else if fs_exists p f then StatFound else StatNotExist.

(** [os.Rename(src, dst)] of a file: the new state, or [None] for an error. *)
Definition os_Rename (src dst : string) (f : FS) : option FS :=
  if io_fault E (IORename src dst) f then None
  else match files f !! src with
       | None => None
       | Some data =>
         if fs_isDir (filepath_Dir E dst) f
         then Some {| files := <[dst := data]> (delete src (files f));
                      dirs := dirs f |}
         else None
       end.

(** ** writeFile *)

Definition writeFile (path : string) (data : bytes) : M unit :=
  modify (λ w, set_fs (os_MkdirAll (filepath_Dir E path) (fs w)) w) ;;;
  let* opened := gets (λ w, os_OpenFile_excl path (fs w)) in
  let* f := orThrow opened (ErrCreatingFile path) in
  modify (set_fs f) ;;;
  (* defer: if f != nil { f.Close(); os.Remove(path) }; f is set to nil
     only right before the successful return. *)
  defer (λ r w, match r with
                | inl _ => set_fs (os_Remove path (fs w)) w
                | inr _ => w
                end)
    (let* failed := (λ w, let '(f', failed) := file_Write path data (fs w) in
                          (set_fs f' w, inr failed)) in
     if (failed : bool) then throw (ErrWritingFile path) else
     let* closeFailed := gets (λ w, io_fault E (IOClose path) (fs w)) in
     if (closeFailed : bool) then throw ErrCloseFile else
     ret tt).

(** ** Strings *)

(** [strings.HasPrefix], [strings.HasSuffix], [strings.Contains]. *)
Definition HasPrefix (s pre : string) : bool := String.prefix pre s.

Definition HasSuffix (s suf : string) : bool :=
  Nat.leb (String.length suf) (String.length s) &&
  String.eqb (String.substring (String.length s - String.length suf)
                               (String.length suf) s) suf.

Fixpoint Contains (s sub : string) : bool :=
  String.prefix sub s ||
  match s with
  | EmptyString => false
  | String _ s' => Contains s' sub
  end.

(** [s[1:]], for a string that is not empty. *)
Definition from1 (s : string) : string :=
  match s with
  | EmptyString => EmptyString
  | String _ s' => s'
  end.

(** ** Record updates ([nd := d; nd.F = v]) *)

Definition Domain_with_DKIM (d : config.Domain) (k : config.DKIM) : config.Domain :=
  {| config.Disabled := config.Disabled d;
     config.ClientSettingsDomain := config.ClientSettingsDomain d;
     config.LocalpartCatchallSeparator := config.LocalpartCatchallSeparator d;
     config.DKIM_ := k;
     config.DMARC_ := config.DMARC_ d;
     config.TLSRPT_ := config.TLSRPT_ d;
     config.MTASTS_ := config.MTASTS_ d;
     config.Aliases := config.Aliases d |}.

Definition Domain_with_Aliases (d : config.Domain) (al : gmap string config.Alias) : config.Domain :=
  {| config.Disabled := config.Disabled d;
     config.ClientSettingsDomain := config.ClientSettingsDomain d;
     config.LocalpartCatchallSeparator := config.LocalpartCatchallSeparator d;
     config.DKIM_ := config.DKIM_ d;
     config.DMARC_ := config.DMARC_ d;
     config.TLSRPT_ := config.TLSRPT_ d;
     config.MTASTS_ := config.MTASTS_ d;
     config.Aliases := al |}.

Definition Domain_with_Disabled (d : config.Domain) (b : bool) : config.Domain :=
  {| config.Disabled := b;
     config.ClientSettingsDomain := config.ClientSettingsDomain d;
     config.LocalpartCatchallSeparator := config.LocalpartCatchallSeparator d;
     config.DKIM_ := config.DKIM_ d;
     config.DMARC_ := config.DMARC_ d;
     config.TLSRPT_ := config.TLSRPT_ d;
     config.MTASTS_ := config.MTASTS_ d;
     config.Aliases := config.Aliases d |}.

Definition DKIM_with_Selectors (k : config.DKIM) (sels : gmap string config.Selector) : config.DKIM :=
  {| config.Selectors := sels; config.Sign := config.Sign k |}.

Definition Alias_with_Addresses (a : config.Alias) (l : list string) : config.Alias :=
  {| config.Addresses := l;
     config.PostPublic := config.PostPublic a;
     config.ListMembers := config.ListMembers a;
     config.AllowMsgFrom := config.AllowMsgFrom a |}.

Definition Account_with_Destinations (a : config.Account) (d : gmap string config.Destination) : config.Account :=
  {| config.Account_Domain := config.Account_Domain a;
     config.Destinations := d;
     config.RejectsMailbox := config.RejectsMailbox a;
     config.JunkFilter_ := config.JunkFilter_ a;
     config.NoCustomPassword := config.NoCustomPassword a;
     config.AutomaticJunkFlags_ := config.AutomaticJunkFlags_ a;
     config.SubjectPass_Period := config.SubjectPass_Period a;
     config.FromIDLoginAddresses := config.FromIDLoginAddresses a |}.

Definition Account_with_FromIDLoginAddresses (a : config.Account) (l : list string) : config.Account :=
  {| config.Account_Domain := config.Account_Domain a;
     config.Destinations := config.Destinations a;
     config.RejectsMailbox := config.RejectsMailbox a;
     config.JunkFilter_ := config.JunkFilter_ a;
     config.NoCustomPassword := config.NoCustomPassword a;
     config.AutomaticJunkFlags_ := config.AutomaticJunkFlags_ a;
     config.SubjectPass_Period := config.SubjectPass_Period a;
     config.FromIDLoginAddresses := l |}.

(** The zero value of [config.Account], which reading a map gives for a key
    that is not there. *)
Definition Account_zero : config.Account :=
  {| config.Account_Domain := "";
     config.Destinations := ∅;
     config.RejectsMailbox := "";
     config.JunkFilter_ := None;
     config.NoCustomPassword := false;
     config.AutomaticJunkFlags_ :=
       {| config.Enabled := false; config.JunkMailboxRegexp := "";
          config.NeutralMailboxRegexp := "" |};
     config.SubjectPass_Period := 0%Z;
     config.FromIDLoginAddresses := [] |}.

(** ** The map store *)

(** [m := map[string]config.Domain{}] followed by the loop that copies the
    entries [src] into it: a new map, at a new location. *)
Definition new_domains (src : gmap string config.Domain) : M config.loc :=
  λ w, (set_domainMaps (domainMaps w ++ [src]) w, inr (length (domainMaps w))).

Definition new_accounts (src : gmap string config.Account) : M config.loc :=
  λ w, (set_accountMaps (accountMaps w ++ [src]) w, inr (length (accountMaps w))).

(** [m[k] = v] on the map at [l]. *)
Definition domains_store (l : config.loc) (k : string) (v : config.Domain) : M unit :=
  modify (λ w, set_domainMaps (<[l := <[k := v]> (domainsAt w l)]> (domainMaps w)) w).

Definition accounts_store (l : config.loc) (k : string) (v : config.Account) : M unit :=
  modify (λ w, set_accountMaps (<[l := <[k := v]> (accountsAt w l)]> (accountMaps w)) w).

(** [c.Domains], [c.Accounts] read through the reference. *)
Definition read_domains (c : config.Dynamic) : M (gmap string config.Domain) :=
  gets (λ w, domainsAt w (config.Domains c)).

Definition read_accounts (c : config.Dynamic) : M (gmap string config.Account) :=
  gets (λ w, accountsAt w (config.Accounts c)).

(** ** DKIM keys *)

Definition rand_read : M nat :=
  λ w, (set_readings (S (readings w)) w, inr (readings w)).

Definition dkimKeyNote (kind : string) (selector domain : dns.Domain) : M string :=
  let s := kind +:+ " dkim private key" in
  let s := if decide (selector ≠ dns.zero ∧ domain ≠ dns.zero)
           then s +:+ " for " +:+ dns.ASCII selector +:+ "._domainkey." +:+ dns.ASCII domain
           else s in
  let* now := time_Now in
  ret (s +:+ ", generated by mox on " +:+ fmt_RFC3339 now).

Definition MakeDKIMEd25519Key (selector domain : dns.Domain) : M bytes :=
  let* i := rand_read in
  let* privKey := orThrow (Ed25519PrivateKey <$> rand_ed25519 E i) ErrGeneratingKey in
  let* pkcs8 := orThrow (x509_MarshalPKCS8PrivateKey E privKey) ErrMarshalKey in
  let* note := dkimKeyNote "ed25519" selector domain in
  let block := {| Pem_Type := "PRIVATE KEY"; Pem_Note := note; Pem_Bytes := pkcs8 |} in
  orThrow (pem_Encode E block) ErrEncodingPem.

Definition MakeDKIMRSAKey (selector domain : dns.Domain) : M bytes :=
  let* i := rand_read in
  let* privKey := orThrow (RSAPrivateKey 2048 <$> rand_rsa E i) ErrGeneratingKey in
  let* pkcs8 := orThrow (x509_MarshalPKCS8PrivateKey E privKey) ErrMarshalKey in
  let* note := dkimKeyNote "rsa-2048" selector domain in
  let block := {| Pem_Type := "PRIVATE KEY"; Pem_Note := note; Pem_Bytes := pkcs8 |} in
  orThrow (pem_Encode E block) ErrEncodingPem.

(** ** MakeAccountConfig *)

Definition MakeAccountConfig (addr : smtp.Address) : config.Account :=
  {| config.Account_Domain := Domain_Name E (smtp.Domain_ addr);
     config.Destinations := {[ Address_String E addr := config.Destination_zero ]};
     config.RejectsMailbox := "Rejects";
     config.JunkFilter_ := Some
       {| config.Threshold := "0.95";
          config.Params := {| config.Onegrams := true;
                              config.MaxPower := ".01";
                              config.TopWords := 10;
                              config.IgnoreWords := ".1";
                              config.RareWords := 2 |} |};
     config.NoCustomPassword := true;
     config.AutomaticJunkFlags_ :=
       {| config.Enabled := true;
          config.JunkMailboxRegexp := "^(junk|spam)";
          config.NeutralMailboxRegexp := "^(inbox|neutral|postmaster|dmarc|tlsrpt|rejects)" |};
     config.SubjectPass_Period := (12 * Hour)%Z;
     config.FromIDLoginAddresses := [] |}.

(** ** MakeDomainConfig *)

(** The file name of a key: [fmt.Sprintf("%s.%s.%s.privatekey.pkcs8.pem",
    record, timestamp, kind)] with [record = "<selector>._domainkey.<domain>"],
    joined under "dkim". *)
Definition dkimKeyPath (selectorASCII domainASCII timestamp kind : string) : string :=
  let record := selectorASCII +:+ "._domainkey." +:+ domainASCII in
  filepath_Join E ["dkim"; record +:+ "." +:+ timestamp +:+ "." +:+ kind +:+ ".privatekey.pkcs8.pem"].

Definition remove_paths (paths : list string) : M unit :=
  modify (λ w, set_fs (foldl (λ f p, os_Remove p f) (fs w) paths) w).

(** A result as a value, so that the code after a failing call still runs. *)
Definition try {A} (m : M A) : M (Error + A) :=
  λ w, match m w with (w', r) => (w', inr r) end.

(** The local variables the closures of [MakeDomainConfig] share: [paths] and
    [confDKIM.Selectors]. *)
Definition addSelector (domain : dns.Domain) (timestamp kind name : string)
    (privKey : bytes) (st : list string * gmap string config.Selector)
    : M (list string * gmap string config.Selector) :=
  let keyPath := dkimKeyPath name (dns.ASCII domain) timestamp kind in
  let p := ConfigDynamicDirPath E keyPath in
  writeFile p privKey ;;;
  ret (st.1 ++ [p],
       <[name := {| config.Hash := "";
                    config.Canonicalization_ :=
                      {| config.HeaderRelaxed := false; config.BodyRelaxed := false |};
                    config.Headers := [];
                    config.DontSealHeaders := false;
                    config.Expiration := "72h";
                    config.PrivateKeyFile := keyPath |}]> st.2).

Definition addRSA (domain : dns.Domain) (timestamp name : string)
    (st : list string * gmap string config.Selector)
    : M (list string * gmap string config.Selector) :=
  let* key := wrap ErrMakingRSAKey
                (MakeDKIMRSAKey {| dns.ASCII := name; dns.Unicode := "" |} domain) in
  addSelector domain timestamp "rsa2048" name key st.

(** Every return runs the deferred loop over the current value of [paths];
    [leave paths r] is a return of [r] with that value. *)
Definition MakeDomainConfig (domain hostname : dns.Domain) (accountName : string)
    (withMTASTS : bool) : M (config.Domain * list string) :=
  let leave (paths : list string) (r : Error + config.Domain * list string) :=
    remove_paths paths ;;;
    match r with inl e => throw e | inr v => ret v end in
  let* now := time_Now in
  let year := fmt_2006 now in
  let timestamp := fmt_20060102T150405 now in
  let* ra := try (addRSA domain timestamp (year +:+ "a") ([], ∅)) in
  match ra with
  | inl e => leave [] (inl e)
  | inr st1 =>
    let* rb := try (addRSA domain timestamp (year +:+ "b") st1) in
    match rb with
    | inl e => leave st1.1 (inl e)
    | inr st2 =>
      let confDKIM := {| config.Selectors := st2.2; config.Sign := [year +:+ "a"] |} in
      let* mtasts :=
        (if withMTASTS
         then let* t := time_Now in
              ret (Some {| config.PolicyID := fmt_UTC_20060102T150405 t;
                           config.Mode := "enforce";
                           config.MaxAge := (24 * Hour)%Z;
                           config.MX := [dns.ASCII hostname] |})
         else ret None) in
      let confDomain :=
        {| config.Disabled := false;
           config.ClientSettingsDomain := "mail." +:+ Domain_Name E domain;
           config.LocalpartCatchallSeparator := "+";
           config.DKIM_ := confDKIM;
           config.DMARC_ := Some {| config.DMARC_Account := accountName;
                                    config.DMARC_Localpart := "dmarcreports";
                                    config.DMARC_Mailbox := "DMARC" |};
           config.TLSRPT_ := Some {| config.TLSRPT_Account := accountName;
                                     config.TLSRPT_Localpart := "tlsreports";
                                     config.TLSRPT_Mailbox := "TLSRPT" |};
           config.MTASTS_ := mtasts;
           config.Aliases := ∅ |} in
      (* rpaths := paths; paths = nil *)
      leave [] (inr (confDomain, st2.1))
    end
  end.

(** ** Publishing *)

(** Modelled from the spec: [mox.WriteDynamicLocked] (package mox-) is not
    among the sources.  Spec 4.1, Publish: it "validates that the snapshot
    round-trips through the persistence format, persists it, and atomically
    swaps the published pointer.  On validation or I/O failure, the previous
    snapshot remains published".  Validation and writing are the
    environment's [prepareDynamicConfig], which sees the files on disk and
    the configuration and answers with an error or with what parsing
    derives. *)
Definition WriteDynamicLocked (c : config.Dynamic) : M unit :=
  λ w, match prepareDynamicConfig E (fs w) (view w c) with
       | inl msg => (w, inl (ErrConfig msg))
       | inr parsed => (set_published c parsed (view w c) w, inr tt)
       end.

(** ** DKIMAdd *)

Definition DKIMAdd (domain selector : dns.Domain) (algorithm hash : string)
    (headerRelaxed bodyRelaxed seal : bool) (headers : list string)
    (lifetime : Duration) : M unit :=
  if negb (bool_decide (hash = "sha256") || bool_decide (hash = "sha1"))
  then throw (ErrUnknownHash hash) else
  let* key :=
    wrap ErrMakingDKIMKey
      (if bool_decide (algorithm = "rsa")
       then let* k := MakeDKIMRSAKey selector domain in ret (k, "rsa2048")
       else if bool_decide (algorithm = "ed25519")
       then let* k := MakeDKIMEd25519Key selector domain in ret (k, "ed25519")
       else throw ErrUnknownAlgorithm) in
  let privKey := key.1 in
  let kind := key.2 in
  let* c := gets Conf_Dynamic in
  let* doms := read_domains c in
  let* d := orThrow (doms !! Domain_Name E domain) ErrDomainNotExist in
  if bool_decide (is_Some (config.Selectors (config.DKIM_ d) !! Domain_Name E selector))
  then throw ErrSelectorExists else
  let* now := time_Now in
  let timestamp := fmt_20060102T150405 now in
  let keyPath := dkimKeyPath (dns.ASCII selector) (dns.ASCII domain) timestamp kind in
  let p := ConfigDynamicDirPath E keyPath in
  wrap ErrWritingKeyFile (writeFile p privKey) ;;;
  (* removePath := p; the deferred function removes it unless it was set
     to "" right before the successful return. *)
  defer (λ r w, match r with
                | inl _ => if bool_decide (p = "") then w
                           else set_fs (os_Remove p (fs w)) w
                | inr _ => w
                end)
    (let nsel := {| config.Hash := hash;
                    config.Canonicalization_ :=
                      {| config.HeaderRelaxed := headerRelaxed;
                         config.BodyRelaxed := bodyRelaxed |};
                    config.Headers := headers;
                    config.DontSealHeaders := negb seal;
                    config.Expiration := Duration_String E lifetime;
                    config.PrivateKeyFile := keyPath |} in
     let nd := Domain_with_DKIM d
                 (DKIM_with_Selectors (config.DKIM_ d)
                    (<[Domain_Name E selector := nsel]> (config.Selectors (config.DKIM_ d)))) in
     let* l := new_domains doms in
     let nc := {| config.Domains := l; config.Accounts := config.Accounts c |} in
     domains_store l (Domain_Name E domain) nd ;;;
     wrap ErrWritingDomainsConf (WriteDynamicLocked nc)).

(** ** Retiring key files *)

Definition gatherUsedKeysPaths (domains : gmap string config.Domain) : gset string :=
  list_to_set
    (dc ← (map_to_list domains).*2;
     sel ← (map_to_list (config.Selectors (config.DKIM_ dc))).*2;
     [filepath_Clean E (config.PrivateKeyFile sel)]).

(** The body of the loop of [moveAwayKeys], on the files and the log. *)
Definition moveAwayKey (usedKeyPaths : gset string) (sel : config.Selector)
    (st : FS * list LogEntry) : FS * list LogEntry :=
  let f := st.1 in
  if bool_decide (config.PrivateKeyFile sel = "")
     || bool_decide (filepath_Clean E (config.PrivateKeyFile sel) ∈ usedKeyPaths)
  then st else
  let src := ConfigDirPath E (config.PrivateKeyFile sel) in
  let dst := ConfigDirPath E
               (filepath_Join E [filepath_Dir E (config.PrivateKeyFile sel); "old";
                                 filepath_Base E (config.PrivateKeyFile sel)]) in
  match os_Stat dst f with
  | StatFound => (f, st.2 ++ [LogRenamingKey DestinationExists src dst])
  | StatError => (f, st.2 ++ [LogRenamingKey StatFailed src dst])
  | StatNotExist =>
    let f1 := os_MkdirAll (filepath_Dir E dst) f in
    match os_Rename src dst f1 with
    | Some f2 => (f2, st.2)
    | None => (f1, st.2 ++ [LogRenamingKey RenameFailed src dst])
    end
  end.

(** The loop, in the order [sels] lists the selectors (Go ranges over the
    map in an unspecified order). *)
Definition moveAwayKeysOver (sels : list config.Selector) (usedKeyPaths : gset string)
    (st : FS * list LogEntry) : FS * list LogEntry :=
  foldl (λ st sel, moveAwayKey usedKeyPaths sel st) st sels.

Definition moveAwayKeys (sels : gmap string config.Selector)
    (usedKeyPaths : gset string) : M unit :=
  modify (λ w, let r := moveAwayKeysOver (map_to_list sels).*2 usedKeyPaths
                          (fs w, logged w) in
               set_logged r.2 (set_fs r.1 w)).

(** ** DKIMRemove *)

Definition DKIMRemove (domain selector : dns.Domain) : M unit :=
  let* c := gets Conf_Dynamic in
  let* doms := read_domains c in
  let* d := orThrow (doms !! Domain_Name E domain) ErrDomainNotExist in
  let* sel := orThrow (config.Selectors (config.DKIM_ d) !! Domain_Name E selector)
                ErrSelectorNotExist in
  let nsels := delete (Domain_Name E selector) (config.Selectors (config.DKIM_ d)) in
  let nsign := filter (λ name, name ≠ Domain_Name E selector) (config.Sign (config.DKIM_ d)) in
  let nd := Domain_with_DKIM d {| config.Selectors := nsels; config.Sign := nsign |} in
  let* l := new_domains doms in
  let nc := {| config.Domains := l; config.Accounts := config.Accounts c |} in
  domains_store l (Domain_Name E domain) nd ;;;
  wrap ErrWritingDomainsConf (WriteDynamicLocked nc) ;;;
  let* ndoms := read_domains nc in
  let usedKeyPaths := gatherUsedKeysPaths ndoms in
  moveAwayKeys {[ Domain_Name E selector := sel ]} usedKeyPaths.

(** ** DomainAdd *)

Definition DomainAdd (disabled : bool) (domain : dns.Domain) (accountName : string)
    (localpart : smtp.Localpart) : M unit :=
  let* c := gets Conf_Dynamic in
  let* doms := read_domains c in
  if bool_decide (is_Some (doms !! Domain_Name E domain))
  then throw ErrDomainPresent else
  (* nc := c; nc.Domains is a new map with the entries of c.Domains;
     nc.Accounts is still the map c.Accounts refers to. *)
  let* l := new_domains doms in
  let nc := {| config.Domains := l; config.Accounts := config.Accounts c |} in
  let withMTASTS := existsb id (config.Listeners_MTASTSHTTPS_Enabled (Conf_Static E)) in
  let* made := wrap ErrPreparingDomainConfig
                 (MakeDomainConfig domain (config.HostnameDomain (Conf_Static E))
                    accountName withMTASTS) in
  let cleanupFiles := made.2 in
  (* The deferred loop removes cleanupFiles, set to nil right before the
     successful return. *)
  defer (λ r w, match r with
                | inl _ => set_fs (foldl (λ f p, os_Remove p f) (fs w) cleanupFiles) w
                | inr _ => w
                end)
    (let confDomain := Domain_with_Disabled made.1 disabled in
     let* accs := read_accounts c in
     let ok := bool_decide (is_Some (accs !! accountName)) in
     (if ok && negb (bool_decide (localpart = ""))
      then throw ErrAccountExists
      else if negb ok && bool_decide (localpart = "")
      then throw ErrAccountNotYetExist
      else if bool_decide (accountName = "")
      then throw ErrAccountNameEmpty
      else if negb ok
      then accounts_store (config.Accounts nc) accountName
             (MakeAccountConfig (smtp.NewAddress localpart domain))
      else if negb (bool_decide (accountName = config.Postmaster_Account (Conf_Static E)))
      then let* naccs := read_accounts nc in
           let nacc := default Account_zero (naccs !! accountName) in
           let pmaddr := smtp.NewAddress "postmaster" domain in
           let nd := <[Address_String E pmaddr := config.Destination_zero]>
                       (config.Destinations nacc) in
           accounts_store (config.Accounts nc) accountName
             (Account_with_Destinations nacc nd)
      else ret tt) ;;;
     domains_store l (Domain_Name E domain) confDomain ;;;
     wrap ErrWritingDomainsConf (WriteDynamicLocked nc)).

(** ** DomainRemove *)

Definition firstReferencing (atdom : string) (tlspubkeys : list TLSPublicKey)
    : option TLSPublicKey :=
  head (filter (λ tpk, HasSuffix (LoginAddress tpk) atdom = true) tlspubkeys).

Definition DomainRemove (domain : dns.Domain) : M unit :=
  let* c := gets Conf_Dynamic in
  let* doms := read_domains c in
  let* domConf := orThrow (doms !! Domain_Name E domain) ErrDomainNotExist in
  let* tlspubkeys :=
    match TLSPublicKeyList E "" with
    | inl msg => throw (ErrListingTLSPublicKeys msg)
    | inr l => ret l
    end in
  let atdom := "@" +:+ Domain_Name E domain in
  match firstReferencing atdom tlspubkeys with
  | Some tpk => throw (ErrDomainReferencedInTLSPublicKey (LoginAddress tpk) (TPK_Account tpk))
  | None =>
    let* l := new_domains (delete (Domain_Name E domain) doms) in
    let nc := {| config.Domains := l; config.Accounts := config.Accounts c |} in
    wrap ErrWritingDomainsConf (WriteDynamicLocked nc) ;;;
    let* ndoms := read_domains nc in
    let usedKeyPaths := gatherUsedKeysPaths ndoms in
    moveAwayKeys (config.Selectors (config.DKIM_ domConf)) usedKeyPaths
  end.

(** ** DomainSave *)

(** [xmodify] receives the shallow copy of the domain and returns it
    changed, or an error. *)
Definition DomainSave (domainName : string)
    (xmodify : config.Domain → Error + config.Domain) : M unit :=
  let* nc := gets Conf_Dynamic in
  let* doms := read_domains nc in
  let* dom := orThrow (doms !! domainName) ErrDomainNotPresent in
  match xmodify dom with
  | inl e => throw e
  | inr dom' =>
    let* published := gets Conf_Dynamic in
    let* pdoms := read_domains published in
    let* l := new_domains pdoms in
    let nc' := {| config.Domains := l; config.Accounts := config.Accounts nc |} in
    domains_store l domainName dom' ;;;
    wrap ErrWritingDomainsConf (WriteDynamicLocked nc')
  end.

(** ** AccountAdd, AccountRemove *)

(** [checkAddressAvailable]; the caller holds the lock. *)
Definition checkAddressAvailable (addr : smtp.Address) : M unit :=
  let* c := gets Conf_Dynamic in
  let* doms := read_domains c in
  let* dc := orThrow (doms !! Domain_Name E (smtp.Domain_ addr)) ErrCheckDomainNotExist in
  let lp := CanonicalLocalpart E (smtp.Localpart_ addr) dc in
  let canon := Address_String E (smtp.NewAddress lp (smtp.Domain_ addr)) in
  let* parsed := gets Conf_Parsed in
  if bool_decide (is_Some (AccountDestinations parsed !! canon))
  then throw (ErrCanonicalizedConfigured canon) else
  match head (filter (λ sep, Contains (smtp.Localpart_ addr) sep = true)
                     (LocalpartCatchallSeparatorsEffective E dc)) with
  | Some sep => throw (ErrLocalpartHasSeparator sep)
  | None =>
    if bool_decide (is_Some (config.Aliases dc !! Localpart_String E lp))
    then throw ErrAddressInUseAsAlias
    else ret tt
  end.

Definition AccountAdd (account address : string) : M unit :=
  let* addr := orThrow (smtp_ParseAddress E address) ErrParsingEmailAddress in
  let* c := gets Conf_Dynamic in
  let* accs := read_accounts c in
  if bool_decide (is_Some (accs !! account)) then throw ErrAccountPresent else
  let accountDir := filepath_Join E [DataDirPath E "accounts"; account] in
  let* st := gets (λ w, os_Stat accountDir (fs w)) in
  match st with
  | StatFound => throw (ErrAccountDirExists accountDir)
  | StatError => throw (ErrStatAccountDir accountDir)
  | StatNotExist =>
    wrap ErrAddressNotAvailable (checkAddressAvailable addr) ;;;
    let* l := new_accounts accs in
    let nc := {| config.Domains := config.Domains c; config.Accounts := l |} in
    accounts_store l account (MakeAccountConfig addr) ;;;
    wrap ErrWritingDomainsConf (WriteDynamicLocked nc)
  end.

(** The loop of [AccountRemove] over the suppression list. *)
Fixpoint removeSuppressions (account : string) (sups : list string) : M unit :=
  match sups with
  | [] => ret tt
  | base :: rest =>
    let* addr := orThrow (smtp_ParseAddress E base) (ErrParsingSuppressed base) in
    match queue_SuppressionRemove E account addr with
    | Some _ => throw (ErrRemovingSuppression base)
    | None => removeSuppressions account rest
    end
  end.

Definition AccountRemove (account : string) : M unit :=
  let* published := gets snapshot in
  match OpenAccount E published account with
  | Some msg => throw (ErrOpenAccount msg)
  | None =>
    let* q := gets queue in
    let failed := queue_Fail E q account in
    modify (set_queue failed.1.1) ;;;
    match failed.2 with
    | Some msg => throw (ErrFailingQueued msg)
    | None =>
      match (queue_HookCancel E account).2 with
      | Some msg => throw (ErrCancelingWebhooks msg)
      | None =>
        match queue_SuppressionList E account with
        | inl msg => throw (ErrListingSuppressed msg)
        | inr suppressions =>
          removeSuppressions account suppressions ;;;
          let* c := gets Conf_Dynamic in
          let* accs := read_accounts c in
          let* l := new_accounts (delete account accs) in
          let nc := {| config.Domains := config.Domains c; config.Accounts := l |} in
          wrap ErrWritingDomainsConf (WriteDynamicLocked nc) ;;;
          match Account_Remove E account with
          | Some msg => throw (ErrSchedulingRemoval msg)
          | None => ret tt
          end
        end
      end
    end
  end.

(** ** AddressAdd *)

Definition AddressAdd (address account : string) : M unit :=
  let* c := gets Conf_Dynamic in
  let* accs := read_accounts c in
  let* a := orThrow (accs !! account) ErrAccountNotExist in
  let* destAddr :=
    (if HasPrefix address "@"
     then let* d := orThrow (dns_ParseDomain E (from1 address)) ErrParsingDomain in
          let dname := Domain_Name E d in
          let destAddr := "@" +:+ dname in
          let* published := gets Conf_Dynamic in
          let* doms := read_domains published in
          let* parsed := gets Conf_Parsed in
          if negb (bool_decide (is_Some (doms !! dname)))
          then throw ErrDomainNotExist
          else if bool_decide (is_Some (AccountDestinations parsed !! destAddr))
          then throw ErrCatchallConfigured
          else ret destAddr
     else let* addr := orThrow (smtp_ParseAddress E address) ErrParsingEmailAddress in
          wrap ErrAddressNotAvailable (checkAddressAvailable addr) ;;;
          ret (Address_String E addr)) in
  let* l := new_accounts accs in
  let nc := {| config.Domains := config.Domains c; config.Accounts := l |} in
  let nd := <[destAddr := config.Destination_zero]> (config.Destinations a) in
  accounts_store l account (Account_with_Destinations a nd) ;;;
  wrap ErrWritingDomainsConf (WriteDynamicLocked nc).

(** ** Aliases *)

Definition aliasKey (addr : smtp.Address) : string :=
  Localpart_String E (smtp.Localpart_ addr).

Definition AliasAdd (addr : smtp.Address) (alias : config.Alias) : M unit :=
  DomainSave (Domain_Name E (smtp.Domain_ addr)) (λ d,
    if bool_decide (is_Some (config.Aliases d !! aliasKey addr))
    then inl ErrAliasPresent
    else inr (Domain_with_Aliases d (<[aliasKey addr := alias]> (config.Aliases d)))).

Definition AliasUpdate (addr : smtp.Address) (alias : config.Alias) : M unit :=
  DomainSave (Domain_Name E (smtp.Domain_ addr)) (λ d,
    match config.Aliases d !! aliasKey addr with
    | None => inl ErrAliasNotExist
    | Some a =>
      let a' := {| config.Addresses := config.Addresses a;
                   config.PostPublic := config.PostPublic alias;
                   config.ListMembers := config.ListMembers alias;
                   config.AllowMsgFrom := config.AllowMsgFrom alias |} in
      inr (Domain_with_Aliases d (<[aliasKey addr := a']> (config.Aliases d)))
    end).

Definition AliasRemove (addr : smtp.Address) : M unit :=
  DomainSave (Domain_Name E (smtp.Domain_ addr)) (λ d,
    match config.Aliases d !! aliasKey addr with
    | None => inl ErrAliasNotExist
    | Some _ => inr (Domain_with_Aliases d (delete (aliasKey addr) (config.Aliases d)))
    end).

Definition AliasAddressesAdd (addr : smtp.Address) (addresses : list string) : M unit :=
  if bool_decide (length addresses = 0) then throw ErrAtLeastOneAddress else
  DomainSave (Domain_Name E (smtp.Domain_ addr)) (λ d,
    match config.Aliases d !! aliasKey addr with
    | None => inl ErrNoSuchAlias
    | Some alias =>
      let alias' := Alias_with_Addresses alias (config.Addresses alias ++ addresses) in
      inr (Domain_with_Aliases d (<[aliasKey addr := alias']> (config.Aliases d)))
    end).

(** [slices.DeleteFunc] over the members with the closure of
    [AliasAddressesRemove]: for each member in turn, the closure deletes the
    member from the requested [addresses] and answers whether that made the
    list shorter.  The result is the members kept and what is left of
    [addresses]. *)
Fixpoint deleteRequested (members addresses : list string) : list string * list string :=
  match members with
  | [] => ([], addresses)
  | addr :: rest =>
    let n := length addresses in
    let addresses' := filter (λ a, a ≠ addr) addresses in
    let r := deleteRequested rest addresses' in
    if bool_decide (length addresses' < n) then r else (addr :: r.1, r.2)
  end.

Definition AliasAddressesRemove (addr : smtp.Address) (addresses : list string) : M unit :=
  if bool_decide (length addresses = 0) then throw ErrNeedAtLeastOneAddress else
  DomainSave (Domain_Name E (smtp.Domain_ addr)) (λ d,
    match config.Aliases d !! aliasKey addr with
    | None => inl ErrNoSuchAlias
    | Some alias =>
      let r := deleteRequested (config.Addresses alias) addresses in
      if bool_decide (0 < length r.2) then inl (ErrAddressNotFound r.2) else
      let alias' := Alias_with_Addresses alias r.1 in
      inr (Domain_with_Aliases d (<[aliasKey addr := alias']> (config.Aliases d)))
    end).

(** ** AddressRemove *)

(** Whether the loop over [a.ParsedFromIDLoginAddresses] keeps an entry. *)
Definition keepFromID (address : string) (dom : dns.Domain) (pa : smtp.Address)
    (dc : config.Domain) (fa : smtp.Address) : bool :=
  if bool_decide (smtp.Domain_ fa ≠ dom) then true
  else if HasPrefix address "@" then false
  else bool_decide (CanonicalLocalpart E (smtp.Localpart_ pa) dc
                    ≠ CanonicalLocalpart E (smtp.Localpart_ fa) dc).

(** The loop: entry [i] of the parsed list selects [a.FromIDLoginAddresses[i]];
    [None] is the index-out-of-range panic. *)
Fixpoint filterFromID (keep : smtp.Address → bool) (i : nat)
    (parsedFrom : list smtp.Address) (raw : list string) : option (list string) :=
  match parsedFrom with
  | [] => Some []
  | fa :: rest =>
    if keep fa
    then match raw !! i with
         | None => None
         | Some s => (λ l, s :: l) <$> filterFromID keep (S i) rest raw
         end
    else filterFromID keep (S i) rest raw
  end.

(** The loop over the TLS public keys of the account: the first error. *)
Fixpoint checkTLSPublicKeys (index : gmap string AccountDestination)
    (ad : AccountDestination) (dc : config.Domain) (tlspubkeys : list TLSPublicKey)
    : option Error :=
  match tlspubkeys with
  | [] => None
  | tpk :: rest =>
    match smtp_ParseAddress E (LoginAddress tpk) with
    | None => Some ErrParsingTLSPublicKeyAddress
    | Some a =>
      let lp := CanonicalLocalpart E (smtp.Localpart_ a) dc in
      let ca := smtp.NewAddress lp (smtp.Domain_ a) in
      match index !! Address_String E ca with
      | Some xad =>
        if bool_decide (AD_Localpart xad = AD_Localpart ad)
        then Some (ErrTLSPublicKeyReferences (Fingerprint tpk) (LoginAddress tpk))
        else checkTLSPublicKeys index ad dc rest
      | None => checkTLSPublicKeys index ad dc rest
      end
    end
  end.

(** The loop over [na.Aliases]: [domains] is the clone at [l]; the domain of
    each alias is read from [mox.Conf.Dynamic.Domains]. *)
Fixpoint pruneAliases (address : string) (l : config.loc)
    (aliases : list config.AddressAlias) : M unit :=
  match aliases with
  | [] => ret tt
  | aa :: rest =>
    if bool_decide (config.SubscriptionAddress aa ≠ address)
    then pruneAliases address l rest else
    let aliasAddr := config.Alias_LocalpartStr aa +:+ "@"
                     +:+ Domain_Name E (config.Alias_Domain aa) in
    let* published := gets Conf_Dynamic in
    let* pdoms := read_domains published in
    let* dom := orThrow (pdoms !! Domain_Name E (config.Alias_Domain aa))
                  (ErrCannotFindAliasDomain aliasAddr) in
    let* a := orThrow (config.Aliases dom !! config.Alias_LocalpartStr aa)
                (ErrCannotFindAlias aliasAddr) in
    let addrs := filter (λ v, v ≠ address) (config.Addresses a) in
    if bool_decide (length addrs = 0)
    then throw (ErrLastMemberOfAlias aliasAddr) else
    let a' := Alias_with_Addresses a addrs in
    let dom' := Domain_with_Aliases dom
                  (<[config.Alias_LocalpartStr aa := a']> (config.Aliases dom)) in
    domains_store l (Domain_Name E (config.Alias_Domain aa)) dom' ;;;
    pruneAliases address l rest
  end.

(** [queue.List(ctx, queue.Filter{Account: account}, queue.Sort{})]. *)
Definition queue_List (account : string) : M (list Msg) :=
  let* q := gets queue in
  match queue_List_fault E q account with
  | Some msg => throw (ErrListingQueue msg)
  | None => ret (filter (λ m, Msg_SenderAccount m = account) q)
  end.

(** The loop over the queued messages of the account: the first error. *)
Fixpoint checkQueued (address : string) (ad : AccountDestination)
    (doms : gmap string config.Domain) (index : gmap string AccountDestination)
    (msgs : list Msg) : option Error :=
  match msgs with
  | [] => None
  | m :: rest =>
    match doms !! SenderDomainStr m with
    | None => Some (ErrUnknownSenderDomain (SenderDomainStr m))
    | Some dc =>
      let lp := CanonicalLocalpart E (SenderLocalpart m) dc in
      let sa := Address_String E (smtp.NewAddress lp (SenderDomain m)) in
      if HasPrefix address "@"
      then match index !! sa with
           | Some xad =>
             if bool_decide (AD_Account xad ≠ AD_Account ad)
             then Some (ErrQueueDependsOnCatchall sa)
             else checkQueued address ad doms index rest
           | None => Some (ErrQueueDependsOnCatchall sa)
           end
      else
        let uncovered :=
          match index !! ("@" +:+ SenderDomainStr m) with
          | Some xad => bool_decide (AD_Account xad ≠ AD_Account ad)
          | None => true
          end in
        if uncovered && bool_decide (sa = address)
        then Some (ErrQueueNoCatchall sa)
        else checkQueued address ad doms index rest
    end
  end.

Definition AddressRemove (address : string) : M unit :=
  let* parsed := gets Conf_Parsed in
  let* ad := orThrow (AccountDestinations parsed !! address) ErrAddressNotExists in
  let* c := gets Conf_Dynamic in
  let* accs := read_accounts c in
  let* a := orThrow (accs !! AD_Account ad) ErrCannotFindAccount in
  let naDestinations := delete address (config.Destinations a) in
  let dropped := bool_decide (is_Some (config.Destinations a !! address)) in
  if negb dropped then throw ErrAddressNotRemoved else
  let* dompa :=
    (if HasPrefix address "@"
     then let* dom := orThrow (dns_ParseDomain E (from1 address)) ErrParsingCatchallDomain in
          ret (dom, smtp.NewAddress "" dns.zero)
     else let* pa := orThrow (smtp_ParseAddress E address) ErrParsingAddress in
          ret (smtp.Domain_ pa, pa)) in
  let dom := dompa.1 in
  let pa := dompa.2 in
  let* doms := read_domains c in
  let* dc := orThrow (doms !! Domain_Name E dom) (ErrUnknownDomainInAddress address) in
  let* fromIDLoginAddresses :=
    orThrow (filterFromID (keepFromID address dom pa dc) 0
               (default [] (ParsedFromIDLoginAddresses parsed !! AD_Account ad))
               (config.FromIDLoginAddresses a))
            (GoPanic "index out of range") in
  let na := Account_with_FromIDLoginAddresses
              (Account_with_Destinations a naDestinations) fromIDLoginAddresses in
  let* tlspubkeys :=
    match TLSPublicKeyList E (AD_Account ad) with
    | inl msg => throw (ErrListingTLSPublicKeysAccount msg)
    | inr l => ret l
    end in
  match checkTLSPublicKeys (AccountDestinations parsed) ad dc tlspubkeys with
  | Some e => throw e
  | None =>
    (* domains := maps.Clone(mox.Conf.Dynamic.Domains) *)
    let* l := new_domains doms in
    pruneAliases address l (default [] (AccountAliases parsed !! AD_Account ad)) ;;;
    let* msgs := queue_List (AD_Account ad) in
    match checkQueued address ad doms (AccountDestinations parsed) msgs with
    | Some e => throw e
    | None =>
      let* published := gets Conf_Dynamic in
      let* paccs := read_accounts published in
      let* la := new_accounts paccs in
      accounts_store la (AD_Account ad) na ;;;
      let nc := {| config.Domains := l; config.Accounts := la |} in
      wrap ErrWritingDomainsConf (WriteDynamicLocked nc)
    end
  end.

(** ** ConfigSave, AccountSave *)

(** [xmodify] receives a pointer to the shallow copy [nc] of the published
    configuration: it can read and change the state and the fields of [nc];
    it returns no error. *)
Definition ConfigSave (xmodify : config.Dynamic → World → World * config.Dynamic)
    : M unit :=
  let* nc := gets Conf_Dynamic in
  let* nc' := (λ w, let r := xmodify nc w in (r.1, inr r.2)) in
  wrap ErrWritingDomainsConf (WriteDynamicLocked nc').

(** [xmodify] receives a pointer to the shallow copy of the account and
    changes it. *)
Definition AccountSave (account : string) (xmodify : config.Account → config.Account)
    : M unit :=
  let* c := gets Conf_Dynamic in
  let* accs := read_accounts c in
  let* acc := orThrow (accs !! account) ErrAccountNotPresent in
  let acc' := xmodify acc in
  let* l := new_accounts accs in
  let nc := {| config.Domains := config.Domains c; config.Accounts := l |} in
  accounts_store l account acc' ;;;
  wrap ErrWritingDomainsConf (WriteDynamicLocked nc).

End Admin.

(** * quickstart.go *)

Section Quickstart.

Context (E : Env).

(** ** pwgen

    [rand.Intn], by the number of the call and its argument.  [chars[k]] for
    a [k] that is out of range is a run-time panic: [None]. *)
Definition chars : string :=
  "abcdefghijklmnopqrstuvwxyzABCDEFGHIJKLMNOPQRSTUVWXYZ0123456789!@#$%^&*-_;:,<.>/".

Fixpoint pwgen_loop (Intn : nat → nat → nat) (i n : nat) (s : string) : option string :=
  match n with
  | 0 => Some s
  | S n' =>
    match String.get (Intn i (String.length chars)) chars with
    | Some c => pwgen_loop Intn (S i) n' (String.append s (String c EmptyString))
    | None => None
    end
  end.

Definition pwgen (Intn : nat → nat → nat) : option string := pwgen_loop Intn 0 12 "".

(** ** The files of cmdQuickstart

    The state of [cmdQuickstart] that its closures [fatalf] and [xwritefile]
    share: the files, and the paths to clean up. *)
Record Quickstart := {
  qfs : FS;
  cleanupPaths : list string;
}.

(** [fatalf]: removes the paths to clean up, the last one first, logging a
    removal that fails, and ends the process; the result is the file system
    that it leaves. *)
Definition fatalf (q : Quickstart) : FS :=
  foldl (λ f p, os_Remove E p f) (qfs q) (reverse (cleanupPaths q)).

(** [xwritefile]: the state to go on with, or the file system that [fatalf]
    leaves. *)
Definition xwritefile (path : string) (data : bytes) (q : Quickstart) : FS + Quickstart :=
  let f0 := os_MkdirAll E (filepath_Dir E path) (qfs q) in
  match os_OpenFile_excl E path f0 with
  | None => inl (fatalf {| qfs := f0; cleanupPaths := cleanupPaths q |})
  | Some f1 =>
    let paths := cleanupPaths q ++ [path] in
    let '(f2, failed) := file_Write E path data f1 in
    if failed || io_fault E (IOClose path) f2
    then inl (fatalf {| qfs := f2; cleanupPaths := paths |})
    else inr {| qfs := f2; cleanupPaths := paths |}
  end.

(** ** The addresses of the listeners

    A [net.IP] by what [cmdQuickstart] asks of it; [None] is the nil IP that
    [parseAddrIP] returns for a string that does not parse, for which every
    predicate of package net is false. *)
Record IPAddr := {
  InterfaceLocalMulticast : bool;
  LinkLocalMulticast : bool;
  LinkLocalUnicast : bool;
  Multicast : bool;
  Loopback : bool;
  Private : bool;
  IP_String : string;
}.

Definition IP := option IPAddr.

Definition ipIs (p : IPAddr → bool) (ip : IP) : bool :=
  match ip with
  | Some a => p a
  | None => false
  end.

(** A network interface: whether [net.FlagUp] is set, and its addresses as
    [parseAddrIP] parses them, or [None] when [iface.Addrs()] fails. *)
Record Interface := {
  FlagUp : bool;
  Addrs : option (list IP);
}.

Definition skipped (ip : IP) : bool :=
  ipIs InterfaceLocalMulticast ip || ipIs LinkLocalMulticast ip
  || ipIs LinkLocalUnicast ip || ipIs Multicast ip.

(** The first loop over the addresses of an interface. *)
Fixpoint nonpublic (addrs : list IP) : bool :=
  match addrs with
  | [] => false
  | ip :: rest =>
    if skipped ip then nonpublic rest
    else if ipIs Loopback ip || ipIs Private ip then true
    else nonpublic rest
  end.

(** The second loop: the addresses that are appended. *)
Fixpoint listed (addrs : list IP) : list string :=
  match addrs with
  | [] => []
  | ip :: rest =>
    match ip with
    | None => listed rest
    | Some a => if skipped ip then listed rest else IP_String a :: listed rest
    end
  end.

(** The loop over the interfaces: [privateIPs] and [publicIPs], or [None]
    when listing the addresses of an interface fails. *)
Fixpoint gatherIPs (ifaces : list Interface) (privateIPs publicIPs : list string)
    : option (list string * list string) :=
  match ifaces with
  | [] => Some (privateIPs, publicIPs)
  | iface :: rest =>
    if negb (FlagUp iface) then gatherIPs rest privateIPs publicIPs
    else match Addrs iface with
         | None => None
         | Some addrs =>
           if bool_decide (length addrs = 0) then gatherIPs rest privateIPs publicIPs
           else if nonpublic addrs
           then gatherIPs rest (privateIPs ++ listed addrs) publicIPs
           else gatherIPs rest privateIPs (publicIPs ++ listed addrs)
         end
  end.

(** [publicListenerIPs] and [privateListenerIPs]. *)
Definition listenerIPs (ifaces : list Interface) : option (list string * list string) :=
  match gatherIPs ifaces [] [] with
  | None => None
  | Some (privateIPs, publicIPs) =>
    Some (if (0 <? length publicIPs)%nat then publicIPs else ["0.0.0.0"; "::"],
          if (0 <? length privateIPs)%nat then privateIPs else ["127.0.0.1"; "::1"])
  end.

(** The address [s] comes from an interface of [ifaces] that is up, whose
    addresses make it non-public ([np = true]) or not ([np = false]). *)
Definition fromInterface (ifaces : list Interface) (np : bool) (s : string) : Prop :=
  ∃ iface addrs a,
    iface ∈ ifaces ∧ FlagUp iface = true ∧ Addrs iface = Some addrs ∧
    nonpublic addrs = np ∧
    Some a ∈ addrs ∧ skipped (Some a) = false ∧ IP_String a = s.

End Quickstart.

(** ** Notions used in the statements *)

Section Notions.

Context (E : Env).

(** The state after [m := map{}], the copy loop and the stores that make the
    new map hold [m]. *)
Definition withDomains (m : gmap string config.Domain) (w : World) : World :=
  set_domainMaps (domainMaps w ++ [m]) w.

Definition withAccounts (m : gmap string config.Account) (w : World) : World :=
  set_accountMaps (accountMaps w ++ [m]) w.

(** The configuration [AliasAddressesAdd] hands to the publish step: the
    alias with [addresses] appended to its members. *)
Definition withMembersAdded (s : Snapshot) (name key : string) (d : config.Domain)
    (alias : config.Alias) (addresses : list string) : Snapshot :=
  {| sDomains :=
       <[name := Domain_with_Aliases d
                   (<[key := Alias_with_Addresses alias
                               (config.Addresses alias ++ addresses)]>
                      (config.Aliases d))]> (sDomains s);
     sAccounts := sAccounts s |}.

(** [data] is the PEM encoding of the PKCS#8 form of a key. *)
Definition encodesKey (key : PrivateKey) (data : bytes) : Prop :=
  ∃ pkcs8 note,
    x509_MarshalPKCS8PrivateKey E key = Some pkcs8 ∧
    pem_Encode E {| Pem_Type := "PRIVATE KEY"; Pem_Note := note; Pem_Bytes := pkcs8 |}
    = Some data.

Definition isRSA2048KeyFile (data : bytes) : Prop :=
  ∃ secret, encodesKey (RSAPrivateKey 2048 secret) data.

Definition isEd25519KeyFile (data : bytes) : Prop :=
  ∃ seed, encodesKey (Ed25519PrivateKey seed) data.

(** The key [DKIMAdd] generates for an algorithm, with its file name tag. *)
Definition generateKey (selector domain : dns.Domain) (algorithm : string)
    : M (bytes * string) :=
  wrap ErrMakingDKIMKey
    (if bool_decide (algorithm = "rsa")
     then let* k := MakeDKIMRSAKey E selector domain in ret (k, "rsa2048")
     else if bool_decide (algorithm = "ed25519")
     then let* k := MakeDKIMEd25519Key E selector domain in ret (k, "ed25519")
     else throw ErrUnknownAlgorithm).

(** The selector [DKIMAdd] adds. *)
Definition newSelector (hash : string) (headerRelaxed bodyRelaxed seal : bool)
    (headers : list string) (lifetime : Duration) (keyPath : string) : config.Selector :=
  {| config.Hash := hash;
     config.Canonicalization_ :=
       {| config.HeaderRelaxed := headerRelaxed; config.BodyRelaxed := bodyRelaxed |};
     config.Headers := headers;
     config.DontSealHeaders := negb seal;
     config.Expiration := Duration_String E lifetime;
     config.PrivateKeyFile := keyPath |}.

Definition withSelector (d : config.Domain) (name : string) (sel : config.Selector)
    : config.Domain :=
  Domain_with_DKIM d
    (DKIM_with_Selectors (config.DKIM_ d)
       (<[name := sel]> (config.Selectors (config.DKIM_ d)))).

(** The selector [MakeDomainConfig] makes for a key file. *)
Definition defaultSelector (keyPath : string) : config.Selector :=
  {| config.Hash := "";
     config.Canonicalization_ :=
       {| config.HeaderRelaxed := false; config.BodyRelaxed := false |};
     config.Headers := [];
     config.DontSealHeaders := false;
     config.Expiration := "72h";
     config.PrivateKeyFile := keyPath |}.

(** The accounts [DomainAdd] hands to the publish step. *)
Definition accountsForDomain (accs : gmap string config.Account) (domain : dns.Domain)
    (accountName : string) (localpart : smtp.Localpart) : gmap string config.Account :=
  match accs !! accountName with
  | None => <[accountName := MakeAccountConfig E (smtp.NewAddress localpart domain)]> accs
  | Some acc =>
    if bool_decide (accountName = config.Postmaster_Account (Conf_Static E)) then accs
    else <[accountName :=
             Account_with_Destinations acc
               (<[Address_String E (smtp.NewAddress "postmaster" domain)
                  := config.Destination_zero]> (config.Destinations acc))]> accs
  end.

(** Where [moveAwayKeys] takes the key file of a selector from, and where it
    moves it to: the directory "old" beside it, under the same base name. *)
Definition keySource (sel : config.Selector) : string :=
  ConfigDirPath E (config.PrivateKeyFile sel).

Definition keyDestination (sel : config.Selector) : string :=
  ConfigDirPath E
    (filepath_Join E [filepath_Dir E (config.PrivateKeyFile sel); "old";
                      filepath_Base E (config.PrivateKeyFile sel)]).

(** The key file path of [sel] is the path, up to [filepath.Clean], of a
    selector of a domain of [doms]. *)
Definition referencedIn (doms : gmap string config.Domain) (sel : config.Selector) : Prop :=
  ∃ name dc sname s,
    doms !! name = Some dc ∧
    config.Selectors (config.DKIM_ dc) !! sname = Some s ∧
    filepath_Clean E (config.PrivateKeyFile s) = filepath_Clean E (config.PrivateKeyFile sel).

(** The other selectors that are retired in the same loop name other files:
    a selector with another key file path has its source and destination
    away from the source and the destination of [sel], and the destination
    of neither is the directory of the destination of the other or a
    directory above it. *)
Definition apart (sels : list config.Selector) (sel : config.Selector) : Prop :=
  ∀ t, t ∈ sels → config.PrivateKeyFile t ≠ config.PrivateKeyFile sel →
    keySource t ≠ keySource sel ∧ keyDestination t ≠ keySource sel ∧
    keySource t ≠ keyDestination sel ∧ keyDestination t ≠ keyDestination sel ∧
    (keyDestination sel ∉ ancestors E (filepath_Dir E (keyDestination t))) ∧
    (keyDestination t ∉ ancestors E (filepath_Dir E (keyDestination sel))).

(** What retiring the selectors [sels], with [doms] the domains of the new
    configuration, does to the key file of each of them between the states
    [w] and [w']. *)
Definition keysRetired (doms : gmap string config.Domain) (sels : list config.Selector)
    (w w' : World) : Prop :=
  ∀ sel data,
    sel ∈ sels →
    config.PrivateKeyFile sel ≠ "" →
    files (fs w) !! keySource sel = Some data →
    apart sels sel →
    (* still referenced: left in place *)
    (referencedIn doms sel → files (fs w') !! keySource sel = Some data)
    ∧ ((∀ c f, io_fault E c f = false) → ¬ referencedIn doms sel →
       (* the destination exists: refused and logged *)
       (fs_exists (keyDestination sel) (fs w) = true →
          files (fs w') !! keySource sel = Some data ∧
          files (fs w') !! keyDestination sel = files (fs w) !! keyDestination sel ∧
          LogRenamingKey DestinationExists (keySource sel) (keyDestination sel) ∈ logged w')
       (* the destination is free, and no regular file is in the place of
          the directory "old" or of a directory above it: moved *)
       ∧ (fs_exists (keyDestination sel) (fs w) = false →
          keySource sel ≠ keyDestination sel →
          underFile E (filepath_Dir E (keyDestination sel)) (fs w) = false →
          files (fs w') !! keyDestination sel = Some data ∧
          files (fs w') !! keySource sel = None)).

(** No call of [os.Remove] fails for a reason outside the model. *)
Definition removalSucceeds : Prop := ∀ p f, io_fault E (IORemove p) f = false.

(** The files [f'] after a failed call that cleans up after itself, against
    the files [f] before the call: no file that was there is lost or
    changed, and no file is added when the removals succeed. *)
Definition cleanedUp (f f' : FS) : Prop :=
  files f ⊆ files f' ∧ (removalSucceeds → files f' = files f).

(** The sender of a queued message in canonical form, as the loop over the
    queue in [AddressRemove] forms it. *)
Definition senderAddress (dc : config.Domain) (m : Msg) : string :=
  Address_String E
    (smtp.NewAddress (CanonicalLocalpart E (SenderLocalpart m) dc) (SenderDomain m)).

(** [key] is not configured for [account]: the index has no entry for it, or
    the entry belongs to another account. *)
Definition notConfiguredFor (index : gmap string AccountDestination)
    (account key : string) : Prop :=
  ∀ xad, index !! key = Some xad → AD_Account xad ≠ account.

(** Pruning [address] from the alias of the membership [aa] leaves a member. *)
Definition keepsAMember (doms : gmap string config.Domain) (address : string)
    (aa : config.AddressAlias) : Prop :=
  config.SubscriptionAddress aa = address →
  ∃ dom a,
    doms !! Domain_Name E (config.Alias_Domain aa) = Some dom ∧
    config.Aliases dom !! config.Alias_LocalpartStr aa = Some a ∧
    filter (λ v, v ≠ address) (config.Addresses a) ≠ [].

(** The checks of [AddressRemove] that come before the loop over the queue
    pass, and every queued message of the account has a sender domain that
    is configured. *)
Definition reachesQueueCheck (w : World) (address : string) (ad : AccountDestination)
    : Prop :=
  let parsed := Conf_Parsed w in
  let doms := sDomains (snapshot w) in
  ∃ a dom pa dc keys,
    sAccounts (snapshot w) !! AD_Account ad = Some a ∧
    is_Some (config.Destinations a !! address) ∧
    (if HasPrefix address "@"
     then dns_ParseDomain E (from1 address) = Some dom ∧
          pa = smtp.NewAddress "" dns.zero
     else smtp_ParseAddress E address = Some pa ∧ dom = smtp.Domain_ pa) ∧
    doms !! Domain_Name E dom = Some dc ∧
    is_Some (filterFromID (keepFromID E address dom pa dc) 0
               (default [] (ParsedFromIDLoginAddresses parsed !! AD_Account ad))
               (config.FromIDLoginAddresses a)) ∧
    TLSPublicKeyList E (AD_Account ad) = inr keys ∧
    checkTLSPublicKeys E (AccountDestinations parsed) ad dc keys = None ∧
    Forall (keepsAMember doms address)
      (default [] (AccountAliases parsed !! AD_Account ad)) ∧
    queue_List_fault E (queue w) (AD_Account ad) = None ∧
    Forall (λ m, is_Some (doms !! SenderDomainStr m))
      (filter (λ m, Msg_SenderAccount m = AD_Account ad) (queue w)).

(** The call [m] in the state [w] is refused with the request error [e], and
    leaves the published configuration and the files as they were. *)
Definition refusedWith {A} (m : M A) (w : World) (e : Error) : Prop :=
  (m w).2 = inl e ∧
  isErrRequest e = true ∧
  snapshot (m w).1 = snapshot w ∧
  fs (m w).1 = fs w.

(** The store opens no account that is not in the configuration. *)
Definition opensConfiguredOnly : Prop :=
  ∀ s account, sAccounts s !! account = None → is_Some (OpenAccount E s account).

(** The index of [w] has an entry for what [AddressAdd] looks up for
    [address]: the catchall address of the domain, or the address in
    canonical form. *)
Definition indexed (w : World) (address : string) : Prop :=
  let index := AccountDestinations (Conf_Parsed w) in
  if HasPrefix address "@"
  then ∀ d, dns_ParseDomain E (from1 address) = Some d →
            is_Some (index !! ("@" +:+ Domain_Name E d))
  else ∀ addr dc,
         smtp_ParseAddress E address = Some addr →
         sDomains (snapshot w) !! Domain_Name E (smtp.Domain_ addr) = Some dc →
         is_Some (index !! Address_String E
                    (smtp.NewAddress (CanonicalLocalpart E (smtp.Localpart_ addr) dc)
                       (smtp.Domain_ addr))).

(** What [AddressAdd] has parsed and found when it goes on to compose the
    new configuration. *)
Definition addressAccepted (w : World) (address : string) : Prop :=
  if HasPrefix address "@"
  then ∃ d, dns_ParseDomain E (from1 address) = Some d ∧
            is_Some (sDomains (snapshot w) !! Domain_Name E d)
  else ∃ addr, smtp_ParseAddress E address = Some addr ∧
               is_Some (sDomains (snapshot w) !! Domain_Name E (smtp.Domain_ addr)).

(** An [xmodify] of [ConfigSave] that keeps to its contract: it leaves the
    published configuration, the maps that exist and the files alone, and
    only makes new maps. *)
Definition clones (xmodify : config.Dynamic → World → World * config.Dynamic) : Prop :=
  ∀ c w,
    let w' := (xmodify c w).1 in
    Conf_Dynamic w' = Conf_Dynamic w ∧
    fs w' = fs w ∧
    (∀ l, l < length (domainMaps w) → domainMaps w' !! l = domainMaps w !! l) ∧
    (∀ l, l < length (accountMaps w) → accountMaps w' !! l = accountMaps w !! l).

End Notions.

(** The file name as the specification words it (section 6):
    <selector>._domainkey.<domain>.<generation-timestamp>.<algorithm-tag>.privatekey.pem *)
Definition specKeyFileName (selector domain timestamp tag : string) : string :=
  selector +:+ "._domainkey." +:+ domain +:+ "." +:+ timestamp +:+ "." +:+ tag
  +:+ ".privatekey.pem".

(** ** A concrete environment and state

    A small instance of [Env], used to run the handlers on concrete inputs:
    slash-separated paths, addresses of the form localpart@domain, a clock
    that stands still, and a store and queue that never fail.  The publish
    step accepts every configuration unless told otherwise, and derives the
    index from the destinations of the accounts and the alias memberships
    from the member lists of the aliases. *)

Module Sample.

Fixpoint splitLast (sep : Ascii.ascii) (s : string) : option (string * string) :=
  match s with
  | EmptyString => None
  | String c s' =>
    match splitLast sep s' with
    | Some (d, b) => Some (String c d, b)
    | None => if Ascii.eqb c sep then Some (EmptyString, s') else None
    end
  end.

Definition Join (parts : list string) : string := String.concat "/" parts.

Definition Dir (s : string) : string :=
  match splitLast "/"%char s with
  | Some (d, _) => if bool_decide (d = "") then "/" else d
  | None => "."
  end.

Definition Base (s : string) : string :=
  match splitLast "/"%char s with
  | Some (_, b) => b
  | None => s
  end.

Definition Name (d : dns.Domain) : string :=
  if bool_decide (dns.Unicode d = "") then dns.ASCII d else dns.Unicode d.

Definition ParseDomain (s : string) : option dns.Domain :=
  if bool_decide (s = "") then None
  else Some {| dns.ASCII := s; dns.Unicode := "" |}.

Definition ParseAddress (s : string) : option smtp.Address :=
  match splitLast "@"%char s with
  | Some (lp, d) =>
    if bool_decide (lp = "") then None
    else (λ dom, smtp.NewAddress lp dom) <$> ParseDomain d
  | None => None
  end.

Definition AddressString (a : smtp.Address) : string :=
  smtp.Localpart_ a +:+ "@" +:+ Name (smtp.Domain_ a).

Definition destinationEntry (account : string) (dest : string * config.Destination)
    : string * AccountDestination :=
  (dest.1,
   {| AD_Catchall := HasPrefix dest.1 "@";
      AD_Localpart := match ParseAddress dest.1 with
                      | Some a => smtp.Localpart_ a
                      | None => ""
                      end;
      AD_Account := account;
      AD_Destination := dest.2 |}).

Definition index (s : Snapshot) : gmap string AccountDestination :=
  list_to_map
    (acc ← map_to_list (sAccounts s);
     destinationEntry acc.1 <$> map_to_list (config.Destinations acc.2)).

Definition memberships (s : Snapshot) (account : string) : list config.AddressAlias :=
  dom ← map_to_list (sDomains s);
  al ← map_to_list (config.Aliases dom.2);
  member ← config.Addresses al.2;
  match index s !! member with
  | Some ad =>
    if bool_decide (AD_Account ad = account)
    then [ {| config.SubscriptionAddress := member;
              config.Alias_LocalpartStr := al.1;
              config.Alias_Domain := {| dns.ASCII := dom.1; dns.Unicode := "" |} |} ]
    else []
  | None => []
  end.

Definition parse (s : Snapshot) : Parsed :=
  {| AccountDestinations := index s;
     AccountAliases := list_to_map ((λ acc, (acc.1, memberships s acc.1))
                                      <$> map_to_list (sAccounts s));
     ParsedFromIDLoginAddresses := ∅ |}.

Definition now : Time :=
  {| fmt_2006 := "2024";
     fmt_20060102T150405 := "20240102T030405";
     fmt_UTC_20060102T150405 := "20240102T020405";
     fmt_RFC3339 := "2024-01-02T03:04:05+01:00" |}.

Definition static : config.Static :=
  {| config.Listeners_MTASTSHTTPS_Enabled := [false];
     config.HostnameDomain := {| dns.ASCII := "mail.example.org"; dns.Unicode := "" |};
     config.Postmaster_Account := "root" |}.

(** The environment, by what fails in it: [faults] are the failing calls on
    the operating system, [rejects] the configurations the publish step
    refuses, [tlskeys] the TLS public keys in the store. *)
Definition env (faults : IOCall → FS → bool) (rejects : Snapshot → bool)
    (tlskeys : list TLSPublicKey) : Env :=
  {| filepath_Join := Join;
     filepath_Dir := Dir;
     filepath_Base := Base;
     filepath_Clean := id;
     clock := λ _, now;
     rand_rsa := λ n, Some (N.of_nat n);
     rand_ed25519 := λ n, Some (N.of_nat n);
     x509_MarshalPKCS8PrivateKey := λ k,
       Some match k with
            | RSAPrivateKey bits secret => [1; bits; secret]%N
            | Ed25519PrivateKey seed => [2; seed]%N
            end;
     pem_Encode := λ b, Some (Pem_Bytes b);
     Duration_String := λ _, "72h0m0s";
     io_fault := faults;
     short_write := λ _ _ _, 0;
     Domain_Name := Name;
     dns_ParseDomain := ParseDomain;
     smtp_ParseAddress := ParseAddress;
     Address_String := AddressString;
     Localpart_String := id;
     Conf_Static := static;
     ConfigDirPath := λ f, "/etc/mox/" +:+ f;
     ConfigDynamicDirPath := λ f, "/etc/mox/" +:+ f;
     DataDirPath := λ f, "/var/lib/mox/" +:+ f;
     CanonicalLocalpart := λ lp _, lp;
     LocalpartCatchallSeparatorsEffective := λ dc,
       [config.LocalpartCatchallSeparator dc];
     prepareDynamicConfig := λ _ s,
       if rejects s then inl "rejected" else inr (parse s);
     TLSPublicKeyList := λ account,
       inr (filter (λ k, account = "" ∨ TPK_Account k = account) tlskeys);
     OpenAccount := λ s account,
       match sAccounts s !! account with
       | Some _ => None
       | None => Some "unknown account"
       end;
     Account_Remove := λ _, None;
     queue_List_fault := λ _ _, None;
     queue_Fail := λ q account,
       (filter (λ m, Msg_SenderAccount m ≠ account) q,
        length (filter (λ m, Msg_SenderAccount m = account) q), None);
     queue_HookCancel := λ _, (0, None);
     queue_SuppressionList := λ _, inr [];
     queue_SuppressionRemove := λ _ _, None |}.

Definition noFault : IOCall → FS → bool := λ _ _, false.

Definition accept : Snapshot → bool := λ _, false.

Definition env0 : Env := env noFault accept [].

(** A state with the given domains, accounts, files and queue, published
    and parsed. *)
Definition world (doms : gmap string config.Domain)
    (accs : gmap string config.Account) (f : FS) (q : list Msg) : World :=
  let s := {| sDomains := doms; sAccounts := accs |} in
  {| Conf_Dynamic := {| config.Domains := 0; config.Accounts := 0 |};
     Conf_Parsed := parse s;
     domainMaps := [doms];
     accountMaps := [accs];
     fs := f;
     domainsConf := s;
     queue := q;
     readings := 0;
     logged := [] |}.

Definition noFiles : FS := {| files := ∅; dirs := ∅ |}.

Definition example_org : dns.Domain := {| dns.ASCII := "example.org"; dns.Unicode := "" |}.

Definition s1 : dns.Domain := {| dns.ASCII := "s1"; dns.Unicode := "" |}.

(** An empty installation. *)
Definition w_empty : World := world ∅ ∅ noFiles [].

Definition destinations (l : list string) : gmap string config.Destination :=
  list_to_map ((λ a, (a, config.Destination_zero)) <$> l).

Definition account (dests : list string) : config.Account :=
  Account_with_Destinations
    (MakeAccountConfig env0 (smtp.NewAddress "x" example_org))
    (destinations dests).

Definition alias (members : list string) : config.Alias :=
  {| config.Addresses := members;
     config.PostPublic := false;
     config.ListMembers := false;
     config.AllowMsgFrom := false |}.

Definition selector (keyFile : string) : config.Selector :=
  {| config.Hash := "sha256";
     config.Canonicalization_ :=
       {| config.HeaderRelaxed := true; config.BodyRelaxed := true |};
     config.Headers := [];
     config.DontSealHeaders := false;
     config.Expiration := "72h";
     config.PrivateKeyFile := keyFile |}.

Definition domain (sels : gmap string config.Selector) (sign : list string)
    (aliases : gmap string config.Alias) : config.Domain :=
  {| config.Disabled := false;
     config.ClientSettingsDomain := "";
     config.LocalpartCatchallSeparator := "+";
     config.DKIM_ := {| config.Selectors := sels; config.Sign := sign |};
     config.DMARC_ := None;
     config.TLSRPT_ := None;
     config.MTASTS_ := None;
     config.Aliases := aliases |}.

(** example.org with two lists, "team" and "all", that both have
    a@example.org and b@example.org as members; accounts alice and bob. *)
Definition w_lists : World :=
  world
    {[ "example.org" :=
         domain ∅ []
           {[ "team" := alias ["a@example.org"; "b@example.org"];
              "all" := alias ["a@example.org"; "b@example.org"] ]} ]}
    {[ "alice" := account ["a@example.org"];
       "bob" := account ["b@example.org"] ]}
    noFiles [].

Definition team : smtp.Address := smtp.NewAddress "team" example_org.

(** A publish step that refuses a configuration in which an alias lists a
    member twice. *)
Definition hasDuplicateMember (s : Snapshot) : bool :=
  bool_decide (∃ name d, sDomains s !! name = Some d ∧
               ∃ lp a, config.Aliases d !! lp = Some a ∧
               ¬ NoDup (config.Addresses a)).

(** A publish step that refuses a configuration in which an alias lists a
    member that is no destination of any account. *)
Definition hasDanglingMember (s : Snapshot) : bool :=
  bool_decide (∃ name d, sDomains s !! name = Some d ∧
               ∃ lp a, config.Aliases d !! lp = Some a ∧
               ¬ Forall (λ m, is_Some (index s !! m)) (config.Addresses a)).

(** The members of an alias and the destinations of an account in the
    published configuration. *)
Definition members (w : World) (domainName lp : string) : option (list string) :=
  d ← sDomains (snapshot w) !! domainName;
  a ← config.Aliases d !! lp;
  Some (config.Addresses a).

Definition destinationsOf (w : World) (account : string) : option (list string) :=
  a ← sAccounts (snapshot w) !! account;
  Some (map_to_list (config.Destinations a)).*1.

Definition a_example : dns.Domain := {| dns.ASCII := "a.example"; dns.Unicode := "" |}.
Definition b_example : dns.Domain := {| dns.ASCII := "b.example"; dns.Unicode := "" |}.

(** Two domains whose selector "s" uses the same key file. *)
Definition w_shared : World :=
  world
    {[ "a.example" := domain {[ "s" := selector "dkim/shared.pem" ]} ["s"] ∅;
       "b.example" := domain {[ "s" := selector "dkim/shared.pem" ]} ["s"] ∅ ]}
    ∅
    {| files := {[ "/etc/mox/dkim/shared.pem" := [7%N] ]};
       dirs := {[ "/etc/mox/dkim" ]} |}
    [].

(** example.org with alice, who has a@example.org and the catchall
    @example.org, and bob, who has b@example.org; the queue holds a message
    of alice from stray@example.org and a message of bob from b@example.org. *)
Definition queued (account : string) (lp : smtp.Localpart) : Msg :=
  {| Msg_SenderAccount := account;
     SenderLocalpart := lp;
     SenderDomain := example_org;
     SenderDomainStr := "example.org" |}.

Definition w_queue : World :=
  world
    {[ "example.org" := domain ∅ [] ∅ ]}
    {[ "alice" := account ["a@example.org"; "@example.org"];
       "bob" := account ["b@example.org"] ]}
    noFiles
    [queued "alice" "stray"; queued "bob" "b"].

(** [E] with a queue that cannot be listed. *)
Definition listingFails (E : Env) : Env :=
  {| filepath_Join := filepath_Join E;
     filepath_Dir := filepath_Dir E;
     filepath_Base := filepath_Base E;
     filepath_Clean := filepath_Clean E;
     clock := clock E;
     rand_rsa := rand_rsa E;
     rand_ed25519 := rand_ed25519 E;
     x509_MarshalPKCS8PrivateKey := x509_MarshalPKCS8PrivateKey E;
     pem_Encode := pem_Encode E;
     Duration_String := Duration_String E;
     io_fault := io_fault E;
     short_write := short_write E;
     Domain_Name := Domain_Name E;
     dns_ParseDomain := dns_ParseDomain E;
     smtp_ParseAddress := smtp_ParseAddress E;
     Address_String := Address_String E;
     Localpart_String := Localpart_String E;
     Conf_Static := Conf_Static E;
     ConfigDirPath := ConfigDirPath E;
     ConfigDynamicDirPath := ConfigDynamicDirPath E;
     DataDirPath := DataDirPath E;
     CanonicalLocalpart := CanonicalLocalpart E;
     LocalpartCatchallSeparatorsEffective := LocalpartCatchallSeparatorsEffective E;
     prepareDynamicConfig := prepareDynamicConfig E;
     TLSPublicKeyList := TLSPublicKeyList E;
     OpenAccount := OpenAccount E;
     Account_Remove := Account_Remove E;
     queue_List_fault := λ _ _, Some "database is locked";
     queue_Fail := queue_Fail E;
     queue_HookCancel := queue_HookCancel E;
     queue_SuppressionList := queue_SuppressionList E;
     queue_SuppressionRemove := queue_SuppressionRemove E |}.

(** The queue of [w_queue] with, in front, a message of alice whose sender
    domain is not configured. *)
Definition w_queue_unknown : World :=
  world
    {[ "example.org" := domain ∅ [] ∅ ]}
    {[ "alice" := account ["a@example.org"; "@example.org"];
       "bob" := account ["b@example.org"] ]}
    noFiles
    [ {| Msg_SenderAccount := "alice";
         SenderLocalpart := "news";
         SenderDomain := {| dns.ASCII := "other.example"; dns.Unicode := "" |};
         SenderDomainStr := "other.example" |};
      queued "alice" "stray"; queued "bob" "b" ].

(** Failures of the operating system: of every write; of the write when
    two files are there already; of every write and every removal; and of
    every close and every removal. *)
Definition writeFails : IOCall → FS → bool :=
  λ c _, match c with IOWrite _ => true | _ => false end.

Definition secondWriteFails : IOCall → FS → bool :=
  λ c f, match c with IOWrite _ => bool_decide (1 < size (files f)) | _ => false end.

Definition writeAndRemoveFail : IOCall → FS → bool :=
  λ c _, match c with IOWrite _ | IORemove _ => true | _ => false end.

Definition closeAndRemoveFail : IOCall → FS → bool :=
  λ c _, match c with IOClose _ | IORemove _ => true | _ => false end.

(** [E] with a store in which scheduling the removal of an account
    directory fails. *)
Definition removalFails (E : Env) : Env :=
  {| filepath_Join := filepath_Join E;
     filepath_Dir := filepath_Dir E;
     filepath_Base := filepath_Base E;
     filepath_Clean := filepath_Clean E;
     clock := clock E;
     rand_rsa := rand_rsa E;
     rand_ed25519 := rand_ed25519 E;
     x509_MarshalPKCS8PrivateKey := x509_MarshalPKCS8PrivateKey E;
     pem_Encode := pem_Encode E;
     Duration_String := Duration_String E;
     io_fault := io_fault E;
     short_write := short_write E;
     Domain_Name := Domain_Name E;
     dns_ParseDomain := dns_ParseDomain E;
     smtp_ParseAddress := smtp_ParseAddress E;
     Address_String := Address_String E;
     Localpart_String := Localpart_String E;
     Conf_Static := Conf_Static E;
     ConfigDirPath := ConfigDirPath E;
     ConfigDynamicDirPath := ConfigDynamicDirPath E;
     DataDirPath := DataDirPath E;
     CanonicalLocalpart := CanonicalLocalpart E;
     LocalpartCatchallSeparatorsEffective := LocalpartCatchallSeparatorsEffective E;
     prepareDynamicConfig := prepareDynamicConfig E;
     TLSPublicKeyList := TLSPublicKeyList E;
     OpenAccount := OpenAccount E;
     Account_Remove := λ _, Some "disk full";
     queue_List_fault := queue_List_fault E;
     queue_Fail := queue_Fail E;
     queue_HookCancel := queue_HookCancel E;
     queue_SuppressionList := queue_SuppressionList E;
     queue_SuppressionRemove := queue_SuppressionRemove E |}.

End Sample.

(** * Properties

    [mrun] runs the monad's operations on the state at hand. *)
Ltac mrun :=
  unfold read_domains, read_accounts, new_domains, new_accounts,
         domains_store, accounts_store in *;
  unfold bind, wrap, defer, try, orThrow in *;
  unfold gets, modify, ret, throw in *;
  cbn [fst snd fmap option_fmap option_map from_option id
       config.Domains config.Accounts
       set_fs set_domainMaps set_accountMaps set_queue set_readings
       set_logged set_published
       Conf_Dynamic Conf_Parsed domainMaps accountMaps fs domainsConf
       queue readings logged files dirs] in *.

Section Proofs.
Context (E : Env).

(** ** Files *)

Lemma fs_exists_false p f :
  fs_exists p f = false ↔ files f !! p = None ∧ (p ∉ dirs f).
Proof.
  unfold fs_exists. rewrite orb_false_iff, !bool_decide_eq_false.
  rewrite <-eq_None_not_Some. done.
Qed.

Lemma ancestors_self d : d ∈ ancestors E d.
Proof.
  unfold ancestors. destruct (String.length d); cbn [pathsUp]; [by left|].
  destruct (bool_decide _); by left.
Qed.

Lemma underFile_false d f :
  underFile E d f = false ↔ ∀ a, a ∈ ancestors E d → files f !! a = None.
Proof.
  unfold underFile. induction (ancestors E d) as [|x l IH]; cbn [existsb].
  { split; [|done]. by intros _ a ?%elem_of_nil. }
  rewrite orb_false_iff, bool_decide_eq_false, <-eq_None_not_Some, IH. split.
  - intros [Hx Hl] a [->|Ha]%elem_of_cons; [done|by apply Hl].
  - intros H. split; [apply H; by left|]. intros a Ha. apply H. by right.
Qed.

Lemma underFile_files d f f' : files f' = files f → underFile E d f' = underFile E d f.
Proof. unfold underFile. by intros ->. Qed.

Lemma fs_exists_MkdirAll p d f :
  fs_exists p f = true → fs_exists p (os_MkdirAll E d f) = true.
Proof.
  unfold os_MkdirAll, fs_exists. destruct (io_fault E _ f); [done|].
  destruct (underFile E d f); [done|]. cbn.
  rewrite !orb_true_iff, !bool_decide_eq_true.
  intros [Hf|Hd]; [by left|right]. apply elem_of_union. by right.
Qed.

Lemma files_MkdirAll d f : files (os_MkdirAll E d f) = files f.
Proof.
  unfold os_MkdirAll. destruct (io_fault E _ f); [done|].
  by destruct (underFile E d f).
Qed.

Lemma dirs_MkdirAll d f :
  dirs f ⊆ dirs (os_MkdirAll E d f) ∧
  dirs (os_MkdirAll E d f) ⊆ list_to_set (ancestors E d) ∪ dirs f.
Proof.
  unfold os_MkdirAll. destruct (io_fault E _ f).
  { split; [done|apply union_subseteq_r]. }
  destruct (underFile E d f); cbn.
  - split; [done|apply union_subseteq_r].
  - split; [apply union_subseteq_r|done].
Qed.

(** The directory is made when nothing fails and no regular file is in its
    place or in the place of a directory above it. *)
Lemma MkdirAll_made d f :
  io_fault E (IOMkdirAll d) f = false →
  underFile E d f = false →
  os_MkdirAll E d f = {| files := files f; dirs := list_to_set (ancestors E d) ∪ dirs f |}.
Proof. intros Hnf Hd. unfold os_MkdirAll. by rewrite Hnf, Hd. Qed.

Lemma fs_isDir_true p f : fs_isDir E p f = true ↔ p ∈ dirs f ∧ underFile E p f = false.
Proof.
  unfold fs_isDir. rewrite andb_true_iff, bool_decide_eq_true, negb_true_iff. done.
Qed.

Lemma OpenFile_excl_Some p f f1 :
  os_OpenFile_excl E p f = Some f1 →
  files f !! p = None ∧ (p ∉ dirs f) ∧ (filepath_Dir E p ∈ dirs f) ∧
  f1 = {| files := <[p := []]> (files f); dirs := dirs f |}.
Proof.
  unfold os_OpenFile_excl.
  destruct (fs_exists p f) eqn:Hex; [done|].
  apply fs_exists_false in Hex as [Hnone Hnd].
  destruct (fs_isDir E (filepath_Dir E p) f) eqn:Hdir; [|done].
  apply fs_isDir_true in Hdir as [Hdir _]. cbn.
  destruct (io_fault E (IOOpenExcl p) f); [done|]. by intros [= <-].
Qed.

Lemma OpenFile_excl_parent p f f1 :
  os_OpenFile_excl E p f = Some f1 → files f !! filepath_Dir E p = None.
Proof.
  unfold os_OpenFile_excl.
  destruct (fs_exists p f); [done|].
  destruct (fs_isDir E (filepath_Dir E p) f) eqn:Hdir; [|done].
  apply fs_isDir_true in Hdir as [_ Hdir]. intros _.
  rewrite underFile_false in Hdir. apply Hdir, ancestors_self.
Qed.

Lemma OpenFile_excl_None p f :
  os_OpenFile_excl E p f = None →
  fs_exists p f = true ∨ fs_isDir E (filepath_Dir E p) f = false
  ∨ io_fault E (IOOpenExcl p) f = true.
Proof.
  unfold os_OpenFile_excl.
  destruct (fs_exists p f) eqn:Hex; [by left|].
  destruct (fs_isDir E (filepath_Dir E p) f) eqn:Hdir; cbn.
  - destruct (io_fault E (IOOpenExcl p) f); [by auto|done].
  - auto.
Qed.

(** [os.Remove] on the files: the path is deleted unless the call fails for
    a reason outside the model. *)
Lemma os_Remove_files p f :
  files (os_Remove E p f)
  = if io_fault E (IORemove p) f then files f else delete p (files f).
Proof.
  unfold os_Remove. destruct (io_fault E (IORemove p) f); [done|].
  destruct (bool_decide (is_Some (files f !! p))) eqn:Hp; [done|].
  apply bool_decide_eq_false in Hp. rewrite <-eq_None_not_Some in Hp.
  rewrite delete_id by done. by destruct (_ && _).
Qed.

Lemma os_Remove_dirs p f : dirs (os_Remove E p f) ⊆ dirs f.
Proof.
  unfold os_Remove. destruct (io_fault E (IORemove p) f); [done|].
  destruct (bool_decide (is_Some (files f !! p))); [done|].
  destruct (_ && _); [|done]. cbn. apply subseteq_difference_l. done.
Qed.

Lemma cleanedUp_refl f f' : files f' = files f → cleanedUp E f f'.
Proof. intros H. split; [by rewrite H|done]. Qed.

Lemma cleanedUp_trans f1 f2 f3 :
  cleanedUp E f1 f2 → cleanedUp E f2 f3 → cleanedUp E f1 f3.
Proof.
  intros [Hs1 He1] [Hs2 He2]. split; [by etrans|].
  intros Hr. by rewrite He2, He1.
Qed.

(** Removing a file that the call made. *)
Lemma cleanedUp_created f f1 f2 p data :
  files f !! p = None →
  files f1 = <[p := data]> (files f) →
  cleanedUp E f1 f2 →
  cleanedUp E f (os_Remove E p f2).
Proof.
  intros Hp Hf1 [Hs He]. rewrite Hf1 in Hs, He. split.
  - rewrite os_Remove_files. destruct (io_fault E (IORemove p) f2).
    + etrans; [|exact Hs]. by apply insert_subseteq.
    + apply map_subseteq_spec. intros k v Hk.
      assert (k ≠ p) by (intros ->; congruence).
      rewrite lookup_delete_ne by done.
      eapply lookup_weaken; [|exact Hs]. by rewrite lookup_insert_ne.
  - intros Hr. rewrite os_Remove_files, Hr, (He Hr). by apply delete_insert_id.
Qed.

(** What [writeFile] does, by the failure that stops it. *)
Lemma writeFile_cases path data w :
  let f0 := os_MkdirAll E (filepath_Dir E path) (fs w) in
  let left f1 := {| files := <[path := take (short_write E path data f1) data]> (files f0);
                    dirs := dirs f0 |} in
  let written := {| files := <[path := data]> (files f0); dirs := dirs f0 |} in
  (os_OpenFile_excl E path f0 = None ∧
   writeFile E path data w = (set_fs f0 w, inl (ErrCreatingFile path)))
  ∨ (∃ f1, os_OpenFile_excl E path f0 = Some f1 ∧
       ((io_fault E (IOWrite path) f1 = true ∧
         writeFile E path data w
         = (set_fs (os_Remove E path (left f1)) w, inl (ErrWritingFile path)))
        ∨ (io_fault E (IOWrite path) f1 = false ∧
           io_fault E (IOClose path) written = true ∧
           writeFile E path data w = (set_fs (os_Remove E path written) w, inl ErrCloseFile))
        ∨ (io_fault E (IOWrite path) f1 = false ∧
           io_fault E (IOClose path) written = false ∧
           writeFile E path data w = (set_fs written w, inr tt)))).
Proof.
  intros f0 left written. unfold writeFile. mrun. fold f0.
  destruct (os_OpenFile_excl E path f0) as [f1|] eqn:Hopen; mrun; [|by left].
  right. exists f1. split; [done|].
  apply OpenFile_excl_Some in Hopen as (Hnone & Hnd & Hdir & ->).
  unfold file_Write. cbn [files dirs].
  destruct (io_fault E (IOWrite path) _) eqn:Hw; mrun.
  - left. split; [done|]. unfold left. cbn [files dirs].
    by rewrite insert_insert_eq.
  - right. rewrite insert_insert_eq. fold written.
    destruct (io_fault E (IOClose path) written) eqn:Hc; mrun.
    + left. done.
    + right. done.
Qed.

Lemma writeFile_inv path data w w' r :
  writeFile E path data w = (w', r) →
  ∃ f', w' = set_fs f' w ∧
    match r with
    | inr _ => files (fs w) !! path = None ∧
               files f' = <[path := data]> (files (fs w))
    | inl e =>
      files f' = files (fs w)
      ∨ (¬ removalSucceeds E ∧ files (fs w) !! path = None ∧
         ∃ left, left `prefix_of` data ∧ files f' = <[path := left]> (files (fs w)))
    end.
Proof.
  intros H.
  destruct (writeFile_cases path data w)
    as [[Ho Hr]|(f1 & Ho & [[_ Hr]|[(_ & _ & Hr)|(_ & _ & Hr)]])];
    rewrite Hr in H; injection H as <- <-; eexists; (split; [done|]).
  - left. apply files_MkdirAll.
  - apply OpenFile_excl_Some in Ho as (Hn & _). rewrite files_MkdirAll in Hn.
    rewrite os_Remove_files. cbn [files]. rewrite files_MkdirAll.
    destruct (io_fault E (IORemove path) _) eqn:Hf.
    + right. split; [intros Hr'; by rewrite Hr' in Hf|]. split; [done|].
      eexists. split; [|done]. apply prefix_take.
    + left. by apply delete_insert_id.
  - apply OpenFile_excl_Some in Ho as (Hn & _). rewrite files_MkdirAll in Hn.
    rewrite os_Remove_files. cbn [files]. rewrite files_MkdirAll.
    destruct (io_fault E (IORemove path) _) eqn:Hf.
    + right. split; [intros Hr'; by rewrite Hr' in Hf|]. split; [done|].
      by exists data.
    + left. by apply delete_insert_id.
  - cbn [files]. rewrite files_MkdirAll.
    apply OpenFile_excl_Some in Ho as (Hn & _). by rewrite files_MkdirAll in Hn.
Qed.

(** A failed [writeFile] has cleaned up after itself. *)
Lemma writeFile_failed path data w w' e :
  writeFile E path data w = (w', inl e) →
  ∃ f', w' = set_fs f' w ∧ cleanedUp E (fs w) f'.
Proof.
  intros H. apply writeFile_inv in H as (f' & -> & [Hf|(Hnr & Hnone & left & _ & Hf)]);
    exists f'; (split; [done|]).
  - by apply cleanedUp_refl.
  - split; [|done]. rewrite Hf. by apply insert_subseteq.
Qed.

(** With no failure injected, a free path that is no directory above its
    own, below no regular file, is written. *)
Lemma writeFile_run path data w :
  (∀ c f, io_fault E c f = false) →
  fs_exists path (fs w) = false →
  path ∉ ancestors E (filepath_Dir E path) →
  underFile E (filepath_Dir E path) (fs w) = false →
  writeFile E path data w =
    (set_fs {| files := <[path := data]> (files (fs w));
               dirs := list_to_set (ancestors E (filepath_Dir E path)) ∪ dirs (fs w) |} w,
     inr tt).
Proof.
  intros Hnf Hex Hne Hpar.
  assert (os_MkdirAll E (filepath_Dir E path) (fs w)
          = {| files := files (fs w);
               dirs := list_to_set (ancestors E (filepath_Dir E path)) ∪ dirs (fs w) |}) as Hmk
    by (by apply MkdirAll_made).
  destruct (writeFile_cases path data w)
    as [[Ho Hr]|(f1 & Ho & [[Hw _]|[(_ & Hc & _)|(_ & _ & Hr)]])];
    rewrite ?Hnf in *; try done.
  - exfalso. apply OpenFile_excl_None in Ho as [Hex'|[Hdir|Hio]].
    + rewrite Hmk in Hex'. apply fs_exists_false in Hex as [Hf Hd].
      assert (fs_exists path
                {| files := files (fs w);
                   dirs := list_to_set (ancestors E (filepath_Dir E path)) ∪ dirs (fs w) |}
              = false); [|congruence].
      apply fs_exists_false. cbn [files dirs]. split; [done|].
      rewrite elem_of_union, elem_of_list_to_set. by intros [?|?].
    + rewrite Hmk in Hdir.
      assert (fs_isDir E (filepath_Dir E path)
                {| files := files (fs w);
                   dirs := list_to_set (ancestors E (filepath_Dir E path)) ∪ dirs (fs w) |}
              = true); [|congruence].
      apply fs_isDir_true. cbn [files dirs]. split.
      * rewrite elem_of_union, elem_of_list_to_set. left. apply ancestors_self.
      * exact Hpar.
    + by rewrite Hnf in Hio.
  - rewrite Hr, Hmk. done.
Qed.


(** ** The map store *)

Lemma store_fresh {A} (h : list A) (x y : A) :
  <[length h := x]> (h ++ [y]) = h ++ [x].
Proof.
  rewrite insert_app_r_alt by lia. by rewrite Nat.sub_diag.
Qed.

Lemma lookup_fresh {A} (h : list A) (x : A) : (h ++ [x]) !! length h = Some x.
Proof. by apply list_lookup_middle. Qed.

Lemma domainsAt_new_domains w m :
  domainsAt (set_domainMaps (domainMaps w ++ [m]) w) (length (domainMaps w)) = m.
Proof. unfold domainsAt. cbn. by rewrite lookup_fresh. Qed.

Lemma accountsAt_new_accounts w m :
  accountsAt (set_accountMaps (accountMaps w ++ [m]) w) (length (accountMaps w)) = m.
Proof. unfold accountsAt. cbn. by rewrite lookup_fresh. Qed.

Lemma domainsAt_old w m l :
  l < length (domainMaps w) →
  domainsAt (set_domainMaps (domainMaps w ++ [m]) w) l = domainsAt w l.
Proof. intros. unfold domainsAt. cbn. by rewrite lookup_app_l. Qed.

Lemma accountsAt_old w m l :
  l < length (accountMaps w) →
  accountsAt (set_accountMaps (accountMaps w ++ [m]) w) l = accountsAt w l.
Proof. intros. unfold accountsAt. cbn. by rewrite lookup_app_l. Qed.

Lemma view_withDomains w m la :
  view (withDomains m w) {| config.Domains := length (domainMaps w); config.Accounts := la |}
  = {| sDomains := m; sAccounts := accountsAt w la |}.
Proof.
  unfold view, withDomains. cbn [config.Domains config.Accounts].
  by rewrite domainsAt_new_domains.
Qed.

Lemma view_withAccounts w m ld :
  view (withAccounts m w) {| config.Domains := ld; config.Accounts := length (accountMaps w) |}
  = {| sDomains := domainsAt w ld; sAccounts := m |}.
Proof.
  unfold view, withAccounts. cbn [config.Domains config.Accounts].
  by rewrite accountsAt_new_accounts.
Qed.

Lemma snapshot_withDomains w m : wf w → snapshot (withDomains m w) = snapshot w.
Proof.
  intros [Hd Ha]. unfold snapshot, view, withDomains. cbn [Conf_Dynamic set_domainMaps].
  by rewrite domainsAt_old.
Qed.

Lemma snapshot_withAccounts w m : wf w → snapshot (withAccounts m w) = snapshot w.
Proof.
  intros [Hd Ha]. unfold snapshot, view, withAccounts. cbn [Conf_Dynamic set_accountMaps].
  by rewrite accountsAt_old.
Qed.

Lemma snapshot_set_fs f w : snapshot (set_fs f w) = snapshot w.
Proof. done. Qed.

(** ** Publishing *)

Lemma WriteDynamicLocked_inv c w w' r :
  WriteDynamicLocked E c w = (w', r) →
  (∃ msg, prepareDynamicConfig E (fs w) (view w c) = inl msg ∧
          w' = w ∧ r = inl (ErrConfig msg))
  ∨ (∃ parsed, prepareDynamicConfig E (fs w) (view w c) = inr parsed ∧
               w' = set_published c parsed (view w c) w ∧ r = inr tt).
Proof.
  unfold WriteDynamicLocked.
  destruct (prepareDynamicConfig E (fs w) (view w c)) as [msg|parsed];
    intros [= <- <-]; eauto.
Qed.

Lemma snapshot_published c parsed s w : snapshot (set_published c parsed s w) = view w c.
Proof. done. Qed.

(** ** DomainSave *)

Lemma DomainSave_eq name xm w dom dom' :
  sDomains (snapshot w) !! name = Some dom →
  xm dom = inr dom' →
  DomainSave E name xm w =
    wrap ErrWritingDomainsConf
      (WriteDynamicLocked E {| config.Domains := length (domainMaps w);
                               config.Accounts := config.Accounts (Conf_Dynamic w) |})
      (withDomains (<[name := dom']> (sDomains (snapshot w))) w).
Proof.
  cbn [snapshot view sDomains]. intros Hd Hx. unfold DomainSave. mrun.
  rewrite Hd. mrun. rewrite Hx. mrun.
  unfold withDomains. rewrite domainsAt_new_domains, store_fresh. done.
Qed.

Lemma DomainSave_ok name xm w w' :
  DomainSave E name xm w = (w', inr tt) →
  ∃ dom dom', sDomains (snapshot w) !! name = Some dom ∧ xm dom = inr dom' ∧
    snapshot w' = {| sDomains := <[name := dom']> (sDomains (snapshot w));
                     sAccounts := sAccounts (snapshot w) |} ∧
    fs w' = fs w.
Proof.
  intros H.
  destruct (sDomains (snapshot w) !! name) as [dom|] eqn:Hd.
  2:{ cbn [snapshot view sDomains] in Hd. unfold DomainSave in H. mrun.
      rewrite Hd in H. by mrun. }
  destruct (xm dom) as [e|dom'] eqn:Hx.
  { cbn [snapshot view sDomains] in Hd. unfold DomainSave in H. mrun.
    rewrite Hd in H. mrun. rewrite Hx in H. by mrun. }
  rewrite (DomainSave_eq _ _ _ _ _ Hd Hx) in H. unfold wrap in H.
  destruct (WriteDynamicLocked E _ _) as [w1 [e|[]]] eqn:Hw; [done|].
  injection H as <-.
  apply WriteDynamicLocked_inv in Hw as [(msg & _ & _ & [=])|(parsed & Hp & -> & _)].
  exists dom, dom'. split; [done|]. split; [done|].
  rewrite snapshot_published, view_withDomains. done.
Qed.

Lemma DomainSave_err name xm w w' e :
  wf w →
  DomainSave E name xm w = (w', inl e) →
  snapshot w' = snapshot w ∧ fs w' = fs w.
Proof.
  intros Hwf H.
  destruct (sDomains (snapshot w) !! name) as [dom|] eqn:Hd.
  2:{ cbn [snapshot view sDomains] in Hd. unfold DomainSave in H. mrun.
      rewrite Hd in H. mrun. by injection H as <- <-. }
  destruct (xm dom) as [e'|dom'] eqn:Hx.
  { cbn [snapshot view sDomains] in Hd. unfold DomainSave in H. mrun.
    rewrite Hd in H. mrun. rewrite Hx in H. mrun. by injection H as <- <-. }
  rewrite (DomainSave_eq _ _ _ _ _ Hd Hx) in H. unfold wrap in H.
  destruct (WriteDynamicLocked E _ _) as [w1 [e'|[]]] eqn:Hw; [|done].
  injection H as <- <-.
  apply WriteDynamicLocked_inv in Hw as [(msg & _ & -> & _)|(parsed & Hp & _ & [=])].
  by rewrite snapshot_withDomains.
Qed.

(** ** Aliases *)

(** C9. When [AliasUpdate] succeeds, the alias it names existed, and in the
    published configuration that alias has the three given flags and its old
    member list; every other alias of the domain, every other field of the
    domain, every other domain and every account are as before. *)
Theorem AliasUpdate_frame (addr : smtp.Address) (alias : config.Alias) (w w' : World) :
  AliasUpdate E addr alias w = (w', inr tt) →
  let name := Domain_Name E (smtp.Domain_ addr) in
  let key := aliasKey E addr in
  ∃ d a d' a',
    sDomains (snapshot w) !! name = Some d ∧
    config.Aliases d !! key = Some a ∧
    sDomains (snapshot w') !! name = Some d' ∧
    config.Aliases d' !! key = Some a' ∧
    (* the alias: the three flags are the given ones, the members stay *)
    config.PostPublic a' = config.PostPublic alias ∧
    config.ListMembers a' = config.ListMembers alias ∧
    config.AllowMsgFrom a' = config.AllowMsgFrom alias ∧
    config.Addresses a' = config.Addresses a ∧
    (* every other alias of the domain, and the rest of the domain *)
    (∀ k, k ≠ key → config.Aliases d' !! k = config.Aliases d !! k) ∧
    Domain_with_Aliases d' (config.Aliases d) = d ∧
    (* every other domain, and every account *)
    (∀ n, n ≠ name → sDomains (snapshot w') !! n = sDomains (snapshot w) !! n) ∧
    sAccounts (snapshot w') = sAccounts (snapshot w).
Proof.
  intros H name key. unfold AliasUpdate in H.
  apply DomainSave_ok in H as (d & d' & Hd & Hx & Hs & _).
  fold name key in Hd, Hx, Hs.
  destruct (config.Aliases d !! key) as [a|] eqn:Ha; [|done].
  injection Hx as <-.
  eexists d, a, _, _. rewrite Hs. cbn [sDomains sAccounts].
  split; [done|]. split; [done|].
  split; [apply lookup_insert_eq|]. cbn [config.Aliases Domain_with_Aliases].
  split; [apply lookup_insert_eq|]. cbn.
  split_and!; try done.
  - intros k Hk. by rewrite lookup_insert_ne.
  - by destruct d.
  - intros n Hn. by rewrite lookup_insert_ne.
Qed.

(** C10, as amended.  [AliasAddressesAdd] checks no duplicates: with a list
    that is not empty and an alias that exists it hands to the publish step
    the configuration in which the given addresses are appended to the
    members of the alias, whether or not they are members already.  The call
    succeeds exactly when the publish step accepts that configuration, and
    then publishes it.  It fails, leaving the published configuration as it
    was, only when the list is empty, the domain or the alias does not
    exist, or the publish step refuses the configuration. *)
Theorem AliasAddressesAdd_appends (addr : smtp.Address) (addresses : list string)
    (w : World) :
  wf w →
  let name := Domain_Name E (smtp.Domain_ addr) in
  let key := aliasKey E addr in
  match AliasAddressesAdd E addr addresses w with
  | (w', inr _) =>
    ∃ d alias,
      addresses ≠ [] ∧
      sDomains (snapshot w) !! name = Some d ∧
      config.Aliases d !! key = Some alias ∧
      (∃ parsed, prepareDynamicConfig E (fs w)
                   (withMembersAdded (snapshot w) name key d alias addresses)
                 = inr parsed) ∧
      snapshot w' = withMembersAdded (snapshot w) name key d alias addresses
  | (w', inl e) =>
    snapshot w' = snapshot w ∧
    ((e = ErrAtLeastOneAddress ∧ addresses = [])
     ∨ (e = ErrDomainNotPresent ∧ sDomains (snapshot w) !! name = None)
     ∨ (e = ErrNoSuchAlias ∧
        ∃ d, sDomains (snapshot w) !! name = Some d ∧ config.Aliases d !! key = None)
     ∨ (∃ msg d alias,
          e = ErrWritingDomainsConf (ErrConfig msg) ∧
          sDomains (snapshot w) !! name = Some d ∧
          config.Aliases d !! key = Some alias ∧
          prepareDynamicConfig E (fs w)
            (withMembersAdded (snapshot w) name key d alias addresses)
          = inl msg))
  end.
Proof.
  intros Hwf name key. unfold AliasAddressesAdd. fold name key.
  destruct addresses as [|a0 addresses']; cbn [length bool_decide decide_rel].
  { rewrite bool_decide_eq_true_2 by done. cbn. auto. }
  rewrite bool_decide_eq_false_2 by done.
  set (addresses := a0 :: addresses').
  destruct (sDomains (snapshot w) !! name) as [d|] eqn:Hd.
  2:{ unfold DomainSave. mrun. cbn [snapshot view sDomains] in Hd.
      rewrite Hd. mrun. auto. }
  destruct (config.Aliases d !! key) as [alias|] eqn:Ha.
  2:{ unfold DomainSave. mrun. cbn [snapshot view sDomains] in Hd.
      rewrite Hd. mrun. rewrite Ha. mrun.
      split; [done|]. right. right. left. split; [done|]. by exists d. }
  erewrite DomainSave_eq; [|done|by rewrite Ha].
  unfold wrap, WriteDynamicLocked. rewrite view_withDomains.
  change (fs (withDomains _ w)) with (fs w).
  change {| sDomains := _; sAccounts := accountsAt w _ |}
    with (withMembersAdded (snapshot w) name key d alias addresses).
  destruct (prepareDynamicConfig E (fs w) _) as [msg|parsed] eqn:Hp.
  - split; [by apply snapshot_withDomains|].
    right. right. right. by exists msg, d, alias.
  - exists d, alias. split; [done|]. split; [done|]. split; [done|].
    split; [by exists parsed|]. by rewrite snapshot_published, view_withDomains.
Qed.

(** ** Key generation and key files *)

Lemma MakeDKIMRSAKey_inv selector domain w w' r :
  MakeDKIMRSAKey E selector domain w = (w', r) →
  ∃ n, w' = set_readings n w ∧
    match r with
    | inr data => n = 2 + readings w ∧ isRSA2048KeyFile E data
    | inl _ => True
    end.
Proof.
  unfold MakeDKIMRSAKey, rand_read, dkimKeyNote, time_Now. mrun. intros H.
  destruct (rand_rsa E (readings w)) as [secret|] eqn:Hs; mrun;
    [|simplify_eq; eexists; split; [reflexivity|done]].
  destruct (x509_MarshalPKCS8PrivateKey E _) as [pkcs8|] eqn:Hm; mrun;
    [|simplify_eq; eexists; split; [reflexivity|done]].
  destruct (pem_Encode E _) as [data|] eqn:Hp; mrun; simplify_eq;
    eexists; (split; [reflexivity|]); [|done].
  split; [done|]. exists secret, pkcs8. eauto.
Qed.

Lemma MakeDKIMEd25519Key_inv selector domain w w' r :
  MakeDKIMEd25519Key E selector domain w = (w', r) →
  ∃ n, w' = set_readings n w ∧
    match r with
    | inr data => n = 2 + readings w ∧ isEd25519KeyFile E data
    | inl _ => True
    end.
Proof.
  unfold MakeDKIMEd25519Key, rand_read, dkimKeyNote, time_Now. mrun. intros H.
  destruct (rand_ed25519 E (readings w)) as [secret|] eqn:Hs; mrun;
    [|simplify_eq; eexists; split; [reflexivity|done]].
  destruct (x509_MarshalPKCS8PrivateKey E _) as [pkcs8|] eqn:Hm; mrun;
    [|simplify_eq; eexists; split; [reflexivity|done]].
  destruct (pem_Encode E _) as [data|] eqn:Hp; mrun; simplify_eq;
    eexists; (split; [reflexivity|]); [|done].
  split; [done|]. exists secret, pkcs8. eauto.
Qed.

Lemma generateKey_inv selector domain algorithm w w' r :
  generateKey E selector domain algorithm w = (w', r) →
  ∃ n, w' = set_readings n w ∧
    match r with
    | inr key =>
      n = 2 + readings w ∧
      ((algorithm = "rsa" ∧ key.2 = "rsa2048" ∧ isRSA2048KeyFile E key.1)
       ∨ (algorithm = "ed25519" ∧ key.2 = "ed25519" ∧ isEd25519KeyFile E key.1))
    | inl e => isErrRequest e = true
    end.
Proof.
  unfold generateKey. intros H. mrun.
  destruct (bool_decide (algorithm = "rsa")) eqn:Hrsa.
  - apply bool_decide_eq_true in Hrsa.
    destruct (MakeDKIMRSAKey E selector domain w) as [w1 [e|k]] eqn:Hk;
      apply MakeDKIMRSAKey_inv in Hk as (n & -> & Hk); simplify_eq;
      exists n; (split; [done|]); [done|].
    destruct Hk. split; [done|]. left. done.
  - destruct (bool_decide (algorithm = "ed25519")) eqn:Hed.
    + apply bool_decide_eq_true in Hed.
      destruct (MakeDKIMEd25519Key E selector domain w) as [w1 [e|k]] eqn:Hk;
        apply MakeDKIMEd25519Key_inv in Hk as (n & -> & Hk); simplify_eq;
        exists n; (split; [done|]); [done|].
      destruct Hk. split; [done|]. right. done.
    + injection H as <- <-. exists (readings w). split; [by destruct w|done].
Qed.


(** ** DKIMAdd *)

Lemma DKIMAdd_ok domain selector algorithm hash hr br seal headers lifetime w w' :
  DKIMAdd E domain selector algorithm hash hr br seal headers lifetime w = (w', inr tt) →
  ∃ kind data d,
    ((algorithm = "rsa" ∧ kind = "rsa2048" ∧ isRSA2048KeyFile E data)
     ∨ (algorithm = "ed25519" ∧ kind = "ed25519" ∧ isEd25519KeyFile E data)) ∧
    sDomains (snapshot w) !! Domain_Name E domain = Some d ∧
    config.Selectors (config.DKIM_ d) !! Domain_Name E selector = None ∧
    let timestamp := fmt_20060102T150405 (clock E (2 + readings w)) in
    let keyPath := dkimKeyPath E (dns.ASCII selector) (dns.ASCII domain) timestamp kind in
    let p := ConfigDynamicDirPath E keyPath in
    files (fs w) !! p = None ∧
    files (fs w') = <[p := data]> (files (fs w)) ∧
    snapshot w' =
      {| sDomains :=
           <[Domain_Name E domain :=
               withSelector d (Domain_Name E selector)
                 (newSelector E hash hr br seal headers lifetime keyPath)]>
             (sDomains (snapshot w));
         sAccounts := sAccounts (snapshot w) |}.
Proof.
  unfold DKIMAdd. intros H.
  destruct (negb _); [done|].
  change (wrap ErrMakingDKIMKey _) with (generateKey E selector domain algorithm) in H.
  unfold bind at 1 in H.
  destruct (generateKey E selector domain algorithm w) as [w1 [e|[privKey kind]]] eqn:Hk;
    [done|].
  apply generateKey_inv in Hk as (n & -> & -> & Hk). cbn [fst snd] in *.
  mrun. change (domainsAt (set_readings _ w)) with (domainsAt w) in H.
  destruct (domainsAt w (config.Domains (Conf_Dynamic w)) !! Domain_Name E domain)
    as [d|] eqn:Hd; mrun; [|done].
  destruct (bool_decide (is_Some _)) eqn:Hsel; mrun; [done|].
  apply bool_decide_eq_false in Hsel. rewrite <-eq_None_not_Some in Hsel.
  unfold time_Now in H. mrun.
  match type of H with context [writeFile E ?p ?data ?w0] =>
    destruct (writeFile E p data w0) as [w2 [e|[]]] eqn:Hw; [done|];
    apply writeFile_inv in Hw as (f' & -> & Hnone & Hfiles)
  end. mrun.
  match type of H with context [WriteDynamicLocked E ?c ?w0] =>
    destruct (WriteDynamicLocked E c w0) as [w3 [e|[]]] eqn:Hp; [done|];
    apply WriteDynamicLocked_inv in Hp as [(? & _ & _ & [=])|(parsed & _ & -> & _)]
  end.
  injection H as <-.
  exists kind, privKey, d. split; [done|]. split; [done|]. split; [done|].
  cbv zeta. split; [done|]. split; [done|].
  rewrite snapshot_published. unfold view. cbn [config.Domains config.Accounts].
  f_equal. unfold domainsAt. mrun.
  rewrite list_lookup_insert_eq by (rewrite length_app; cbn; lia).
  cbn [default]. by rewrite lookup_fresh.
Qed.


(** ** MakeDomainConfig *)

Lemma set_fs_readings_id w : w = set_fs (fs w) (set_readings (readings w) w).
Proof. by destruct w. Qed.

Lemma addRSA_inv domain timestamp name st w w' r :
  addRSA E domain timestamp name st w = (w', r) →
  ∃ f' n, w' = set_fs f' (set_readings n w) ∧
    match r with
    | inr st' =>
      n = 2 + readings w ∧
      ∃ data, isRSA2048KeyFile E data ∧
        let keyPath := dkimKeyPath E name (dns.ASCII domain) timestamp "rsa2048" in
        let p := ConfigDynamicDirPath E keyPath in
        files (fs w) !! p = None ∧
        files f' = <[p := data]> (files (fs w)) ∧
        st' = (st.1 ++ [p], <[name := defaultSelector keyPath]> st.2)
    | inl e => cleanedUp E (fs w) f'
    end.
Proof.
  unfold addRSA, addSelector. intros H. unfold bind at 1 in H. unfold wrap in H.
  destruct (MakeDKIMRSAKey E _ domain w) as [w1 [e|key]] eqn:Hk;
    apply MakeDKIMRSAKey_inv in Hk as (n & -> & Hk).
  { injection H as <- <-. exists (fs w), n. split; [done|]. by apply cleanedUp_refl. }
  destruct Hk as [-> Hkey]. unfold bind at 1 in H.
  match type of H with context [writeFile E ?p ?data ?w0] =>
    destruct (writeFile E p data w0) as [w2 [e|[]]] eqn:Hw;
    [apply writeFile_failed in Hw as (f' & -> & Hf)
    |apply writeFile_inv in Hw as (f' & -> & Hf)]
  end; mrun; injection H as <- <-; eexists f', _; (split; [reflexivity|]).
  - done.
  - split; [done|]. exists key. destruct Hf. done.
Qed.

Lemma MakeDomainConfig_inv domain hostname accountName withMTASTS w w' r :
  MakeDomainConfig E domain hostname accountName withMTASTS w = (w', r) →
  ∃ f' n, w' = set_fs f' (set_readings n w) ∧
    match r with
    | inr made =>
      let now := clock E (readings w) in
      let year := fmt_2006 now in
      let keyPath name :=
        dkimKeyPath E name (dns.ASCII domain) (fmt_20060102T150405 now) "rsa2048" in
      let pa := ConfigDynamicDirPath E (keyPath (year +:+ "a")) in
      let pb := ConfigDynamicDirPath E (keyPath (year +:+ "b")) in
      ∃ dataA dataB,
        isRSA2048KeyFile E dataA ∧ isRSA2048KeyFile E dataB ∧
        files (fs w) !! pa = None ∧
        <[pa := dataA]> (files (fs w)) !! pb = None ∧
        files f' = <[pb := dataB]> (<[pa := dataA]> (files (fs w))) ∧
        made.2 = [pa; pb] ∧
        config.DKIM_ made.1 =
          {| config.Selectors :=
               <[year +:+ "b" := defaultSelector (keyPath (year +:+ "b"))]>
                 (<[year +:+ "a" := defaultSelector (keyPath (year +:+ "a"))]> ∅);
             config.Sign := [year +:+ "a"] |} ∧
        config.Aliases made.1 = ∅
    | inl e => cleanedUp E (fs w) f'
    end.
Proof.
  unfold MakeDomainConfig, time_Now. intros H. mrun.
  match type of H with context [addRSA E ?d ?t ?nm ?st ?w0] =>
    destruct (addRSA E d t nm st w0) as [w1 [e|st1]] eqn:Ha;
    apply addRSA_inv in Ha as (f1 & n1 & -> & Ha)
  end; mrun.
  { unfold remove_paths in H. mrun. cbn [foldl] in H. injection H as <- <-.
    by eexists f1, _. }
  destruct Ha as (-> & dataA & HkA & HnA & HfA & ->). cbn [fst snd] in H.
  match type of H with context [addRSA E ?d ?t ?nm ?st ?w0] =>
    destruct (addRSA E d t nm st w0) as [w2 [e|st2]] eqn:Hb;
    apply addRSA_inv in Hb as (f2 & n2 & -> & Hb)
  end; mrun.
  { unfold remove_paths in H. mrun. cbn [foldl app] in H. injection H as <- <-.
    eexists _, _. split; [reflexivity|].
    by apply (cleanedUp_created (fs w) f1 f2 _ dataA). }
  destruct Hb as (-> & dataB & HkB & HnB & HfB & ->). cbn [fst snd] in H.
  rewrite HfA in HnB, HfB.
  destruct withMTASTS; unfold remove_paths in H; mrun; cbn [foldl] in H;
    injection H as <- <-; eexists _, _; (split; [reflexivity|]);
    exists dataA, dataB; cbn [fst snd config.DKIM_ config.Aliases app]; done.
Qed.


(** C6, as amended.  The key file [DKIMAdd] creates, and the two key files
    [MakeDomainConfig] creates, are the only files they add.  Each is at the
    configuration-relative path
    dkim/<selector>._domainkey.<domain>.<timestamp>.<tag>.privatekey.pkcs8.pem,
    where <tag> is rsa2048 or ed25519 and <timestamp> is the time of
    generation in the layout 20060102T150405, and that relative path is the
    selector's [PrivateKeyFile]. *)
Theorem dkim_key_file_names :
  (∀ domain selector algorithm hash hr br seal headers lifetime w w',
     DKIMAdd E domain selector algorithm hash hr br seal headers lifetime w = (w', inr tt) →
     ∃ tag data,
       ((algorithm = "rsa" ∧ tag = "rsa2048") ∨ (algorithm = "ed25519" ∧ tag = "ed25519")) ∧
       let timestamp := fmt_20060102T150405 (clock E (2 + readings w)) in
       let keyPath :=
         filepath_Join E
           ["dkim"; (dns.ASCII selector +:+ "._domainkey." +:+ dns.ASCII domain)
                    +:+ "." +:+ timestamp +:+ "." +:+ tag +:+ ".privatekey.pkcs8.pem"] in
       files (fs w) !! ConfigDynamicDirPath E keyPath = None ∧
       files (fs w') = <[ConfigDynamicDirPath E keyPath := data]> (files (fs w)) ∧
       ∃ d sel,
         sDomains (snapshot w') !! Domain_Name E domain = Some d ∧
         config.Selectors (config.DKIM_ d) !! Domain_Name E selector = Some sel ∧
         config.PrivateKeyFile sel = keyPath)
  ∧
  (∀ domain hostname accountName withMTASTS w w' conf paths,
     MakeDomainConfig E domain hostname accountName withMTASTS w = (w', inr (conf, paths)) →
     let year := fmt_2006 (clock E (readings w)) in
     let timestamp := fmt_20060102T150405 (clock E (readings w)) in
     let keyPath (selector : string) :=
       filepath_Join E
         ["dkim"; (selector +:+ "._domainkey." +:+ dns.ASCII domain)
                  +:+ "." +:+ timestamp +:+ "." +:+ "rsa2048" +:+ ".privatekey.pkcs8.pem"] in
     ∃ dataA dataB,
       files (fs w') =
         <[ConfigDynamicDirPath E (keyPath (year +:+ "b")) := dataB]>
           (<[ConfigDynamicDirPath E (keyPath (year +:+ "a")) := dataA]> (files (fs w))) ∧
       paths = [ConfigDynamicDirPath E (keyPath (year +:+ "a"));
                ConfigDynamicDirPath E (keyPath (year +:+ "b"))] ∧
       config.PrivateKeyFile <$> config.Selectors (config.DKIM_ conf)
       = <[year +:+ "b" := keyPath (year +:+ "b")]>
           (<[year +:+ "a" := keyPath (year +:+ "a")]> ∅)).
Proof.
  split.
  - intros * H.
    apply DKIMAdd_ok in H as (kind & data & d & Hk & Hd & Hsel & Hnone & Hf & Hs).
    exists kind, data.
    split; [destruct Hk as [(? & ? & _)|(? & ? & _)]; auto|]. cbv zeta.
    split; [done|]. split; [done|].
    eexists _, _. rewrite Hs. cbn [sDomains].
    split; [apply lookup_insert_eq|]. cbn.
    split; [apply lookup_insert_eq|]. done.
  - intros * H.
    apply MakeDomainConfig_inv in H as (f' & n & -> & H). cbv zeta in H.
    destruct H as (dataA & dataB & _ & _ & _ & _ & Hf & Hp & Hdkim & _).
    cbn [fst snd] in *. exists dataA, dataB. cbn [fs set_fs].
    split; [done|]. split; [done|].
    rewrite Hdkim. cbn [config.Selectors].
    by rewrite !fmap_insert, fmap_empty.
Qed.

(** ** DomainAdd *)

Lemma DomainAdd_present disabled domain accountName localpart w :
  is_Some (sDomains (snapshot w) !! Domain_Name E domain) →
  DomainAdd E disabled domain accountName localpart w = (w, inl ErrDomainPresent).
Proof.
  intros H. unfold DomainAdd. mrun.
  cbn [snapshot view sDomains] in H. by rewrite bool_decide_eq_true_2.
Qed.

(** Every way [DomainAdd] returns for a domain that is not present. *)
Lemma DomainAdd_inv disabled domain accountName localpart w w' r :
  wf w →
  sDomains (snapshot w) !! Domain_Name E domain = None →
  DomainAdd E disabled domain accountName localpart w = (w', r) →
  let accs := sAccounts (snapshot w) in
  (* preparing the keys failed *)
  (∃ c, r = inl (ErrPreparingDomainConfig c) ∧
        cleanedUp E (fs w) (fs w') ∧ snapshot w' = snapshot w)
  ∨ (∃ made dataA dataB,
      let now := clock E (readings w) in
      let year := fmt_2006 now in
      let keyPath name :=
        dkimKeyPath E name (dns.ASCII domain) (fmt_20060102T150405 now) "rsa2048" in
      let pa := ConfigDynamicDirPath E (keyPath (year +:+ "a")) in
      let pb := ConfigDynamicDirPath E (keyPath (year +:+ "b")) in
      isRSA2048KeyFile E dataA ∧ isRSA2048KeyFile E dataB ∧
      files (fs w) !! pa = None ∧
      <[pa := dataA]> (files (fs w)) !! pb = None ∧
      config.DKIM_ made =
        {| config.Selectors :=
             <[year +:+ "b" := defaultSelector (keyPath (year +:+ "b"))]>
               (<[year +:+ "a" := defaultSelector (keyPath (year +:+ "a"))]> ∅);
           config.Sign := [year +:+ "a"] |} ∧
      config.Aliases made = ∅ ∧
      ((* a check on the account refused *)
       ((r = inl ErrAccountExists ∧ is_Some (accs !! accountName) ∧ localpart ≠ ""
         ∨ r = inl ErrAccountNotYetExist ∧ accs !! accountName = None ∧ localpart = ""
         ∨ r = inl ErrAccountNameEmpty ∧ accountName = "") ∧
        cleanedUp E (fs w) (fs w') ∧ snapshot w' = snapshot w)
       ∨ ((* the publish step was reached *)
          accountName ≠ "" ∧
          (accs !! accountName = None ↔ localpart ≠ "") ∧
          let nc := {| sDomains := <[Domain_Name E domain :=
                                       Domain_with_Disabled made disabled]>
                                     (sDomains (snapshot w));
                       sAccounts := accountsForDomain E accs domain accountName localpart |} in
          ((∃ msg, r = inl (ErrWritingDomainsConf (ErrConfig msg)) ∧
                   cleanedUp E (fs w) (fs w') ∧
                   sDomains (snapshot w') = sDomains (snapshot w) ∧
                   sAccounts (snapshot w') = sAccounts nc ∧
                   domainsConf w' = domainsConf w)
           ∨ (r = inr tt ∧
              files (fs w') = <[pb := dataB]> (<[pa := dataA]> (files (fs w))) ∧
              snapshot w' = nc))))).
Proof.
  intros [Hwd Hwa] Hnone. unfold DomainAdd. intros H. mrun.
  cbn [snapshot view sDomains] in Hnone.
  rewrite bool_decide_eq_false_2 in H by (rewrite Hnone; by intros [? ?]).
  match type of H with context [MakeDomainConfig E ?d ?h ?a ?m ?w0] =>
    destruct (MakeDomainConfig E d h a m w0) as [w1 [e|made]] eqn:Hm;
    apply MakeDomainConfig_inv in Hm as (f1 & n1 & -> & Hm)
  end; mrun.
  { injection H as <- <-. left. eexists. split; [done|]. split; [done|].
    unfold snapshot, view, domainsAt, accountsAt. mrun.
    by rewrite lookup_app_l. }
  right. cbv zeta in Hm.
  destruct Hm as (dataA & dataB & HkA & HkB & HnA & HnB & Hf & Hpaths & Hdkim & Hal).
  exists made.1, dataA, dataB. cbv zeta.
  split; [done|]. split; [done|]. split; [done|]. split; [done|]. split; [done|].
  split; [done|].
  match type of Hpaths with _ = [?a; ?b] => set (pa := a) in *; set (pb := b) in * end.
  assert (pa ≠ pb) as Hne.
  { intros Heq. rewrite Heq, lookup_insert_eq in HnB. done. }
  rewrite lookup_insert_ne in HnB by done.
  assert (cleanedUp E (fs w) (foldl (λ f p, os_Remove E p f) f1 made.2)) as Hclean.
  { rewrite Hpaths. cbn [foldl].
    apply (cleanedUp_created (fs w)
             {| files := <[pb := dataB]> (files (fs w)); dirs := dirs f1 |} _ pb dataB);
      [done|done|].
    apply (cleanedUp_created _ f1 f1 pa dataA).
    - cbn [files]. by rewrite lookup_insert_ne.
    - rewrite Hf. cbn [files]. by apply insert_insert_ne.
    - by apply cleanedUp_refl. }
  unfold snapshot, view, accountsForDomain. cbn [sDomains sAccounts].
  unfold accountsAt, domainsAt in *. mrun.
  destruct (accountMaps w !! config.Accounts (Conf_Dynamic w)) as [accs0|] eqn:Haccs.
  2:{ apply lookup_ge_None in Haccs. lia. }
  mrun.
  rewrite ?lookup_app_l by done.
  destruct (accs0 !! accountName) as [acc|] eqn:Hacc.
  - rewrite (bool_decide_eq_true_2 (is_Some (Some acc))) in H by done.
    cbn [negb andb] in H.
    destruct (bool_decide (localpart = "")) eqn:Hlp; cbn [negb] in H.
    2:{ apply bool_decide_eq_false in Hlp. mrun. injection H as <- <-.
        left. split; [left; split_and!; done|].
        split; [exact Hclean|]. mrun. rewrite Haccs, lookup_app_l by done. done. }
    apply bool_decide_eq_true in Hlp.
    destruct (bool_decide (accountName = "")) eqn:Hname.
    { apply bool_decide_eq_true in Hname. mrun. injection H as <- <-.
      left. split; [right; right; done|].
      split; [exact Hclean|]. mrun. rewrite Haccs, lookup_app_l by done. done. }
    apply bool_decide_eq_false in Hname.
    right. split; [done|]. split; [split; [done|by intros ?]|].
    destruct (bool_decide (accountName = config.Postmaster_Account (Conf_Static E)))
      eqn:Hpm; cbn [negb] in H; mrun.
    + rewrite store_fresh in H. rewrite lookup_fresh in H. mrun.
      match type of H with context [WriteDynamicLocked E ?c ?w0] =>
        destruct (WriteDynamicLocked E c w0) as [w3 [e|[]]] eqn:Hp;
        apply WriteDynamicLocked_inv in Hp as [(msg & _ & -> & Hr)|(parsed & _ & -> & Hr)];
        try discriminate Hr
      end; mrun; injection H as <- <-.
      * left. injection Hr as ->. exists msg. split; [done|]. split; [exact Hclean|]. mrun.
        rewrite Haccs, lookup_app_l by done. done.
      * right. split; [done|]. split; [done|]. unfold view, domainsAt, accountsAt. mrun.
        by rewrite lookup_fresh, Haccs.
    + rewrite store_fresh in H. rewrite lookup_fresh in H. mrun.
      rewrite Haccs in H. mrun. rewrite Hacc in H. mrun.
      match type of H with context [WriteDynamicLocked E ?c ?w0] =>
        destruct (WriteDynamicLocked E c w0) as [w3 [e|[]]] eqn:Hp;
        apply WriteDynamicLocked_inv in Hp as [(msg & _ & -> & Hr)|(parsed & _ & -> & Hr)];
        try discriminate Hr
      end; mrun; injection H as <- <-.
      * left. injection Hr as ->. exists msg. split; [done|]. split; [exact Hclean|]. mrun.
        rewrite list_lookup_insert_eq, lookup_app_l by done. done.
      * right. split; [done|]. split; [done|]. unfold view, domainsAt, accountsAt. mrun.
        by rewrite lookup_fresh, list_lookup_insert_eq.
  - rewrite (bool_decide_eq_false_2 (is_Some None)) in H by (by intros [? ?]).
    cbn [negb andb] in H.
    destruct (bool_decide (localpart = "")) eqn:Hlp; cbn [negb] in H.
    { apply bool_decide_eq_true in Hlp. mrun. injection H as <- <-.
      left. split; [right; left; done|].
      split; [exact Hclean|]. mrun. rewrite Haccs, lookup_app_l by done. done. }
    apply bool_decide_eq_false in Hlp.
    destruct (bool_decide (accountName = "")) eqn:Hname.
    { apply bool_decide_eq_true in Hname. mrun. injection H as <- <-.
      left. split; [right; right; done|].
      split; [exact Hclean|]. mrun. rewrite Haccs, lookup_app_l by done. done. }
    apply bool_decide_eq_false in Hname.
    right. split; [done|]. split; [done|]. mrun.
    rewrite store_fresh in H. rewrite lookup_fresh in H. mrun.
    rewrite Haccs in H. mrun.
    match type of H with context [WriteDynamicLocked E ?c ?w0] =>
      destruct (WriteDynamicLocked E c w0) as [w3 [e|[]]] eqn:Hp;
      apply WriteDynamicLocked_inv in Hp as [(msg & _ & -> & Hr)|(parsed & _ & -> & Hr)];
      try discriminate Hr
    end; mrun; injection H as <- <-.
    * left. injection Hr as ->. exists msg. split; [done|]. split; [exact Hclean|]. mrun.
      rewrite list_lookup_insert_eq, lookup_app_l by done. done.
    * right. split; [done|]. split; [done|]. unfold view, domainsAt, accountsAt. mrun.
      by rewrite lookup_fresh, list_lookup_insert_eq.
Qed.



Lemma append_a_b_ne (s : string) : s +:+ "a" ≠ s +:+ "b".
Proof. induction s as [|c s IH]; cbn; [done|]. intros [=]. done. Qed.


(** ** Retiring key files *)

Lemma elem_of_gatherUsedKeysPaths doms x :
  x ∈ gatherUsedKeysPaths E doms ↔
  ∃ name dc sname s,
    doms !! name = Some dc ∧
    config.Selectors (config.DKIM_ dc) !! sname = Some s ∧
    filepath_Clean E (config.PrivateKeyFile s) = x.
Proof.
  unfold gatherUsedKeysPaths. rewrite elem_of_list_to_set, list_elem_of_bind. split.
  - intros (dc & Hx & Hdc).
    apply list_elem_of_fmap in Hdc as ([name dc'] & -> & Hdc).
    apply elem_of_map_to_list in Hdc.
    apply list_elem_of_bind in Hx as (s & Hx & Hs).
    apply list_elem_of_fmap in Hs as ([sname s'] & -> & Hs).
    apply elem_of_map_to_list in Hs.
    apply list_elem_of_singleton in Hx. cbn in *. eauto 10.
  - intros (name & dc & sname & s & Hdc & Hs & <-).
    exists dc. split.
    + apply list_elem_of_bind. exists s. split; [apply list_elem_of_singleton; done|].
      apply list_elem_of_fmap. exists (sname, s). split; [done|].
      by apply elem_of_map_to_list.
    + apply list_elem_of_fmap. exists (name, dc). split; [done|].
      by apply elem_of_map_to_list.
Qed.

Lemma used_referencedIn doms sel :
  filepath_Clean E (config.PrivateKeyFile sel) ∈ gatherUsedKeysPaths E doms
  ↔ referencedIn E doms sel.
Proof. apply elem_of_gatherUsedKeysPaths. Qed.

Lemma moveAwayKey_skip used t st :
  config.PrivateKeyFile t = "" ∨ filepath_Clean E (config.PrivateKeyFile t) ∈ used →
  moveAwayKey E used t st = st.
Proof.
  intros H. unfold moveAwayKey.
  destruct (bool_decide (config.PrivateKeyFile t = "")) eqn:H1; [done|].
  destruct (bool_decide (_ ∈ used)) eqn:H2; [done|].
  apply bool_decide_eq_false in H1, H2. by destruct H.
Qed.

(** One turn of the loop either leaves the files alone or renames the
    source of its selector to its destination; it only adds to the
    directories and to the log. *)
Lemma moveAwayKey_effect used t st :
  let st' := moveAwayKey E used t st in
  (∃ l, st'.2 = st.2 ++ l) ∧
  dirs st.1 ⊆ dirs st'.1 ∧
  dirs st'.1 ⊆ list_to_set (ancestors E (filepath_Dir E (keyDestination E t))) ∪ dirs st.1 ∧
  (files st'.1 = files st.1
   ∨ ∃ d, files st.1 !! keySource E t = Some d ∧
          files st'.1 = <[keyDestination E t := d]> (delete (keySource E t) (files st.1))).
Proof.
  unfold moveAwayKey. fold (keySource E t) (keyDestination E t).
  destruct (_ || _).
  { cbn. split; [by exists []; rewrite app_nil_r|]. split; [done|].
    split; [apply union_subseteq_r|by left]. }
  destruct (os_Stat E _ _).
  - cbn. split; [by eexists|]. split; [done|]. split; [apply union_subseteq_r|by left].
  - destruct (dirs_MkdirAll (filepath_Dir E (keyDestination E t)) st.1) as [Hd1 Hd2].
    destruct (os_Rename E _ _ _) as [f2|] eqn:Hr; cbn.
    + unfold os_Rename in Hr. destruct (io_fault E _ _); [done|].
      rewrite files_MkdirAll in Hr.
      destruct (files st.1 !! keySource E t) as [d|] eqn:Hsrc; [|done].
      destruct (fs_isDir E _ _); [|done]. injection Hr as <-. cbn.
      split; [by exists []; rewrite app_nil_r|]. split; [done|]. split; [done|].
      right. exists d. by rewrite ?files_MkdirAll.
    + split; [by eexists|]. split; [done|]. split; [done|].
      left. apply files_MkdirAll.
  - cbn. split; [by eexists|]. split; [done|]. split; [apply union_subseteq_r|by left].
Qed.

(** A path that is neither source nor destination of the selector of a turn
    holds after the turn what it held before. *)
Lemma moveAwayKey_other used t st k :
  keySource E t ≠ k → keyDestination E t ≠ k →
  files (moveAwayKey E used t st).1 !! k = files st.1 !! k.
Proof.
  intros Hs Hd.
  destruct (moveAwayKey_effect used t st) as (_ & _ & _ & [->|(d & _ & ->)]); [done|].
  by rewrite lookup_insert_ne, lookup_delete_ne.
Qed.

(** A path that holds no file holds none after the turn, unless it is the
    destination of the selector of the turn. *)
Lemma moveAwayKey_none used t st k :
  keyDestination E t ≠ k →
  files st.1 !! k = None →
  files (moveAwayKey E used t st).1 !! k = None.
Proof.
  intros Hd Hk.
  destruct (moveAwayKey_effect used t st) as (_ & _ & _ & [->|(d & _ & ->)]); [done|].
  rewrite lookup_insert_ne by done.
  destruct (decide (keySource E t = k)) as [->|Hs].
  - apply lookup_delete_eq.
  - by rewrite lookup_delete_ne.
Qed.

Lemma moveAwayKey_underFile used t st d :
  keyDestination E t ∉ ancestors E d →
  underFile E d st.1 = false →
  underFile E d (moveAwayKey E used t st).1 = false.
Proof.
  rewrite !underFile_false. intros Hd H a Ha.
  apply moveAwayKey_none; [|by apply H]. intros <-. done.
Qed.

Lemma moveAwayKey_exists_other used t st k :
  keySource E t ≠ k → keyDestination E t ≠ k →
  k ∉ ancestors E (filepath_Dir E (keyDestination E t)) →
  fs_exists k (moveAwayKey E used t st).1 = fs_exists k st.1.
Proof.
  intros Hs Hd Hdir. unfold fs_exists.
  rewrite (moveAwayKey_other used t st k) by done. f_equal.
  destruct (moveAwayKey_effect used t st) as (_ & Hd1 & Hd2 & _).
  apply bool_decide_ext. split; [|by apply Hd1].
  intros Hk. apply Hd2 in Hk. apply elem_of_union in Hk as [Hk|Hk]; [|done].
  apply elem_of_list_to_set in Hk. done.
Qed.

(** The turn of a selector that is not referenced, with no failure
    injected. *)
Lemma moveAwayKey_refused used t st :
  (∀ c f, io_fault E c f = false) →
  config.PrivateKeyFile t ≠ "" →
  filepath_Clean E (config.PrivateKeyFile t) ∉ used →
  fs_exists (keyDestination E t) st.1 = true →
  moveAwayKey E used t st
  = (st.1, st.2 ++ [LogRenamingKey DestinationExists (keySource E t) (keyDestination E t)]).
Proof.
  intros Hnf Hp Hu Hex. unfold moveAwayKey.
  fold (keySource E t) (keyDestination E t).
  rewrite bool_decide_eq_false_2, bool_decide_eq_false_2 by done. cbn [orb].
  unfold os_Stat. by rewrite Hnf, Hex.
Qed.

Lemma moveAwayKey_moved used t st data :
  (∀ c f, io_fault E c f = false) →
  config.PrivateKeyFile t ≠ "" →
  filepath_Clean E (config.PrivateKeyFile t) ∉ used →
  fs_exists (keyDestination E t) st.1 = false →
  underFile E (filepath_Dir E (keyDestination E t)) st.1 = false →
  files st.1 !! keySource E t = Some data →
  files (moveAwayKey E used t st).1
  = <[keyDestination E t := data]> (delete (keySource E t) (files st.1)).
Proof.
  intros Hnf Hp Hu Hex Hpar Hsrc. unfold moveAwayKey.
  fold (keySource E t) (keyDestination E t).
  rewrite bool_decide_eq_false_2, bool_decide_eq_false_2 by done. cbn [orb].
  unfold os_Stat. rewrite Hnf, Hex.
  rewrite MkdirAll_made by done.
  unfold os_Rename. rewrite Hnf. cbn [files dirs]. rewrite Hsrc.
  assert (fs_isDir E (filepath_Dir E (keyDestination E t))
            {| files := files st.1;
               dirs := list_to_set (ancestors E (filepath_Dir E (keyDestination E t)))
                       ∪ dirs st.1 |} = true) as ->;
    [|done].
  apply fs_isDir_true. cbn [files dirs]. split.
  - apply elem_of_union_l, elem_of_list_to_set, ancestors_self.
  - done.
Qed.

Lemma apart_cons t sels sel : apart E (t :: sels) sel → apart E sels sel.
Proof. intros H t' Ht'. apply H. by right. Qed.

Lemma moveAwayKeysOver_cons used t sels st :
  moveAwayKeysOver E (t :: sels) used st
  = moveAwayKeysOver E sels used (moveAwayKey E used t st).
Proof. done. Qed.

Lemma moveAwayKeysOver_log used sels st :
  ∃ l, (moveAwayKeysOver E sels used st).2 = st.2 ++ l.
Proof.
  revert st. induction sels as [|t sels IH]; intros st.
  - exists []. by rewrite app_nil_r.
  - rewrite moveAwayKeysOver_cons. destruct (IH (moveAwayKey E used t st)) as [l ->].
    destruct (moveAwayKey_effect used t st) as [[l' ->] _].
    exists (l' ++ l). by rewrite app_assoc.
Qed.

(** Still referenced: the file stays. *)
Lemma moveAwayKeysOver_referenced used sels sel data st :
  filepath_Clean E (config.PrivateKeyFile sel) ∈ used →
  apart E sels sel →
  files st.1 !! keySource E sel = Some data →
  files (moveAwayKeysOver E sels used st).1 !! keySource E sel = Some data.
Proof.
  intros Hused. revert st. induction sels as [|t sels IH]; intros st Hap Hsrc; [done|].
  rewrite moveAwayKeysOver_cons. apply IH; [by eapply apart_cons|].
  destruct (decide (config.PrivateKeyFile t = config.PrivateKeyFile sel)) as [Heq|Hne].
  - rewrite moveAwayKey_skip; [done|]. right. by rewrite Heq.
  - destruct (Hap t) as (? & ? & _); [by left|done|].
    by rewrite moveAwayKey_other.
Qed.

(** Not referenced, and the destination exists: refused and logged. *)
Lemma moveAwayKeysOver_refused used sels sel data v st :
  (∀ c f, io_fault E c f = false) →
  config.PrivateKeyFile sel ≠ "" →
  filepath_Clean E (config.PrivateKeyFile sel) ∉ used →
  apart E sels sel →
  files st.1 !! keySource E sel = Some data →
  files st.1 !! keyDestination E sel = v →
  fs_exists (keyDestination E sel) st.1 = true →
  let entry := LogRenamingKey DestinationExists (keySource E sel) (keyDestination E sel) in
  sel ∈ sels ∨ entry ∈ st.2 →
  let st' := moveAwayKeysOver E sels used st in
  files st'.1 !! keySource E sel = Some data ∧
  files st'.1 !! keyDestination E sel = v ∧
  entry ∈ st'.2.
Proof.
  intros Hnf Hp Hu. revert st.
  induction sels as [|t sels IH]; intros st Hap Hsrc Hdst Hex entry Hin.
  { cbn. destruct Hin as [Hin|Hin]; [by apply elem_of_nil in Hin|done]. }
  cbv zeta. rewrite moveAwayKeysOver_cons. apply IH; [by eapply apart_cons|..].
  - destruct (decide (config.PrivateKeyFile t = config.PrivateKeyFile sel)) as [Heq|Hne].
    + rewrite moveAwayKey_refused; try done; unfold keyDestination; by rewrite Heq.
    + destruct (Hap t) as (? & ? & _); [by left|done|]. by rewrite moveAwayKey_other.
  - destruct (decide (config.PrivateKeyFile t = config.PrivateKeyFile sel)) as [Heq|Hne].
    + rewrite moveAwayKey_refused; try done; unfold keyDestination; by rewrite Heq.
    + destruct (Hap t) as (? & ? & ? & ? & _); [by left|done|].
      by rewrite moveAwayKey_other.
  - destruct (decide (config.PrivateKeyFile t = config.PrivateKeyFile sel)) as [Heq|Hne].
    + rewrite moveAwayKey_refused; try done; unfold keyDestination; by rewrite Heq.
    + destruct (Hap t) as (? & ? & ? & ? & ? & ?); [by left|done|].
      by rewrite moveAwayKey_exists_other.
  - destruct (decide (config.PrivateKeyFile t = config.PrivateKeyFile sel)) as [Heq|Hne].
    + right. rewrite moveAwayKey_refused; try done;
        [|unfold keyDestination; by rewrite Heq..].
      cbn [snd]. apply elem_of_app. right. apply list_elem_of_singleton.
      unfold entry, keySource, keyDestination. by rewrite Heq.
    + destruct Hin as [Hin|Hin].
      * left. apply elem_of_cons in Hin as [->|Hin]; done.
      * right. destruct (moveAwayKey_effect used t st) as [[l ->] _].
        apply elem_of_app. by left.
Qed.

(** Not referenced, and already moved: stays moved. *)
Lemma moveAwayKeysOver_stays_moved used sels sel data st :
  (∀ c f, io_fault E c f = false) →
  config.PrivateKeyFile sel ≠ "" →
  filepath_Clean E (config.PrivateKeyFile sel) ∉ used →
  apart E sels sel →
  files st.1 !! keySource E sel = None →
  files st.1 !! keyDestination E sel = Some data →
  let st' := moveAwayKeysOver E sels used st in
  files st'.1 !! keyDestination E sel = Some data ∧
  files st'.1 !! keySource E sel = None.
Proof.
  intros Hnf Hp Hu. revert st.
  induction sels as [|t sels IH]; intros st Hap Hsrc Hdst; [done|].
  cbv zeta. rewrite moveAwayKeysOver_cons. apply IH; [by eapply apart_cons|..].
  - destruct (decide (config.PrivateKeyFile t = config.PrivateKeyFile sel)) as [Heq|Hne].
    + rewrite moveAwayKey_refused; try done; unfold keyDestination, fs_exists;
        rewrite Heq; fold (keyDestination E sel); [done|done|].
      rewrite Hdst. by rewrite bool_decide_eq_true_2.
    + destruct (Hap t) as (? & ? & _); [by left|done|]. by rewrite moveAwayKey_other.
  - destruct (decide (config.PrivateKeyFile t = config.PrivateKeyFile sel)) as [Heq|Hne].
    + rewrite moveAwayKey_refused; try done; unfold keyDestination, fs_exists;
        rewrite Heq; fold (keyDestination E sel); [done|done|].
      rewrite Hdst. by rewrite bool_decide_eq_true_2.
    + destruct (Hap t) as (? & ? & ? & ? & _); [by left|done|].
      by rewrite moveAwayKey_other.
Qed.

(** Not referenced, and the destination is free: moved. *)
Lemma moveAwayKeysOver_moved used sels sel data st :
  (∀ c f, io_fault E c f = false) →
  config.PrivateKeyFile sel ≠ "" →
  filepath_Clean E (config.PrivateKeyFile sel) ∉ used →
  keySource E sel ≠ keyDestination E sel →
  apart E sels sel →
  sel ∈ sels →
  files st.1 !! keySource E sel = Some data →
  fs_exists (keyDestination E sel) st.1 = false →
  underFile E (filepath_Dir E (keyDestination E sel)) st.1 = false →
  let st' := moveAwayKeysOver E sels used st in
  files st'.1 !! keyDestination E sel = Some data ∧
  files st'.1 !! keySource E sel = None.
Proof.
  intros Hnf Hp Hu Hsd. revert st.
  induction sels as [|t sels IH]; intros st Hap Hin Hsrc Hex Hpar.
  { by apply elem_of_nil in Hin. }
  cbv zeta. rewrite moveAwayKeysOver_cons.
  destruct (decide (config.PrivateKeyFile t = config.PrivateKeyFile sel)) as [Heq|Hne].
  - apply moveAwayKeysOver_stays_moved; try done; [by eapply apart_cons|..].
    + rewrite (moveAwayKey_moved used t st data); try done;
        unfold keySource, keyDestination; rewrite Heq;
        fold (keySource E sel) (keyDestination E sel); try done.
      by rewrite lookup_insert_ne, lookup_delete_eq.
    + rewrite (moveAwayKey_moved used t st data); try done;
        unfold keySource, keyDestination; rewrite Heq;
        fold (keySource E sel) (keyDestination E sel); try done.
      by rewrite lookup_insert_eq.
  - destruct (Hap t) as (? & ? & ? & ? & ? & ?); [by left|done|].
    apply IH; [by eapply apart_cons|..].
    + apply elem_of_cons in Hin as [->|Hin]; done.
    + by rewrite moveAwayKey_other.
    + by rewrite moveAwayKey_exists_other.
    + by apply moveAwayKey_underFile.
Qed.

Lemma moveAwayKeysOver_retired doms sels w w' :
  (fs w', logged w')
  = moveAwayKeysOver E sels (gatherUsedKeysPaths E doms) (fs w, logged w) →
  keysRetired E doms sels w w'.
Proof.
  intros Hr sel data Hin Hp Hsrc Hap.
  assert (fs w' = (moveAwayKeysOver E sels (gatherUsedKeysPaths E doms) (fs w, logged w)).1)
    as Hfs by by rewrite <-Hr.
  assert (logged w' = (moveAwayKeysOver E sels (gatherUsedKeysPaths E doms) (fs w, logged w)).2)
    as Hlog by by rewrite <-Hr.
  rewrite Hfs, Hlog. split.
  - intros Href. apply used_referencedIn in Href.
    by apply moveAwayKeysOver_referenced.
  - intros Hnf Href. rewrite <-used_referencedIn in Href. split.
    + intros Hex. by apply moveAwayKeysOver_refused; auto.
    + intros Hex Hsd Hpar. by apply moveAwayKeysOver_moved.
Qed.

(** ** DKIMRemove, DomainRemove *)

Lemma moveAwayKeys_run sels used w :
  moveAwayKeys E sels used w =
    (let r := moveAwayKeysOver E (map_to_list sels).*2 used (fs w, logged w) in
     set_logged r.2 (set_fs r.1 w), inr tt).
Proof. done. Qed.

Lemma DKIMRemove_inv domain selector w w' r :
  DKIMRemove E domain selector w = (w', r) →
  match r with
  | inr _ =>
    ∃ d sel,
      sDomains (snapshot w) !! Domain_Name E domain = Some d ∧
      config.Selectors (config.DKIM_ d) !! Domain_Name E selector = Some sel ∧
      snapshot w' =
        {| sDomains :=
             <[Domain_Name E domain :=
                 Domain_with_DKIM d
                   {| config.Selectors :=
                        delete (Domain_Name E selector) (config.Selectors (config.DKIM_ d));
                      config.Sign :=
                        filter (λ name, name ≠ Domain_Name E selector)
                               (config.Sign (config.DKIM_ d)) |}]>
               (sDomains (snapshot w));
           sAccounts := sAccounts (snapshot w) |} ∧
      (fs w', logged w')
      = moveAwayKeysOver E [sel] (gatherUsedKeysPaths E (sDomains (snapshot w')))
          (fs w, logged w)
  | inl e =>
    fs w' = fs w ∧ logged w' = logged w ∧ (wf w → snapshot w' = snapshot w) ∧
    ((e = ErrDomainNotExist ∧ sDomains (snapshot w) !! Domain_Name E domain = None)
     ∨ (e = ErrSelectorNotExist ∧
        ∃ d, sDomains (snapshot w) !! Domain_Name E domain = Some d ∧
             config.Selectors (config.DKIM_ d) !! Domain_Name E selector = None)
     ∨ (∃ msg, e = ErrWritingDomainsConf (ErrConfig msg)))
  end.
Proof.
  unfold DKIMRemove. intros H. mrun. cbn [snapshot view sDomains sAccounts].
  destruct (domainsAt w (config.Domains (Conf_Dynamic w)) !! Domain_Name E domain)
    as [d|] eqn:Hd; mrun.
  2:{ injection H as <- <-. split_and!; try done. by left. }
  destruct (config.Selectors (config.DKIM_ d) !! Domain_Name E selector)
    as [sel|] eqn:Hsel; mrun.
  2:{ injection H as <- <-. split_and!; try done. right. left. split; [done|]. by exists d. }
  rewrite domainsAt_new_domains, store_fresh in H.
  match type of H with context [WriteDynamicLocked E ?c ?w0] =>
    destruct (WriteDynamicLocked E c w0) as [w3 [e|[]]] eqn:Hp;
    apply WriteDynamicLocked_inv in Hp as [(msg & _ & -> & Hr)|(parsed & _ & -> & Hr)];
    try discriminate Hr
  end; mrun.
  - injection H as <- <-. injection Hr as ->. split_and!; try done.
    + intros Hwf. by apply (snapshot_withDomains w).
    + right. right. by eexists.
  - rewrite moveAwayKeys_run in H. cbv zeta in H. injection H as <- <-.
    exists d, sel. split; [done|]. split; [done|].
    rewrite map_to_list_singleton. cbn [fmap list_fmap snd].
    unfold snapshot, view, domainsAt, accountsAt. mrun. rewrite !lookup_fresh. mrun.
    split; [done|]. cbn [sDomains].
    by destruct (moveAwayKeysOver E [sel] _ _).
Qed.

Lemma DomainRemove_inv domain w w' r :
  DomainRemove E domain w = (w', r) →
  match r with
  | inr _ =>
    ∃ d,
      sDomains (snapshot w) !! Domain_Name E domain = Some d ∧
      snapshot w' =
        {| sDomains := delete (Domain_Name E domain) (sDomains (snapshot w));
           sAccounts := sAccounts (snapshot w) |} ∧
      (fs w', logged w')
      = moveAwayKeysOver E (map_to_list (config.Selectors (config.DKIM_ d))).*2
          (gatherUsedKeysPaths E (sDomains (snapshot w'))) (fs w, logged w)
  | inl e =>
    fs w' = fs w ∧ logged w' = logged w ∧ (wf w → snapshot w' = snapshot w) ∧
    ((e = ErrDomainNotExist ∧ sDomains (snapshot w) !! Domain_Name E domain = None)
     ∨ (∃ msg, e = ErrListingTLSPublicKeys msg)
     ∨ (∃ login account, e = ErrDomainReferencedInTLSPublicKey login account)
     ∨ (∃ msg, e = ErrWritingDomainsConf (ErrConfig msg)))
  end.
Proof.
  unfold DomainRemove. intros H. mrun. cbn [snapshot view sDomains sAccounts].
  destruct (domainsAt w (config.Domains (Conf_Dynamic w)) !! Domain_Name E domain)
    as [d|] eqn:Hd; mrun.
  2:{ injection H as <- <-. split_and!; try done. by left. }
  destruct (TLSPublicKeyList E "") as [msg|tlspubkeys]; mrun.
  { injection H as <- <-. split_and!; try done. right. left. by eexists. }
  destruct (firstReferencing _ tlspubkeys) as [tpk|]; mrun.
  { injection H as <- <-. split_and!; try done. right. right. left. by eexists _, _. }
  match type of H with context [WriteDynamicLocked E ?c ?w0] =>
    destruct (WriteDynamicLocked E c w0) as [w3 [e|[]]] eqn:Hp;
    apply WriteDynamicLocked_inv in Hp as [(msg & _ & -> & Hr)|(parsed & _ & -> & Hr)];
    try discriminate Hr
  end; mrun.
  - injection H as <- <-. injection Hr as ->. split_and!; try done.
    + intros Hwf. by apply (snapshot_withDomains w).
    + right. right. right. by eexists.
  - rewrite moveAwayKeys_run in H. cbv zeta in H. injection H as <- <-.
    exists d. split; [done|].
    unfold snapshot, view, domainsAt, accountsAt. mrun. rewrite !lookup_fresh. mrun.
    split; [done|]. cbn [sDomains].
    by destruct (moveAwayKeysOver E _ _ _).
Qed.

Lemma firstReferencing_Some atdom keys tpk :
  firstReferencing atdom keys = Some tpk →
  tpk ∈ keys ∧ HasSuffix (LoginAddress tpk) atdom = true.
Proof.
  unfold firstReferencing. intros H. apply head_Some_elem_of in H.
  apply list_elem_of_filter in H as [H1 H2]. done.
Qed.

Lemma firstReferencing_None atdom keys :
  firstReferencing atdom keys = None →
  ∀ tpk, tpk ∈ keys → HasSuffix (LoginAddress tpk) atdom = false.
Proof.
  unfold firstReferencing. intros H tpk Hin. apply head_None in H.
  destruct (HasSuffix (LoginAddress tpk) atdom) eqn:Hs; [|done].
  assert (tpk ∈ filter (λ tpk, HasSuffix (LoginAddress tpk) atdom = true) keys) as Hf
    by (by apply list_elem_of_filter).
  rewrite H in Hf. by apply elem_of_nil in Hf.
Qed.

Lemma firstReferencing_clear atdom keys :
  (∀ tpk, tpk ∈ keys → HasSuffix (LoginAddress tpk) atdom = false) →
  firstReferencing atdom keys = None.
Proof.
  intros H. destruct (firstReferencing atdom keys) as [tpk|] eqn:Hf; [|done].
  apply firstReferencing_Some in Hf as [Hin Hs]. by rewrite (H tpk Hin) in Hs.
Qed.

Lemma DKIMRemove_run domain selector w d sel parsed :
  sDomains (snapshot w) !! Domain_Name E domain = Some d →
  config.Selectors (config.DKIM_ d) !! Domain_Name E selector = Some sel →
  prepareDynamicConfig E (fs w)
    {| sDomains :=
         <[Domain_Name E domain :=
             Domain_with_DKIM d
               {| config.Selectors :=
                    delete (Domain_Name E selector) (config.Selectors (config.DKIM_ d));
                  config.Sign :=
                    filter (λ name, name ≠ Domain_Name E selector)
                           (config.Sign (config.DKIM_ d)) |}]>
           (sDomains (snapshot w));
       sAccounts := sAccounts (snapshot w) |} = inr parsed →
  (DKIMRemove E domain selector w).2 = inr tt.
Proof.
  intros Hd Hsel Hp.
  destruct (DKIMRemove E domain selector w) as [w' r] eqn:H. cbn [snd].
  unfold DKIMRemove in H. mrun. cbn [snapshot view sDomains sAccounts] in Hd, Hp.
  rewrite Hd in H. mrun. rewrite Hsel in H. mrun.
  rewrite domainsAt_new_domains, store_fresh in H.
  match type of H with context [WriteDynamicLocked E ?c ?w0] =>
    destruct (WriteDynamicLocked E c w0) as [w3 [e|[]]] eqn:Hpub;
    apply WriteDynamicLocked_inv in Hpub as [(msg & Hprep & -> & Hr)|(p' & Hprep & -> & Hr)];
    try discriminate Hr
  end; mrun.
  - exfalso. unfold view, domainsAt, accountsAt in Hprep. mrun.
    rewrite lookup_fresh in Hprep. cbn [default] in Hprep.
    unfold domainsAt, accountsAt in Hp. unfold id in Hp, Hprep. congruence.
  - rewrite moveAwayKeys_run in H. by injection H as <- <-.
Qed.

Lemma DomainRemove_run domain w d keys parsed :
  sDomains (snapshot w) !! Domain_Name E domain = Some d →
  TLSPublicKeyList E "" = inr keys →
  (∀ tpk, tpk ∈ keys →
          HasSuffix (LoginAddress tpk) ("@" +:+ Domain_Name E domain) = false) →
  prepareDynamicConfig E (fs w)
    {| sDomains := delete (Domain_Name E domain) (sDomains (snapshot w));
       sAccounts := sAccounts (snapshot w) |} = inr parsed →
  (DomainRemove E domain w).2 = inr tt.
Proof.
  intros Hd Hkeys Hclear Hp.
  destruct (DomainRemove E domain w) as [w' r] eqn:H. cbn [snd].
  unfold DomainRemove in H. mrun. cbn [snapshot view sDomains sAccounts] in Hd, Hp.
  rewrite Hd in H. mrun. rewrite Hkeys in H. mrun.
  rewrite firstReferencing_clear in H by done. mrun.
  match type of H with context [WriteDynamicLocked E ?c ?w0] =>
    destruct (WriteDynamicLocked E c w0) as [w3 [e|[]]] eqn:Hpub;
    apply WriteDynamicLocked_inv in Hpub as [(msg & Hprep & -> & Hr)|(p' & Hprep & -> & Hr)];
    try discriminate Hr
  end; mrun.
  - exfalso. unfold view, domainsAt, accountsAt in Hprep. mrun.
    rewrite lookup_fresh in Hprep. cbn [default] in Hprep.
    unfold domainsAt, accountsAt in Hp. unfold id in Hp, Hprep. congruence.
  - rewrite moveAwayKeys_run in H. by injection H as <- <-.
Qed.


(** ** AddressRemove *)

(** The loop over the alias memberships only stores into the clone at [l]. *)
Lemma pruneAliases_frame address l aliases w w' r :
  pruneAliases E address l aliases w = (w', r) →
  ∃ h', w' = set_domainMaps h' w ∧
        length h' = length (domainMaps w) ∧
        ∀ l', l' ≠ l → h' !! l' = domainMaps w !! l'.
Proof.
  revert w. induction aliases as [|aa aliases IH]; intros w H.
  { injection H as <- <-. exists (domainMaps w). by destruct w. }
  cbn [pruneAliases] in H.
  destruct (bool_decide (config.SubscriptionAddress aa ≠ address)); [by apply IH|].
  mrun.
  destruct (domainsAt w (config.Domains (Conf_Dynamic w)) !! _) as [dom|]; mrun.
  2:{ injection H as <- <-. exists (domainMaps w). by destruct w. }
  destruct (config.Aliases dom !! _) as [a|]; mrun.
  2:{ injection H as <- <-. exists (domainMaps w). by destruct w. }
  destruct (bool_decide (length _ = 0)); mrun.
  { injection H as <- <-. exists (domainMaps w). by destruct w. }
  apply IH in H as (h' & -> & Hlen & Hother). cbn [domainMaps set_domainMaps] in *.
  exists h'. split; [done|]. rewrite length_insert in Hlen. split; [done|].
  intros l' Hl'. rewrite Hother by done. by rewrite list_lookup_insert_ne.
Qed.

Lemma snapshot_set_domainMaps h w :
  h !! config.Domains (Conf_Dynamic w) = domainMaps w !! config.Domains (Conf_Dynamic w) →
  snapshot (set_domainMaps h w) = snapshot w.
Proof. intros Hh. unfold snapshot, view, domainsAt. cbn. by rewrite Hh. Qed.

Lemma snapshot_set_accountMaps h w :
  h !! config.Accounts (Conf_Dynamic w) = accountMaps w !! config.Accounts (Conf_Dynamic w) →
  snapshot (set_accountMaps h w) = snapshot w.
Proof. intros Hh. unfold snapshot, view, accountsAt. cbn. by rewrite Hh. Qed.

Lemma AddressRemove_inv address w w' r :
  wf w →
  AddressRemove E address w = (w', r) →
  fs w' = fs w ∧ queue w' = queue w ∧
  match r with
  | inl _ => snapshot w' = snapshot w
  | inr _ =>
    ∃ ad a na,
      AccountDestinations (Conf_Parsed w) !! address = Some ad ∧
      sAccounts (snapshot w) !! AD_Account ad = Some a ∧
      is_Some (config.Destinations a !! address) ∧
      checkQueued E address ad (sDomains (snapshot w))
        (AccountDestinations (Conf_Parsed w))
        (filter (λ m, Msg_SenderAccount m = AD_Account ad) (queue w)) = None ∧
      config.Destinations na = delete address (config.Destinations a) ∧
      sAccounts (snapshot w') = <[AD_Account ad := na]> (sAccounts (snapshot w)) ∧
      prepareDynamicConfig E (fs w) (snapshot w') = inr (Conf_Parsed w') ∧
      wf w'
  end.
Proof.
  intros [Hwd Hwa] H. unfold AddressRemove in H. mrun.
  cbn [snapshot view sDomains sAccounts].
  destruct (AccountDestinations (Conf_Parsed w) !! address) as [ad|] eqn:Hidx; mrun.
  2:{ by injection H as <- <-. }
  destruct (accountsAt w (config.Accounts (Conf_Dynamic w)) !! AD_Account ad)
    as [a|] eqn:Ha; mrun.
  2:{ by injection H as <- <-. }
  destruct (bool_decide (is_Some (config.Destinations a !! address))) eqn:Hdrop;
    cbn [negb] in H; mrun.
  2:{ by injection H as <- <-. }
  apply bool_decide_eq_true in Hdrop.
  match type of H with (let (_, _) := ?t in _) = _ =>
    destruct t as [w1 r0] eqn:Hm0
  end.
  assert (w1 = w) as ->.
  { destruct (HasPrefix address "@");
      [destruct (dns_ParseDomain E (from1 address))
      |destruct (smtp_ParseAddress E address)]; by injection Hm0 as <- _. }
  clear Hm0. destruct r0 as [e|[dom pa]]; mrun.
  { by injection H as <- <-. }
  destruct (domainsAt w (config.Domains (Conf_Dynamic w)) !! Domain_Name E dom)
    as [dc|] eqn:Hdc; mrun.
  2:{ by injection H as <- <-. }
  destruct (filterFromID _ _ _ _) as [froms|] eqn:Hff; mrun.
  2:{ by injection H as <- <-. }
  destruct (TLSPublicKeyList E (AD_Account ad)) as [msg|keys] eqn:Hk; mrun.
  { by injection H as <- <-. }
  destruct (checkTLSPublicKeys _ _ _ _ _) as [e|] eqn:Htls; mrun.
  { by injection H as <- <-. }
  destruct (pruneAliases _ _ _ _ _) as [w3 [e|[]]] eqn:Hpr;
    apply pruneAliases_frame in Hpr as (h' & -> & Hlen & Hother); mrun.
  all: assert (h' !! config.Domains (Conf_Dynamic w)
              = domainMaps w !! config.Domains (Conf_Dynamic w)) as Hpub
    by (rewrite Hother by lia; by apply lookup_app_l).
  { injection H as <- <-. split; [done|]. split; [done|].
    exact (snapshot_set_domainMaps h' w Hpub). }
  unfold queue_List in H. mrun.
  destruct (queue_List_fault E (queue w) (AD_Account ad)) as [msg|] eqn:Hq; mrun.
  { injection H as <- <-. split; [done|]. split; [done|].
    exact (snapshot_set_domainMaps h' w Hpub). }
  destruct (checkQueued _ _ _ _ _ _) as [e|] eqn:Hcq; mrun.
  { injection H as <- <-. split; [done|]. split; [done|].
    exact (snapshot_set_domainMaps h' w Hpub). }
  unfold accountsAt in H. mrun. fold (accountsAt w (config.Accounts (Conf_Dynamic w))) in H.
  rewrite lookup_fresh, store_fresh in H. mrun.
  match type of H with context [WriteDynamicLocked E ?c ?w0] =>
    destruct (WriteDynamicLocked E c w0) as [w3 [e|[]]] eqn:Hp;
    apply WriteDynamicLocked_inv in Hp as [(msg & _ & -> & Hr)|(parsed & Hprep & -> & Hr)];
    try discriminate Hr
  end; mrun; injection H as <- <-.
  { split; [done|]. split; [done|].
    unfold snapshot, view, domainsAt, accountsAt. mrun.
    by rewrite Hpub, lookup_app_l. }
  split; [done|]. split; [done|].
  exists ad, a, (Account_with_FromIDLoginAddresses
                   (Account_with_Destinations a (delete address (config.Destinations a)))
                   froms).
  split; [done|]. split; [done|]. split; [done|].
  split; [done|]. split; [done|].
  split; [unfold accountsAt; mrun; by rewrite lookup_fresh|].
  split; [done|].
  rewrite length_app in Hlen. cbn in Hlen.
  split; mrun; [lia|rewrite length_app; cbn; lia].
Qed.

Lemma pruneAliases_ok address l aliases w :
  l ≠ config.Domains (Conf_Dynamic w) →
  Forall (keepsAMember E (sDomains (snapshot w)) address) aliases →
  (pruneAliases E address l aliases w).2 = inr tt.
Proof.
  intros Hl Hall. revert w Hl Hall.
  induction aliases as [|aa aliases IH]; intros w Hl Hall; [done|].
  apply Forall_cons in Hall as [Haa Hall].
  cbn [pruneAliases].
  destruct (bool_decide (config.SubscriptionAddress aa ≠ address)) eqn:Hsub;
    [by apply IH|].
  apply bool_decide_eq_false in Hsub. apply dec_stable in Hsub.
  destruct (Haa Hsub) as (dom & a & Hdom & Ha & Hne).
  cbn [snapshot view sDomains] in Hdom. mrun. rewrite Hdom. mrun. rewrite Ha. mrun.
  rewrite bool_decide_eq_false_2.
  2:{ intros Hz. by apply nil_length_inv in Hz. }
  mrun. apply IH; [done|].
  eapply Forall_impl; [exact Hall|]. intros aa' Hk.
  unfold keepsAMember, snapshot, view, domainsAt in *. mrun.
  by rewrite list_lookup_insert_ne.
Qed.

Lemma checkQueued_catchall address ad doms index msgs :
  HasPrefix address "@" = true →
  match checkQueued E address ad doms index msgs with
  | None =>
    ∀ m dc, m ∈ msgs → doms !! SenderDomainStr m = Some dc →
            ¬ notConfiguredFor index (AD_Account ad) (senderAddress E dc m)
  | Some e =>
    (∃ m, m ∈ msgs ∧ doms !! SenderDomainStr m = None)
    ∨ (∃ m dc, m ∈ msgs ∧ doms !! SenderDomainStr m = Some dc ∧
               notConfiguredFor index (AD_Account ad) (senderAddress E dc m) ∧
               e = ErrQueueDependsOnCatchall (senderAddress E dc m))
  end.
Proof.
  intros Hpre. induction msgs as [|m msgs IH]; cbn [checkQueued].
  { intros m dc Hm. by apply elem_of_nil in Hm. }
  rewrite Hpre.
  destruct (doms !! SenderDomainStr m) as [dc|] eqn:Hdc.
  2:{ left. exists m. split; [left|done]. }
  fold (senderAddress E dc m).
  destruct (index !! senderAddress E dc m) as [xad|] eqn:Hx.
  2:{ right. exists m, dc. split; [left|]. split; [done|]. split; [|done].
      intros xad Hxad. congruence. }
  destruct (bool_decide (AD_Account xad ≠ AD_Account ad)) eqn:Hacc.
  { apply bool_decide_eq_true in Hacc.
    right. exists m, dc. split; [left|]. split; [done|]. split; [|done].
    intros xad' Hxad. congruence. }
  apply bool_decide_eq_false in Hacc. apply dec_stable in Hacc.
  destruct (checkQueued E address ad doms index msgs) as [e|].
  - destruct IH as [(m' & Hm' & Hn)|(m' & dc' & Hm' & Hrest)].
    + left. exists m'. split; [by right|done].
    + right. exists m', dc'. split; [by right|done].
  - intros m' dc' Hm' Hdc' Hnot. apply elem_of_cons in Hm' as [->|Hm'].
    + rewrite Hdc in Hdc'. injection Hdc' as <-. by apply (Hnot xad).
    + by apply (IH m' dc').
Qed.

Lemma checkQueued_plain address ad doms index msgs :
  HasPrefix address "@" = false →
  match checkQueued E address ad doms index msgs with
  | None =>
    ∀ m dc, m ∈ msgs → doms !! SenderDomainStr m = Some dc →
            senderAddress E dc m = address →
            ¬ notConfiguredFor index (AD_Account ad) ("@" +:+ SenderDomainStr m)
  | Some e =>
    (∃ m, m ∈ msgs ∧ doms !! SenderDomainStr m = None)
    ∨ (∃ m dc, m ∈ msgs ∧ doms !! SenderDomainStr m = Some dc ∧
               senderAddress E dc m = address ∧
               notConfiguredFor index (AD_Account ad) ("@" +:+ SenderDomainStr m) ∧
               e = ErrQueueNoCatchall address)
  end.
Proof.
  intros Hpre. induction msgs as [|m msgs IH]; cbn [checkQueued].
  { intros m dc Hm. by apply elem_of_nil in Hm. }
  rewrite Hpre.
  destruct (doms !! SenderDomainStr m) as [dc|] eqn:Hdc.
  2:{ left. exists m. split; [left|done]. }
  fold (senderAddress E dc m).
  assert ((match index !! ("@" +:+ SenderDomainStr m) with
           | Some xad => bool_decide (AD_Account xad ≠ AD_Account ad)
           | None => true
           end = true)
          ↔ notConfiguredFor index (AD_Account ad) ("@" +:+ SenderDomainStr m)) as Hunc.
  { unfold notConfiguredFor.
    destruct (index !! ("@" +:+ SenderDomainStr m)) as [xad|].
    - rewrite bool_decide_eq_true. split; [by intros ? ? [= <-]|by intros Hn; apply Hn].
    - split; [by intros _ ? ?|done]. }
  destruct (match index !! ("@" +:+ SenderDomainStr m) with
            | Some xad => bool_decide (AD_Account xad ≠ AD_Account ad)
            | None => true
            end) eqn:Hu; cbn [andb].
  - destruct (bool_decide (senderAddress E dc m = address)) eqn:Hsa.
    + apply bool_decide_eq_true in Hsa.
      right. exists m, dc. split; [left|]. rewrite Hsa. split_and!; try done.
      by apply Hunc.
    + apply bool_decide_eq_false in Hsa.
      destruct (checkQueued E address ad doms index msgs) as [e|].
      * destruct IH as [(m' & Hm' & Hn)|(m' & dc' & Hm' & Hrest)].
        -- left. exists m'. split; [by right|done].
        -- right. exists m', dc'. split; [by right|done].
      * intros m' dc' Hm' Hdc' Hs Hnot. apply elem_of_cons in Hm' as [->|Hm'].
        -- rewrite Hdc in Hdc'. by injection Hdc' as <-.
        -- by apply (IH m' dc').
  - destruct (checkQueued E address ad doms index msgs) as [e|].
    + destruct IH as [(m' & Hm' & Hn)|(m' & dc' & Hm' & Hrest)].
      * left. exists m'. split; [by right|done].
      * right. exists m', dc'. split; [by right|done].
    + intros m' dc' Hm' Hdc' Hs Hnot. apply elem_of_cons in Hm' as [->|Hm'].
      * apply Hunc in Hnot. congruence.
      * by apply (IH m' dc').
Qed.

(** Once the earlier checks pass, [AddressRemove] returns what the loop over
    the queue finds. *)
Lemma AddressRemove_at_queue_check address ad e w :
  wf w →
  AccountDestinations (Conf_Parsed w) !! address = Some ad →
  reachesQueueCheck E w address ad →
  checkQueued E address ad (sDomains (snapshot w))
    (AccountDestinations (Conf_Parsed w))
    (filter (λ m, Msg_SenderAccount m = AD_Account ad) (queue w)) = Some e →
  (AddressRemove E address w).2 = inl e.
Proof.
  intros [Hwd Hwa] Hidx (a & dom & pa & dc & keys & Ha & Hdest & Hparse & Hdc & Hff
                         & Hkeys & Htls & Hprune & Hq & _) Hcq.
  cbn [snapshot view sDomains sAccounts] in *.
  destruct Hff as [froms Hff].
  unfold AddressRemove. mrun. rewrite Hidx. mrun. rewrite Ha. mrun.
  rewrite bool_decide_eq_true_2 by done. cbn [negb].
  assert ((if HasPrefix address "@"
           then let* dom := orThrow (dns_ParseDomain E (from1 address))
                              ErrParsingCatchallDomain in
                ret (dom, smtp.NewAddress "" dns.zero)
           else let* pa := orThrow (smtp_ParseAddress E address) ErrParsingAddress in
                ret (smtp.Domain_ pa, pa)) w = (w, inr (dom, pa))) as Hdp.
  { destruct (HasPrefix address "@"); destruct Hparse as [Hp ->]; mrun;
      by rewrite Hp. }
  mrun. rewrite Hdp. mrun. rewrite Hdc. mrun. rewrite Hff. mrun.
  rewrite Hkeys. mrun. rewrite Htls.
  destruct (pruneAliases _ _ _ _ _) as [w3 r3] eqn:Hpr.
  assert (r3 = inr tt) as ->.
  { change r3 with (w3, r3).2. rewrite <- Hpr. apply pruneAliases_ok; [cbn; lia|].
    eapply Forall_impl; [exact Hprune|]. intros aa Hk.
    unfold keepsAMember, snapshot, view, domainsAt in *. mrun.
    by rewrite lookup_app_l. }
  apply pruneAliases_frame in Hpr as (h' & -> & Hlen & Hother).
  unfold queue_List. mrun. rewrite Hq. mrun. by rewrite Hcq.
Qed.


(** C8, as amended.  Let [address] be a destination in the index, of the account
    [AD_Account ad], and [m] a queued message of that account whose sender
    domain is configured; [sa] is its sender in canonical form.

    If [address] is a catchall address and [sa] is not configured for the
    account, [AddressRemove] fails and leaves the published configuration as
    it was; when the call reaches the loop over the queue the error is the
    request error that the queue holds a message depending on the catchall
    address, naming the sender of such a message.

    If [address] is a plain address, [sa] is [address] and no catchall of the
    sender's domain is configured for the account, [AddressRemove] fails the
    same way; when the call reaches the loop over the queue the error is the
    request error that no catchall address is configured. *)
Theorem AddressRemove_queue_guard (address : string) (ad : AccountDestination)
    (m : Msg) (dc : config.Domain) (w : World) :
  wf w →
  AccountDestinations (Conf_Parsed w) !! address = Some ad →
  m ∈ queue w →
  Msg_SenderAccount m = AD_Account ad →
  sDomains (snapshot w) !! SenderDomainStr m = Some dc →
  let index := AccountDestinations (Conf_Parsed w) in
  let doms := sDomains (snapshot w) in
  let sa := senderAddress E dc m in
  let r := AddressRemove E address w in
  (HasPrefix address "@" = true →
   notConfiguredFor index (AD_Account ad) sa →
   (∃ e, r.2 = inl e) ∧
   snapshot r.1 = snapshot w ∧
   (reachesQueueCheck E w address ad →
    ∃ m' dc',
      m' ∈ queue w ∧ Msg_SenderAccount m' = AD_Account ad ∧
      doms !! SenderDomainStr m' = Some dc' ∧
      notConfiguredFor index (AD_Account ad) (senderAddress E dc' m') ∧
      r.2 = inl (ErrQueueDependsOnCatchall (senderAddress E dc' m')) ∧
      isErrRequest (ErrQueueDependsOnCatchall (senderAddress E dc' m')) = true))
  ∧
  (HasPrefix address "@" = false →
   sa = address →
   notConfiguredFor index (AD_Account ad) ("@" +:+ SenderDomainStr m) →
   (∃ e, r.2 = inl e) ∧
   snapshot r.1 = snapshot w ∧
   (reachesQueueCheck E w address ad →
    r.2 = inl (ErrQueueNoCatchall address) ∧
    isErrRequest (ErrQueueNoCatchall address) = true)).
Proof.
  intros Hwf Hidx Hm Hacc Hdc index doms sa r.
  assert (m ∈ filter (λ m, Msg_SenderAccount m = AD_Account ad) (queue w)) as Hmf
    by (by apply list_elem_of_filter).
  assert (∀ l, Forall (λ m, is_Some (doms !! SenderDomainStr m)) l →
               ¬ ∃ m', m' ∈ l ∧ doms !! SenderDomainStr m' = None) as Hknown.
  { intros l Hall (m' & Hm' & Hn). rewrite Forall_forall in Hall.
    destruct (Hall m' Hm') as [? ?]. congruence. }
  destruct (AddressRemove E address w) as [w' res] eqn:Hrun. subst r. cbn [fst snd].
  pose proof (AddressRemove_inv _ _ _ _ Hwf Hrun) as (_ & _ & Hinv).
  split.
  - intros Hpre Hnot.
    pose proof (checkQueued_catchall address ad doms index
                  (filter (λ m, Msg_SenderAccount m = AD_Account ad) (queue w)) Hpre)
      as Hcq.
    assert (∃ e, res = inl e) as [e ->].
    { destruct res as [e|[]]; [by exists e|].
      destruct Hinv as (ad' & a & na & Hidx' & _ & _ & Hnone & _).
      rewrite Hidx in Hidx'. injection Hidx' as <-.
      fold index doms in Hnone. rewrite Hnone in Hcq.
      destruct (Hcq m dc Hmf Hdc Hnot). }
    split; [by exists e|]. split; [done|].
    intros Hreach.
    destruct (checkQueued E address ad doms index _) as [e'|] eqn:Hres.
    2:{ destruct (Hcq m dc Hmf Hdc Hnot). }
    pose proof (AddressRemove_at_queue_check _ _ _ _ Hwf Hidx Hreach Hres) as Hat.
    rewrite Hrun in Hat. cbn [snd] in Hat.
    destruct Hcq as [Hunknown|(m' & dc' & Hm' & Hdc' & Hnot' & ->)].
    { destruct Hreach as (? & ? & ? & ? & ? & Hreach).
      destruct (Hknown _ (proj2 (proj2 (proj2 (proj2 (proj2 (proj2 (proj2 (proj2
                            (proj2 Hreach))))))))) Hunknown). }
    apply list_elem_of_filter in Hm' as [Hacc' Hm'].
    exists m', dc'. split_and!; done.
  - intros Hpre Hsa Hnot.
    pose proof (checkQueued_plain address ad doms index
                  (filter (λ m, Msg_SenderAccount m = AD_Account ad) (queue w)) Hpre)
      as Hcq.
    assert (∃ e, res = inl e) as [e ->].
    { destruct res as [e|[]]; [by exists e|].
      destruct Hinv as (ad' & a & na & Hidx' & _ & _ & Hnone & _).
      rewrite Hidx in Hidx'. injection Hidx' as <-.
      fold index doms in Hnone. rewrite Hnone in Hcq.
      destruct (Hcq m dc Hmf Hdc Hsa Hnot). }
    split; [by exists e|]. split; [done|].
    intros Hreach.
    destruct (checkQueued E address ad doms index _) as [e'|] eqn:Hres.
    2:{ destruct (Hcq m dc Hmf Hdc Hsa Hnot). }
    pose proof (AddressRemove_at_queue_check _ _ _ _ Hwf Hidx Hreach Hres) as Hat.
    rewrite Hrun in Hat. cbn [snd] in Hat.
    destruct Hcq as [Hunknown|(m' & dc' & Hm' & Hdc' & Hsa' & Hnot' & ->)].
    { destruct Hreach as (? & ? & ? & ? & ? & Hreach).
      destruct (Hknown _ (proj2 (proj2 (proj2 (proj2 (proj2 (proj2 (proj2 (proj2
                            (proj2 Hreach))))))))) Hunknown). }
    done.
Qed.

(** ** Calling an operation again *)

Lemma refusedWith_same {A} (m : M A) w e :
  m w = (w, inl e) → isErrRequest e = true → refusedWith m w e.
Proof. intros H He. unfold refusedWith. by rewrite H. Qed.

Lemma DomainRemove_absent domain w :
  sDomains (snapshot w) !! Domain_Name E domain = None →
  DomainRemove E domain w = (w, inl ErrDomainNotExist).
Proof.
  cbn [snapshot view sDomains]. intros H. unfold DomainRemove. mrun. by rewrite H.
Qed.

Lemma DKIMRemove_absent domain selector d w :
  sDomains (snapshot w) !! Domain_Name E domain = Some d →
  config.Selectors (config.DKIM_ d) !! Domain_Name E selector = None →
  DKIMRemove E domain selector w = (w, inl ErrSelectorNotExist).
Proof.
  cbn [snapshot view sDomains]. intros Hd Hs. unfold DKIMRemove. mrun.
  rewrite Hd. mrun. by rewrite Hs.
Qed.

Lemma DomainSave_refused name xm d e w :
  sDomains (snapshot w) !! name = Some d →
  xm d = inl e →
  DomainSave E name xm w = (w, inl e).
Proof.
  cbn [snapshot view sDomains]. intros Hd Hx. unfold DomainSave. mrun.
  rewrite Hd. mrun. by rewrite Hx.
Qed.

Lemma checkAddressAvailable_state addr w w' r :
  checkAddressAvailable E addr w = (w', r) → w' = w.
Proof.
  unfold checkAddressAvailable. mrun.
  destruct (domainsAt w _ !! _) as [dc|]; mrun; [|congruence].
  destruct (bool_decide (is_Some _)); mrun; [congruence|].
  destruct (head _); mrun; [congruence|].
  destruct (bool_decide (is_Some _)); mrun; congruence.
Qed.

Lemma AccountAdd_ok account address w w' :
  AccountAdd E account address w = (w', inr tt) →
  ∃ addr,
    smtp_ParseAddress E address = Some addr ∧
    sAccounts (snapshot w) !! account = None ∧
    snapshot w' =
      {| sDomains := sDomains (snapshot w);
         sAccounts := <[account := MakeAccountConfig E addr]> (sAccounts (snapshot w)) |} ∧
    fs w' = fs w.
Proof.
  intros H. unfold AccountAdd in H. mrun. cbn [snapshot view sDomains sAccounts].
  destruct (smtp_ParseAddress E address) as [addr|]; mrun; [|done].
  exists addr. split; [done|].
  destruct (accountsAt w (config.Accounts (Conf_Dynamic w)) !! account) as [a0|] eqn:Ha.
  { rewrite bool_decide_eq_true_2 in H by done. by mrun. }
  rewrite bool_decide_eq_false_2 in H by (by intros [? ?]).
  split; [done|].
  destruct (os_Stat _ _); mrun; try done.
  destruct (checkAddressAvailable E addr w) as [w0 [e|[]]] eqn:Hc;
    apply checkAddressAvailable_state in Hc as ->; mrun; [done|].
  unfold accountsAt in H at 1. mrun. rewrite lookup_fresh, store_fresh in H. mrun.
  match type of H with context [WriteDynamicLocked E ?c ?w0] =>
    destruct (WriteDynamicLocked E c w0) as [w3 [e|[]]] eqn:Hp;
    apply WriteDynamicLocked_inv in Hp as [(msg & _ & -> & Hr)|(parsed & _ & -> & Hr)];
    try discriminate Hr
  end; mrun; [done|]. injection H as <-.
  split; [|done]. rewrite snapshot_published. unfold view, domainsAt, accountsAt. mrun.
  by rewrite lookup_fresh.
Qed.

Lemma AccountAdd_present account address addr w :
  smtp_ParseAddress E address = Some addr →
  is_Some (sAccounts (snapshot w) !! account) →
  AccountAdd E account address w = (w, inl ErrAccountPresent).
Proof.
  cbn [snapshot view sAccounts]. intros Hp Ha. unfold AccountAdd. mrun.
  rewrite Hp. mrun. by rewrite bool_decide_eq_true_2.
Qed.

Lemma run_pair {A} (x : World * (Error + A)) (a : A) : x.2 = inr a → x = (x.1, inr a).
Proof. destruct x as [w r]. cbn. by intros ->. Qed.

Lemma removeSuppressions_state account sups w w' r :
  removeSuppressions E account sups w = (w', r) → w' = w.
Proof.
  revert w. induction sups as [|base rest IH]; intros w; cbn [removeSuppressions]; mrun.
  { congruence. }
  destruct (smtp_ParseAddress E base) as [addr|]; mrun; [|congruence].
  destruct (queue_SuppressionRemove E account addr); mrun; [congruence|apply IH].
Qed.

Lemma AccountRemove_ok account w w' :
  AccountRemove E account w = (w', inr tt) →
  snapshot w' =
    {| sDomains := sDomains (snapshot w);
       sAccounts := delete account (sAccounts (snapshot w)) |}.
Proof.
  intros H. unfold AccountRemove in H. mrun.
  destruct (OpenAccount E (snapshot w) account); mrun; [done|].
  destruct (queue_Fail E (queue w) account) as [[q' n] [msg|]]; mrun; [done|].
  destruct (queue_HookCancel E account).2; mrun; [done|].
  destruct (queue_SuppressionList E account) as [msg|sups]; mrun; [done|].
  destruct (removeSuppressions E account sups _) as [w0 [e|[]]] eqn:Hs;
    apply removeSuppressions_state in Hs as ->; mrun; [done|].
  match type of H with context [WriteDynamicLocked E ?c ?w0] =>
    destruct (WriteDynamicLocked E c w0) as [w3 [e|[]]] eqn:Hp;
    apply WriteDynamicLocked_inv in Hp as [(msg & _ & -> & Hr)|(parsed & _ & -> & Hr)];
    try discriminate Hr
  end; mrun; [done|].
  destruct (Account_Remove E account); mrun; [done|]. injection H as <-.
  rewrite snapshot_published. unfold snapshot, view, domainsAt, accountsAt. mrun.
  by rewrite lookup_fresh.
Qed.

Lemma AccountRemove_unknown account msg w :
  OpenAccount E (snapshot w) account = Some msg →
  AccountRemove E account w = (w, inl (ErrOpenAccount msg)).
Proof. intros H. unfold AccountRemove. mrun. by rewrite H. Qed.

Lemma AddressAdd_ok address account w w' :
  AddressAdd E address account w = (w', inr tt) →
  ∃ a destAddr,
    sAccounts (snapshot w) !! account = Some a ∧
    snapshot w' =
      {| sDomains := sDomains (snapshot w);
         sAccounts :=
           <[account := Account_with_Destinations a
                          (<[destAddr := config.Destination_zero]>
                             (config.Destinations a))]>
             (sAccounts (snapshot w)) |} ∧
    fs w' = fs w ∧
    addressAccepted E w address.
Proof.
  intros H. unfold AddressAdd in H. mrun. unfold addressAccepted.
  cbn [snapshot view sDomains sAccounts].
  destruct (accountsAt w (config.Accounts (Conf_Dynamic w)) !! account) as [a|] eqn:Ha;
    mrun; [|done].
  match type of H with (let (_, _) := ?t in _) = _ =>
    destruct t as [w1 [e|destAddr]] eqn:Hd
  end; [done|].
  assert (w1 = w ∧
          if HasPrefix address "@"
          then ∃ d, dns_ParseDomain E (from1 address) = Some d ∧
                    is_Some (domainsAt w (config.Domains (Conf_Dynamic w))
                             !! Domain_Name E d)
          else ∃ addr, smtp_ParseAddress E address = Some addr ∧
                       is_Some (domainsAt w (config.Domains (Conf_Dynamic w))
                                !! Domain_Name E (smtp.Domain_ addr))) as [-> Hacc].
  { destruct (HasPrefix address "@").
    - destruct (dns_ParseDomain E (from1 address)) as [d|]; mrun; [|done].
      destruct (domainsAt w _ !! Domain_Name E d) as [dc|] eqn:Hdc.
      2:{ rewrite bool_decide_eq_false_2 in Hd by (by intros [? ?]). by mrun. }
      rewrite bool_decide_eq_true_2 in Hd by done. cbn [negb] in Hd.
      destruct (bool_decide (is_Some _)); mrun; [done|].
      injection Hd as <- _. split; [done|]. by exists d.
    - destruct (smtp_ParseAddress E address) as [addr|]; mrun; [|done].
      destruct (checkAddressAvailable E addr w) as [w0 [e|[]]] eqn:Hc; [done|].
      pose proof (checkAddressAvailable_state _ _ _ _ Hc) as ->.
      injection Hd as <- _. split; [done|]. exists addr. split; [done|].
      unfold checkAddressAvailable in Hc. mrun.
      destruct (domainsAt w _ !! _); [done|by mrun]. }
  mrun. unfold accountsAt in H at 1. mrun. rewrite lookup_fresh, store_fresh in H. mrun.
  match type of H with context [WriteDynamicLocked E ?c ?w0] =>
    destruct (WriteDynamicLocked E c w0) as [w3 [e|[]]] eqn:Hp;
    apply WriteDynamicLocked_inv in Hp as [(msg & _ & -> & Hr)|(parsed & _ & -> & Hr)];
    try discriminate Hr
  end; mrun; [done|]. injection H as <-.
  exists a, destAddr. split; [done|]. split; [|done].
  rewrite snapshot_published. unfold view, domainsAt, accountsAt. mrun.
  by rewrite lookup_fresh.
Qed.

Lemma AddressAdd_again address account w :
  is_Some (sAccounts (snapshot w) !! account) →
  addressAccepted E w address →
  indexed E w address →
  ∃ e, AddressAdd E address account w = (w, inl e) ∧
       isErrRequest e = true ∧
       (e = ErrCatchallConfigured
        ∨ ∃ canon, e = ErrAddressNotAvailable (ErrCanonicalizedConfigured canon)).
Proof.
  cbn [snapshot view sDomains sAccounts]. unfold addressAccepted, indexed.
  cbn [snapshot view sDomains sAccounts].
  intros [a Ha] Hacc Hidx. unfold AddressAdd. mrun. rewrite Ha. mrun.
  destruct (HasPrefix address "@").
  - destruct Hacc as (d & Hp & Hdom). specialize (Hidx d Hp).
    rewrite Hp. mrun.
    rewrite (bool_decide_eq_true_2 _ Hdom). cbn [negb].
    rewrite (bool_decide_eq_true_2 _ Hidx). mrun.
    exists ErrCatchallConfigured. split; [done|]. split; [done|]. by left.
  - destruct Hacc as (addr & Hp & [dc Hdc]). specialize (Hidx addr dc Hp Hdc).
    rewrite Hp. mrun. unfold checkAddressAvailable. mrun. rewrite Hdc. mrun.
    rewrite (bool_decide_eq_true_2 _ Hidx). mrun.
    eexists. split; [done|]. split; [done|]. right. by eexists.
Qed.

Lemma DKIMAdd_hash domain selector algorithm hash hr br seal headers lifetime w w' :
  DKIMAdd E domain selector algorithm hash hr br seal headers lifetime w = (w', inr tt) →
  hash = "sha256" ∨ hash = "sha1".
Proof.
  unfold DKIMAdd.
  destruct (bool_decide (hash = "sha256")) eqn:H1;
    [apply bool_decide_eq_true in H1; by left|].
  destruct (bool_decide (hash = "sha1")) eqn:H2;
    [apply bool_decide_eq_true in H2; by right|].
  cbn [orb negb]. by mrun.
Qed.

Lemma DKIMAdd_again domain selector algorithm hash hr br seal headers lifetime d key w w1 :
  hash = "sha256" ∨ hash = "sha1" →
  generateKey E selector domain algorithm w = (w1, inr key) →
  sDomains (snapshot w) !! Domain_Name E domain = Some d →
  is_Some (config.Selectors (config.DKIM_ d) !! Domain_Name E selector) →
  DKIMAdd E domain selector algorithm hash hr br seal headers lifetime w
  = (w1, inl ErrSelectorExists).
Proof.
  intros Hh Hk Hd Hs. unfold DKIMAdd.
  assert (negb (bool_decide (hash = "sha256") || bool_decide (hash = "sha1")) = false)
    as ->.
  { destruct Hh as [->| ->]; [done|]. rewrite (bool_decide_eq_true_2 ("sha1" = "sha1")) by done.
    by rewrite orb_true_r. }
  pose proof Hk as Hn. apply generateKey_inv in Hn as (n & -> & _).
  unfold generateKey in Hk. unfold bind at 1. rewrite Hk.
  cbn [snapshot view sDomains] in Hd. mrun. unfold domainsAt in *. mrun. rewrite Hd. mrun.
  by rewrite bool_decide_eq_true_2.
Qed.


(** ** Removing members of an alias *)

Lemma filter_ne_length (addr : string) (l : list string) :
  length (filter (λ a, a ≠ addr) l) < length l ↔ addr ∈ l.
Proof.
  induction l as [|x l IH]; [cbn; split; [lia|by intros ?%elem_of_nil]|].
  rewrite filter_cons. destruct (decide (x ≠ addr)) as [Hne|Heq].
  - cbn [length]. rewrite elem_of_cons. split.
    + intros Hlt. right. apply IH. lia.
    + intros [->|Hin]; [done|]. apply IH in Hin. lia.
  - apply dec_stable in Heq as ->. cbn [length]. split; [intros _; left|intros _].
    pose proof (length_filter (λ a, a ≠ addr) l). lia.
Qed.

Lemma filter_ne_id (addr : string) (l : list string) :
  addr ∉ l → filter (λ a, a ≠ addr) l = l.
Proof.
  induction l as [|x l IH]; [done|]. intros Hn. apply not_elem_of_cons in Hn as [Hne Hn].
  rewrite filter_cons_True by done. by rewrite IH.
Qed.

Lemma deleteRequested_rest members addresses :
  (deleteRequested members addresses).2 = filter (λ a, a ∉ members) addresses.
Proof.
  revert addresses. induction members as [|addr rest IH]; intros addresses.
  { cbn. induction addresses as [|a l IHl]; [done|].
    rewrite filter_cons_True by apply not_elem_of_nil. by rewrite <- IHl. }
  cbn [deleteRequested]. cbv zeta.
  assert (filter (λ a, a ∉ addr :: rest) addresses
          = filter (λ a, a ∉ rest) (filter (λ a, a ≠ addr) addresses)) as ->.
  { rewrite list_filter_filter. apply list_filter_iff. intros a.
    rewrite not_elem_of_cons. tauto. }
  destruct (bool_decide (_ < _)); cbn [snd]; apply IH.
Qed.

Lemma deleteRequested_count members addresses x :
  length (filter (λ m, m = x) (deleteRequested members addresses).1)
  = length (filter (λ m, m = x) members) - (if decide (x ∈ addresses) then 1 else 0).
Proof.
  revert addresses. induction members as [|addr rest IH]; intros addresses.
  { done. }
  cbn [deleteRequested]. cbv zeta.
  destruct (bool_decide (_ < _)) eqn:Hlt.
  - apply bool_decide_eq_true in Hlt. apply filter_ne_length in Hlt.
    rewrite IH. rewrite filter_cons. destruct (decide (addr = x)) as [->|Hne].
    + rewrite (decide_True (P := x ∈ addresses)) by done.
      rewrite decide_False; [cbn [length]; lia|].
      intros Hin. apply list_elem_of_filter in Hin as [Hne _]. done.
    + destruct (decide (x ∈ addresses)) as [Hx|Hx].
      * rewrite decide_True; [done|]. apply list_elem_of_filter. split; [congruence|done].
      * rewrite decide_False; [done|]. intros Hin.
        by apply list_elem_of_filter in Hin as [_ Hin].
  - apply bool_decide_eq_false in Hlt. rewrite filter_ne_length in Hlt.
    rewrite filter_ne_id by done. cbn [fst].
    rewrite !filter_cons. destruct (decide (addr = x)) as [->|Hne].
    + cbn [length]. rewrite IH. rewrite decide_False by done. lia.
    + by rewrite IH.
Qed.

Lemma deleteRequested_sublist members addresses :
  (deleteRequested members addresses).1 `sublist_of` members.
Proof.
  revert addresses. induction members as [|addr rest IH]; intros addresses.
  { done. }
  cbn [deleteRequested]. cbv zeta. destruct (bool_decide (_ < _)); cbn [fst].
  - apply sublist_cons. apply IH.
  - apply sublist_skip. apply IH.
Qed.

(** The member at position [i] is dropped exactly when it is requested and
    does not stand at an earlier position, [seen] being the members before
    the ones at hand. *)
Lemma deleteRequested_positions (seen members addresses : list string) :
  (deleteRequested members (filter (λ a, a ∉ seen) addresses)).1
  = concat (imap (λ i m, if bool_decide (m ∈ addresses ∧ m ∉ seen ++ take i members)
                         then [] else [m]) members).
Proof.
  revert seen. induction members as [|a rest IH]; intros seen; [done|].
  cbn [deleteRequested]. cbv zeta.
  rewrite imap_cons. cbn [concat take]. rewrite app_nil_r.
  assert (filter (λ x, x ≠ a) (filter (λ x, x ∉ seen) addresses)
          = filter (λ x, x ∉ seen ++ [a]) addresses) as Hnext.
  { rewrite list_filter_filter. apply list_filter_iff. intros x.
    rewrite not_elem_of_app, not_elem_of_cons. split.
    - intros [? ?]. split; [done|]. split; [done|apply not_elem_of_nil].
    - intros [? [? _]]. done. }
  assert (imap ((λ i m, if bool_decide (m ∈ addresses ∧ m ∉ seen ++ take i (a :: rest))
                        then [] else [m]) ∘ S) rest
          = imap (λ i m, if bool_decide (m ∈ addresses ∧ m ∉ (seen ++ [a]) ++ take i rest)
                         then [] else [m]) rest) as Himap.
  { apply imap_ext. intros i x _. cbn [compose take]. by rewrite <- app_assoc. }
  destruct (bool_decide (length _ < length _)) eqn:Hlt; cbn [fst];
    rewrite Hnext, IH, Himap.
  - apply bool_decide_eq_true, filter_ne_length, list_elem_of_filter in Hlt as [Hns Hin].
    by rewrite bool_decide_eq_true_2.
  - apply bool_decide_eq_false in Hlt.
    rewrite filter_ne_length, list_elem_of_filter in Hlt.
    rewrite bool_decide_eq_false_2; [done|]. intros [? ?]. by apply Hlt.
Qed.

(** X1.  The closure that [AliasAddressesRemove] passes to
    [slices.DeleteFunc] drops the first occurrence of every requested
    address and nothing else: the member at a position is dropped exactly
    when it is requested and does not stand at an earlier position, so that
    a member that is listed twice and requested stays listed once, at its
    second place.  The members kept are thus a sublist of the members, in
    which every requested address has lost one occurrence; what is left of
    the requested addresses are those that are no members, in their
    order. *)
Theorem deleteRequested_first_occurrences (members addresses : list string) :
  let r := deleteRequested members addresses in
  r.1 = concat (imap (λ i m, if bool_decide (m ∈ addresses ∧ m ∉ take i members)
                             then [] else [m]) members) ∧
  r.2 = filter (λ a, a ∉ members) addresses ∧
  r.1 `sublist_of` members ∧
  ∀ x, length (filter (λ m, m = x) r.1)
       = length (filter (λ m, m = x) members) - (if decide (x ∈ addresses) then 1 else 0).
Proof.
  cbv zeta. split.
  { pose proof (deleteRequested_positions [] members addresses) as H.
    cbn [app] in H.
    assert (filter (λ a, a ∉ []) addresses = addresses) as Hall.
    { clear. induction addresses as [|a l IH]; [done|].
      rewrite filter_cons_True by apply not_elem_of_nil. by rewrite IH. }
    by rewrite Hall in H. }
  split; [apply deleteRequested_rest|].
  split; [apply deleteRequested_sublist|]. intros x. apply deleteRequested_count.
Qed.


(** ** The login addresses kept by AddressRemove *)

Lemma filterFromID_zip (keep : smtp.Address → bool) (i : nat)
    (parsedFrom : list smtp.Address) (raw : list string) :
  (i + length parsedFrom ≤ length raw)%nat →
  filterFromID keep i parsedFrom raw
  = Some (filter (λ p, keep p.1 = true) (zip parsedFrom (drop i raw))).*2.
Proof.
  revert i. induction parsedFrom as [|fa rest IH]; intros i Hlen; [done|].
  cbn [length] in Hlen. cbn [filterFromID].
  destruct (lookup_lt_is_Some_2 raw i ltac:(lia)) as [s Hs].
  rewrite (drop_S _ _ _ Hs). cbn [zip zip_with]. rewrite filter_cons. cbn [fst].
  rewrite Hs. destruct (keep fa) eqn:Hk.
  - rewrite decide_True by done. rewrite IH by lia. done.
  - rewrite decide_False by done. apply IH. lia.
Qed.

Lemma filterFromID_None (keep : smtp.Address → bool) (i : nat)
    (parsedFrom : list smtp.Address) (raw : list string) :
  filterFromID keep i parsedFrom raw = None ↔
  ∃ j fa, parsedFrom !! j = Some fa ∧ keep fa = true ∧ (length raw ≤ i + j)%nat.
Proof.
  revert i. induction parsedFrom as [|fa rest IH]; intros i.
  { split; [done|]. by intros (j & fa & Hj & _). }
  cbn [filterFromID]. destruct (keep fa) eqn:Hk.
  - destruct (raw !! i) as [s|] eqn:Hs.
    + rewrite fmap_None, IH. split.
      * intros (j & fa' & Hj & Hk' & Hlen). exists (S j), fa'. split; [done|].
        split; [done|lia].
      * intros ([|j] & fa' & Hj & Hk' & Hlen).
        { apply lookup_lt_Some in Hs. lia. }
        exists j, fa'. split; [done|]. split; [done|lia].
    + split; [intros _|done]. exists 0, fa. split; [done|]. split; [done|].
      apply lookup_ge_None in Hs. lia.
  - rewrite IH. split.
    + intros (j & fa' & Hj & Hk' & Hlen). exists (S j), fa'. split; [done|].
      split; [done|lia].
    + intros ([|j] & fa' & Hj & Hk' & Hlen).
      { injection Hj as <-. congruence. }
      exists j, fa'. split; [done|]. split; [done|lia].
Qed.

(** X3.  The loop of [AddressRemove] over [a.ParsedFromIDLoginAddresses]
    takes [a.FromIDLoginAddresses[i]] for the parsed addresses it keeps.
    When the parsed list is not longer than the raw list the result is the
    raw entries at the positions of the kept addresses, in order; the loop
    indexes out of range exactly when a kept parsed address stands at a
    position that the raw list does not have. *)
Theorem filterFromID_bounds (keep : smtp.Address → bool)
    (parsedFrom : list smtp.Address) (raw : list string) :
  ((length parsedFrom ≤ length raw)%nat →
   filterFromID keep 0 parsedFrom raw
   = Some (filter (λ p, keep p.1 = true) (zip parsedFrom raw)).*2)
  ∧ (filterFromID keep 0 parsedFrom raw = None ↔
     ∃ j fa, parsedFrom !! j = Some fa ∧ keep fa = true ∧ (length raw ≤ j)%nat).
Proof.
  split.
  - intros Hlen. by rewrite filterFromID_zip by (cbn; lia).
  - by rewrite filterFromID_None.
Qed.

(** ** moveAwayKeys *)

Lemma moveAwayKey_values used t st :
  (map_to_list (files (moveAwayKey E used t st).1)).*2 ≡ₚ (map_to_list (files st.1)).*2.
Proof.
  unfold moveAwayKey. fold (keySource E t) (keyDestination E t).
  destruct (_ || _); [done|].
  unfold os_Stat. destruct (io_fault E (IOStat _) _); [done|].
  destruct (fs_exists _ _) eqn:Hex; [done|].
  apply fs_exists_false in Hex as [Hex _].
  destruct (os_Rename E _ _ _) as [f2|] eqn:Hr; cbn [fst]; [|by rewrite files_MkdirAll].
  unfold os_Rename in Hr. destruct (io_fault E _ _); [done|].
  rewrite files_MkdirAll in Hr.
  destruct (files st.1 !! keySource E t) as [data|] eqn:Hsrc; [|done].
  destruct (fs_isDir E _ _); [|done]. injection Hr as <-. cbn [files].
  rewrite map_to_list_insert by (rewrite lookup_delete_ne; [done|congruence]).
  rewrite <- (map_to_list_delete (files st.1) (keySource E t) data Hsrc). done.
Qed.

Lemma moveAwayKeysOver_values used sels st :
  (map_to_list (files (moveAwayKeysOver E sels used st).1)).*2
    ≡ₚ (map_to_list (files st.1)).*2
  ∧ dirs st.1 ⊆ dirs (moveAwayKeysOver E sels used st).1.
Proof.
  revert st. induction sels as [|t sels IH]; intros st; [done|].
  rewrite moveAwayKeysOver_cons.
  destruct (IH (moveAwayKey E used t st)) as [Hv Hd].
  pose proof (moveAwayKey_values used t st) as Hv'.
  pose proof (moveAwayKey_effect used t st) as Heff. cbv zeta in Heff.
  destruct Heff as (_ & Hd' & _).
  split; [by rewrite Hv|]. by etrans.
Qed.

Lemma moveAwayKeysOver_other used sels st k :
  (∀ sel, sel ∈ sels → keySource E sel ≠ k ∧ keyDestination E sel ≠ k) →
  files (moveAwayKeysOver E sels used st).1 !! k = files st.1 !! k.
Proof.
  revert st. induction sels as [|t sels IH]; intros st Hk; [done|].
  rewrite moveAwayKeysOver_cons. rewrite IH.
  - apply moveAwayKey_other; apply (Hk t); left.
  - intros sel Hsel. apply Hk. by right.
Qed.

(** X4.  [moveAwayKeys] only renames: whatever the selectors, the used paths
    and the failures of the operating system, the contents of the files
    after it are the contents before it (no file is deleted or
    overwritten), no directory is removed, and a path that is neither the
    key file of one of the selectors nor its place under old/ holds what it
    held. *)
Theorem moveAwayKeys_only_renames (sels : gmap string config.Selector)
    (usedKeyPaths : gset string) (w : World) :
  let w' := (moveAwayKeys E sels usedKeyPaths w).1 in
  (map_to_list (files (fs w'))).*2 ≡ₚ (map_to_list (files (fs w))).*2
  ∧ dirs (fs w) ⊆ dirs (fs w')
  ∧ (∀ k, (∀ name sel, sels !! name = Some sel →
                       keySource E sel ≠ k ∧ keyDestination E sel ≠ k) →
          files (fs w') !! k = files (fs w) !! k)
  ∧ snapshot w' = snapshot w.
Proof.
  cbv zeta. rewrite moveAwayKeys_run. cbv zeta. cbn [fst fs set_fs set_logged].
  destruct (moveAwayKeysOver_values usedKeyPaths (map_to_list sels).*2 (fs w, logged w))
    as [Hv Hd].
  split; [done|]. split; [done|]. split; [|done].
  intros k Hk. apply (moveAwayKeysOver_other usedKeyPaths _ (fs w, logged w)).
  intros sel Hsel. apply list_elem_of_fmap in Hsel as ([name sel'] & -> & Hin).
  apply elem_of_map_to_list in Hin. by apply (Hk name).
Qed.

(** ** Key files of MakeDomainConfig and DKIMAdd *)


Lemma generateKey_request_error selector domain algorithm w w' e :
  generateKey E selector domain algorithm w = (w', inl e) →
  ∃ c, e = ErrMakingDKIMKey c.
Proof.
  unfold generateKey, wrap.
  destruct (_ w) as [w1 [e1|v]]; [|done]. intros [= _ <-]. by eexists.
Qed.

(** Every way [DKIMAdd] fails. *)
Lemma DKIMAdd_err domain selector algorithm hash hr br seal headers lifetime w w' e :
  (∀ f, ConfigDynamicDirPath E f ≠ "") →
  DKIMAdd E domain selector algorithm hash hr br seal headers lifetime w = (w', inl e) →
  cleanedUp E (fs w) (fs w') ∧
  (wf w → snapshot w' = snapshot w) ∧
  ((e = ErrUnknownHash hash ∧ hash ≠ "sha256" ∧ hash ≠ "sha1" ∧ w' = w)
   ∨ (∃ c, e = ErrMakingDKIMKey c)
   ∨ (e = ErrDomainNotExist ∧ sDomains (snapshot w) !! Domain_Name E domain = None)
   ∨ (e = ErrSelectorExists ∧
      ∃ d, sDomains (snapshot w) !! Domain_Name E domain = Some d ∧
           is_Some (config.Selectors (config.DKIM_ d) !! Domain_Name E selector))
   ∨ (∃ c, e = ErrWritingKeyFile c)
   ∨ (∃ msg, e = ErrWritingDomainsConf (ErrConfig msg))).
Proof.
  unfold DKIMAdd. intros Hpath H.
  destruct (bool_decide (hash = "sha256")) eqn:H256.
  2: destruct (bool_decide (hash = "sha1")) eqn:H1.
  3:{ cbn [orb negb] in H. mrun. injection H as <- <-.
      apply bool_decide_eq_false in H256, H1.
      split; [by apply cleanedUp_refl|]. split; [done|]. by left. }
  all: cbn [orb negb] in H.
  all: change (wrap ErrMakingDKIMKey _) with (generateKey E selector domain algorithm) in H.
  all: unfold bind at 1 in H.
  all: destruct (generateKey E selector domain algorithm w) as [w1 [e1|[privKey kind]]] eqn:Hk.
  1,3: injection H as <- <-; pose proof Hk as Hk';
       apply generateKey_inv in Hk as (n & -> & _);
       apply generateKey_request_error in Hk' as [c ->];
       split; [by apply cleanedUp_refl|]; split; [done|]; right; left; by eexists.
  all: apply generateKey_inv in Hk as (n & -> & _); cbn [fst snd] in *.
  all: mrun; change (domainsAt (set_readings _ w)) with (domainsAt w) in H.
  all: cbn [snapshot view sDomains].
  all: destruct (domainsAt w (config.Domains (Conf_Dynamic w)) !! Domain_Name E domain)
         as [d|] eqn:Hd; mrun.
  2,4: injection H as <- <-; split; [by apply cleanedUp_refl|]; split; [done|];
       right; right; left; done.
  all: destruct (bool_decide (is_Some _)) eqn:Hsel; mrun.
  1,3: injection H as <- <-; apply bool_decide_eq_true in Hsel;
       split; [by apply cleanedUp_refl|]; split; [done|]; right; right; right; left;
       split; [done|]; by exists d.
  all: unfold time_Now in H; mrun.
  all: match type of H with context [writeFile E ?p ?data ?w0] =>
         destruct (writeFile E p data w0) as [w2 [e2|[]]] eqn:Hw;
         [apply writeFile_failed in Hw as (f' & -> & Hw)
         |apply writeFile_inv in Hw as (f' & -> & Hw)]
       end; mrun.
  1,3: injection H as <- <-; split; [done|]; split; [done|];
       right; right; right; right; left; by eexists.
  all: destruct Hw as [Hnone Hfiles].
  all: match type of H with context [WriteDynamicLocked E ?c ?w0] =>
         destruct (WriteDynamicLocked E c w0) as [w3 [e3|[]]] eqn:Hp;
         apply WriteDynamicLocked_inv in Hp as [(msg & _ & -> & Hr)|(parsed & _ & -> & Hr)];
         try discriminate Hr
       end; mrun; try discriminate H.
  all: injection Hr as ->.
  all: match type of H with context [bool_decide (?p = "")] =>
         destruct (bool_decide (p = "")) eqn:Hempty
       end.
  all: injection H as <- <-; mrun.
  all: split; [|split; [|right; right; right; right; right; by exists msg]].
  all: try (intros [Hwd Hwa]; unfold snapshot, view, domainsAt, accountsAt; mrun;
            by rewrite list_lookup_insert_ne, lookup_app_l by lia).
  all: try (by apply (cleanedUp_created (fs w) f' f' _ privKey);
                 [| |apply cleanedUp_refl]).
  all: apply bool_decide_eq_true in Hempty; by apply Hpath in Hempty.
Qed.


(** X7.  [DomainAdd] for an account that exists already succeeds only with
    an empty localpart, and then the account has gained the destination
    postmaster@<domain>, with an empty destination configuration, and kept
    its other destinations and settings; the postmaster account of the
    static configuration is left as it is.  Every other account is as
    before. *)
Theorem DomainAdd_existing_account (disabled : bool) (domain : dns.Domain)
    (accountName : string) (localpart : smtp.Localpart) (acc : config.Account)
    (w w' : World) :
  wf w →
  sAccounts (snapshot w) !! accountName = Some acc →
  DomainAdd E disabled domain accountName localpart w = (w', inr tt) →
  localpart = "" ∧
  sAccounts (snapshot w') =
    (if bool_decide (accountName = config.Postmaster_Account (Conf_Static E))
     then sAccounts (snapshot w)
     else <[accountName :=
              Account_with_Destinations acc
                (<[Address_String E (smtp.NewAddress "postmaster" domain)
                   := config.Destination_zero]> (config.Destinations acc))]>
            (sAccounts (snapshot w))).
Proof.
  intros Hwf Hacc H.
  destruct (sDomains (snapshot w) !! Domain_Name E domain) as [d|] eqn:Hd.
  { rewrite DomainAdd_present in H by done. discriminate. }
  eapply DomainAdd_inv in H; [|exact Hwf|exact Hd].
  destruct H as [(c & [=] & _)|(made & dA & dB & _ & _ & _ & _ & _ & _ & Hcases)].
  cbv zeta in Hcases.
  destruct Hcases
    as [[[([=] & _)|[([=] & _)|([=] & _)]] _]
       |(_ & Hlp & [(msg & [=] & _)|(_ & _ & ->)])].
  assert (localpart = "") as ->.
  { destruct (decide (localpart = "")) as [|Hne]; [done|].
    apply Hlp in Hne. congruence. }
  split; [done|]. cbn [sAccounts]. unfold accountsForDomain. rewrite Hacc.
  by destruct (bool_decide _).
Qed.

(** ** DomainRemove, DKIMRemove, DomainSave *)


(** X9.  When [DKIMRemove] succeeds, the selector was a selector of the
    domain; in the published configuration it is no selector of the domain
    any more and its name is off the list of selectors to sign with, the
    other names of that list keeping their order; the other selectors and
    settings of the domain, the other domains and the accounts are as
    before. *)
Theorem DKIMRemove_effect (domain selector : dns.Domain) (w w' : World) :
  DKIMRemove E domain selector w = (w', inr tt) →
  let name := Domain_Name E domain in
  let sname := Domain_Name E selector in
  ∃ d d',
    sDomains (snapshot w) !! name = Some d ∧
    is_Some (config.Selectors (config.DKIM_ d) !! sname) ∧
    sDomains (snapshot w') !! name = Some d' ∧
    config.Selectors (config.DKIM_ d') !! sname = None ∧
    (∀ k, k ≠ sname →
          config.Selectors (config.DKIM_ d') !! k = config.Selectors (config.DKIM_ d) !! k) ∧
    config.Sign (config.DKIM_ d')
      = filter (λ n, n ≠ sname) (config.Sign (config.DKIM_ d)) ∧
    Domain_with_DKIM d' (config.DKIM_ d) = d ∧
    (∀ n, n ≠ name → sDomains (snapshot w') !! n = sDomains (snapshot w) !! n) ∧
    sAccounts (snapshot w') = sAccounts (snapshot w).
Proof.
  intros H name sname. apply DKIMRemove_inv in H as (d & sel & Hd & Hsel & Hs & _).
  fold name sname in Hd, Hsel, Hs.
  eexists d, _. rewrite Hs. cbn [sDomains sAccounts].
  split; [done|]. split; [by rewrite Hsel|].
  split; [apply lookup_insert_eq|]. cbn [config.DKIM_ Domain_with_DKIM config.Selectors config.Sign].
  split; [apply lookup_delete_eq|].
  split; [intros k Hk; by apply lookup_delete_ne|].
  split; [done|]. split; [by destruct d|].
  split; [|done]. intros n Hn. by apply lookup_insert_ne.
Qed.

(** X10.  [DomainSave] hands the domain to [xmodify]; an error of [xmodify]
    is returned as it is, a domain that is not configured is a request
    error, and a refusal of the publish step is wrapped; each leaves the
    configuration and the files as they were.  On success exactly the named
    domain is replaced, by what [xmodify] returned. *)
Theorem DomainSave_cases (name : string) (xmodify : config.Domain → Error + config.Domain)
    (w : World) :
  wf w →
  match DomainSave E name xmodify w with
  | (w', inr _) =>
    ∃ d d',
      sDomains (snapshot w) !! name = Some d ∧ xmodify d = inr d' ∧
      snapshot w' = {| sDomains := <[name := d']> (sDomains (snapshot w));
                       sAccounts := sAccounts (snapshot w) |} ∧
      fs w' = fs w
  | (w', inl e) =>
    snapshot w' = snapshot w ∧ fs w' = fs w ∧
    ((e = ErrDomainNotPresent ∧ isErrRequest e = true ∧
      sDomains (snapshot w) !! name = None)
     ∨ (∃ d, sDomains (snapshot w) !! name = Some d ∧ xmodify d = inl e)
     ∨ (∃ d d' msg,
          sDomains (snapshot w) !! name = Some d ∧ xmodify d = inr d' ∧
          e = ErrWritingDomainsConf (ErrConfig msg)))
  end.
Proof.
  intros Hwf.
  destruct (DomainSave E name xmodify w) as [w' [e|[]]] eqn:H.
  - pose proof H as H'. eapply DomainSave_err in H' as [Hs Hf]; [|done].
    split; [done|]. split; [done|].
    unfold DomainSave in H. mrun. cbn [snapshot view sDomains].
    destruct (domainsAt w (config.Domains (Conf_Dynamic w)) !! name) as [d|] eqn:Hd; mrun.
    2:{ injection H as _ <-. by left. }
    destruct (xmodify d) as [e'|d'] eqn:Hx; mrun.
    { injection H as _ <-. right. left. by exists d. }
    match type of H with context [WriteDynamicLocked E ?c ?w0] =>
      destruct (WriteDynamicLocked E c w0) as [w3 [e'|[]]] eqn:Hp;
      apply WriteDynamicLocked_inv in Hp as [(msg & _ & -> & Hr)|(parsed & _ & -> & Hr)];
      try discriminate Hr
    end; mrun; [|done].
    injection H as _ <-. injection Hr as ->. right. right. by exists d, d', msg.
  - by apply DomainSave_ok in H.
Qed.

(** ** AccountSave, ConfigSave *)

Lemma AccountSave_ok account xmodify w w' :
  AccountSave E account xmodify w = (w', inr tt) →
  ∃ acc,
    sAccounts (snapshot w) !! account = Some acc ∧
    snapshot w' = {| sDomains := sDomains (snapshot w);
                     sAccounts := <[account := xmodify acc]> (sAccounts (snapshot w)) |} ∧
    fs w' = fs w.
Proof.
  intros H. unfold AccountSave in H. mrun. cbn [snapshot view sDomains sAccounts].
  destruct (accountsAt w (config.Accounts (Conf_Dynamic w)) !! account) as [acc|] eqn:Ha;
    mrun; [|done].
  rewrite accountsAt_new_accounts, store_fresh in H.
  match type of H with context [WriteDynamicLocked E ?c ?w0] =>
    destruct (WriteDynamicLocked E c w0) as [w3 [e|[]]] eqn:Hp;
    apply WriteDynamicLocked_inv in Hp as [(msg & _ & -> & Hr)|(parsed & _ & -> & Hr)];
    try discriminate Hr
  end; mrun; [done|]. injection H as <-.
  exists acc. split; [done|]. split; [|done].
  rewrite snapshot_published. unfold view, domainsAt, accountsAt. mrun.
  by rewrite lookup_fresh.
Qed.

(** X11.  [AccountSave] is refused with the request error "account not
    present" for an account that is not configured, and returns the wrapped
    error of the publish step when that refuses; both leave the
    configuration and the files as they were.  On success exactly the named
    account is replaced, by what [xmodify] made of it; the other accounts and
    the domains are as before. *)
Theorem AccountSave_cases (account : string) (xmodify : config.Account → config.Account)
    (w : World) :
  wf w →
  match AccountSave E account xmodify w with
  | (w', inr _) =>
    ∃ acc,
      sAccounts (snapshot w) !! account = Some acc ∧
      snapshot w' = {| sDomains := sDomains (snapshot w);
                       sAccounts := <[account := xmodify acc]> (sAccounts (snapshot w)) |} ∧
      fs w' = fs w
  | (w', inl e) =>
    snapshot w' = snapshot w ∧ fs w' = fs w ∧
    ((e = ErrAccountNotPresent ∧ isErrRequest e = true ∧
      sAccounts (snapshot w) !! account = None)
     ∨ (∃ msg, e = ErrWritingDomainsConf (ErrConfig msg) ∧
               is_Some (sAccounts (snapshot w) !! account)))
  end.
Proof.
  intros Hwf.
  destruct (AccountSave E account xmodify w) as [w' [e|[]]] eqn:H;
    [|by apply AccountSave_ok in H].
  unfold AccountSave in H. mrun. cbn [snapshot view sDomains sAccounts].
  destruct (accountsAt w (config.Accounts (Conf_Dynamic w)) !! account) as [acc|] eqn:Ha;
    mrun.
  2:{ injection H as <- <-. split; [done|]. split; [done|]. by left. }
  rewrite accountsAt_new_accounts, store_fresh in H.
  match type of H with context [WriteDynamicLocked E ?c ?w0] =>
    destruct (WriteDynamicLocked E c w0) as [w3 [e'|[]]] eqn:Hp;
    apply WriteDynamicLocked_inv in Hp as [(msg & _ & -> & Hr)|(parsed & _ & -> & Hr)];
    try discriminate Hr
  end; mrun; [|done].
  injection H as <- <-. injection Hr as ->.
  split; [|split; [done|right; by exists msg]].
  exact (snapshot_withAccounts w _ Hwf).
Qed.

(** X12.  Two calls of [AccountSave] for one account that both succeed
    publish what one call with the composed change publishes: the account
    is [g (f acc)], every other account and the domains are as before the
    first call.  A call that changes nothing publishes the configuration
    that was published. *)
Theorem AccountSave_twice (account : string) (f g : config.Account → config.Account)
    (w w1 w2 : World) :
  AccountSave E account f w = (w1, inr tt) →
  (AccountSave E account g w1 = (w2, inr tt) →
   ∃ acc, sAccounts (snapshot w) !! account = Some acc ∧
          snapshot w2 = {| sDomains := sDomains (snapshot w);
                           sAccounts := <[account := g (f acc)]> (sAccounts (snapshot w)) |})
  ∧ ((∀ acc, f acc = acc) → snapshot w1 = snapshot w).
Proof.
  intros H1. apply AccountSave_ok in H1 as (acc & Ha & Hs1 & _). split.
  - intros H2. apply AccountSave_ok in H2 as (acc1 & Ha1 & Hs2 & _).
    exists acc. split; [done|]. rewrite Hs2, Hs1. cbn [sDomains sAccounts].
    rewrite Hs1 in Ha1. cbn [sAccounts] in Ha1. rewrite lookup_insert_eq in Ha1.
    injection Ha1 as <-. by rewrite insert_insert_eq.
  - intros Hid. rewrite Hs1, Hid. rewrite insert_id by done. by destruct (snapshot w).
Qed.

(** X13.  [ConfigSave] with an [xmodify] that only makes new maps returns no
    error but the wrapped error of the publish step, which leaves the
    published configuration as it was; on success the configuration that
    [xmodify] has left in [nc] is the published one. *)
Theorem ConfigSave_cases (xmodify : config.Dynamic → World → World * config.Dynamic)
    (w : World) :
  clones xmodify →
  wf w →
  let made := xmodify (Conf_Dynamic w) w in
  match ConfigSave E xmodify w with
  | (w', inr _) => snapshot w' = view made.1 made.2 ∧ fs w' = fs w
  | (w', inl e) =>
    snapshot w' = snapshot w ∧ fs w' = fs w ∧
    ∃ msg, e = ErrWritingDomainsConf (ErrConfig msg)
  end.
Proof.
  intros Hc [Hwd Hwa] made. unfold ConfigSave. mrun. fold made.
  destruct (Hc (Conf_Dynamic w) w) as (Hconf & Hfs & Hd & Ha). fold made in Hconf, Hfs, Hd, Ha.
  destruct (WriteDynamicLocked E made.2 made.1) as [w3 [e'|[]]] eqn:Hp;
    apply WriteDynamicLocked_inv in Hp as [(msg & _ & -> & Hr)|(parsed & _ & -> & Hr)];
    try discriminate Hr.
  - injection Hr as ->. split; [|split; [done|by exists msg]].
    unfold snapshot, view, domainsAt, accountsAt. rewrite Hconf.
    by rewrite Hd, Ha.
  - split; [|done]. by rewrite snapshot_published.
Qed.

(** ** checkAddressAvailable, AccountAdd, AddressAdd, AccountRemove *)

(** The address in canonical form, as [checkAddressAvailable] looks it up. *)
Lemma checkAddressAvailable_run addr w :
  ∃ r, checkAddressAvailable E addr w = (w, r) ∧
    (r = inr tt ↔
     ∃ dc,
       sDomains (snapshot w) !! Domain_Name E (smtp.Domain_ addr) = Some dc ∧
       AccountDestinations (Conf_Parsed w)
         !! Address_String E
              (smtp.NewAddress (CanonicalLocalpart E (smtp.Localpart_ addr) dc)
                 (smtp.Domain_ addr)) = None ∧
       (∀ sep, sep ∈ LocalpartCatchallSeparatorsEffective E dc →
               Contains (smtp.Localpart_ addr) sep = false) ∧
       config.Aliases dc
         !! Localpart_String E (CanonicalLocalpart E (smtp.Localpart_ addr) dc) = None).
Proof.
  unfold checkAddressAvailable. mrun. cbn [snapshot view sDomains].
  destruct (domainsAt w (config.Domains (Conf_Dynamic w)) !! Domain_Name E (smtp.Domain_ addr))
    as [dc|] eqn:Hd; mrun.
  2:{ eexists. split; [done|]. split; [done|]. by intros (dc & [=] & _). }
  destruct (AccountDestinations (Conf_Parsed w) !! _) as [ad|] eqn:Hi.
  { rewrite bool_decide_eq_true_2 by done. mrun. eexists. split; [done|].
    split; [done|]. intros (dc' & [= <-] & Hn & _). congruence. }
  rewrite bool_decide_eq_false_2 by (by intros [? ?]).
  destruct (head (filter _ _)) as [sep|] eqn:Hh; mrun.
  { eexists. split; [done|]. split; [done|]. intros (dc' & [= <-] & _ & Hsep & _).
    apply head_Some_elem_of in Hh. apply list_elem_of_filter in Hh as [Hc Hin].
    rewrite (Hsep sep Hin) in Hc. done. }
  apply head_None in Hh.
  destruct (config.Aliases dc !! _) as [al|] eqn:Hal.
  { rewrite bool_decide_eq_true_2 by done. mrun. eexists. split; [done|].
    split; [done|]. intros (dc' & [= <-] & _ & _ & Hn). congruence. }
  rewrite bool_decide_eq_false_2 by (by intros [? ?]). mrun.
  eexists. split; [done|]. split; [intros _|done].
  exists dc. split; [done|]. split; [done|]. split; [|done].
  intros sep Hin. destruct (Contains (smtp.Localpart_ addr) sep) eqn:Hc; [|done].
  assert (sep ∈ filter (λ sep, Contains (smtp.Localpart_ addr) sep = true)
                  (LocalpartCatchallSeparatorsEffective E dc)) as Hf
    by (by apply list_elem_of_filter).
  rewrite Hh in Hf. by apply elem_of_nil in Hf.
Qed.

(** X14.  [checkAddressAvailable] changes nothing, and accepts an address
    exactly when its domain is configured, its canonical form is not in the
    index of destinations, its localpart contains none of the catchall
    separators of the domain, and its canonical localpart is not the name
    of an alias of the domain. *)
Theorem checkAddressAvailable_accepts (addr : smtp.Address) (w : World) :
  (checkAddressAvailable E addr w).1 = w ∧
  ((checkAddressAvailable E addr w).2 = inr tt ↔
   ∃ dc,
     sDomains (snapshot w) !! Domain_Name E (smtp.Domain_ addr) = Some dc ∧
     AccountDestinations (Conf_Parsed w)
       !! Address_String E
            (smtp.NewAddress (CanonicalLocalpart E (smtp.Localpart_ addr) dc)
               (smtp.Domain_ addr)) = None ∧
     (∀ sep, sep ∈ LocalpartCatchallSeparatorsEffective E dc →
             Contains (smtp.Localpart_ addr) sep = false) ∧
     config.Aliases dc
       !! Localpart_String E (CanonicalLocalpart E (smtp.Localpart_ addr) dc) = None).
Proof.
  destruct (checkAddressAvailable_run addr w) as (r & -> & Hr). done.
Qed.


(** X16.  [AddressAdd] succeeds only for an account that is configured; for
    "@" followed by a domain it stores the catchall destination
    "@" followed by the name of the parsed domain, which must be configured
    and have no catchall yet; for any other address the address must parse
    and be available, and is stored as the parsed address prints.  The new
    destination has an empty configuration, the other destinations of the
    account, its settings, the other accounts and the domains are as before.
    Every failure leaves the configuration and the files as they were. *)
Theorem AddressAdd_cases (address account : string) (w : World) :
  wf w →
  match AddressAdd E address account w with
  | (w', inr _) =>
    ∃ a destAddr,
      sAccounts (snapshot w) !! account = Some a ∧
      (if HasPrefix address "@"
       then ∃ d, dns_ParseDomain E (from1 address) = Some d ∧
                 destAddr = "@" +:+ Domain_Name E d ∧
                 is_Some (sDomains (snapshot w) !! Domain_Name E d) ∧
                 AccountDestinations (Conf_Parsed w) !! destAddr = None
       else ∃ addr, smtp_ParseAddress E address = Some addr ∧
                    destAddr = Address_String E addr ∧
                    (checkAddressAvailable E addr w).2 = inr tt) ∧
      snapshot w' =
        {| sDomains := sDomains (snapshot w);
           sAccounts :=
             <[account := Account_with_Destinations a
                            (<[destAddr := config.Destination_zero]>
                               (config.Destinations a))]>
               (sAccounts (snapshot w)) |} ∧
      fs w' = fs w
  | (w', inl e) =>
    snapshot w' = snapshot w ∧ fs w' = fs w ∧
    ((isErrRequest e = true ∧
      ((e = ErrAccountNotExist ∧ sAccounts (snapshot w) !! account = None)
       ∨ e = ErrParsingDomain ∨ e = ErrDomainNotExist ∨ e = ErrCatchallConfigured
       ∨ e = ErrParsingEmailAddress
       ∨ (∃ c, e = ErrAddressNotAvailable c)))
     ∨ (∃ msg, e = ErrWritingDomainsConf (ErrConfig msg)))
  end.
Proof.
  intros Hwf. destruct (AddressAdd E address account w) as [w' res] eqn:H.
  unfold AddressAdd in H. mrun. cbn [snapshot view sDomains sAccounts].
  destruct (accountsAt w (config.Accounts (Conf_Dynamic w)) !! account) as [a|] eqn:Ha;
    mrun.
  2:{ injection H as <- <-. split; [done|]. split; [done|]. left. split; [done|]. by left. }
  match type of H with (let (_, _) := ?t in _) = _ =>
    destruct t as [w1 r] eqn:Hd
  end.
  assert (w1 = w ∧
          match r with
          | inr destAddr =>
            if HasPrefix address "@"
            then ∃ d, dns_ParseDomain E (from1 address) = Some d ∧
                      destAddr = "@" +:+ Domain_Name E d ∧
                      is_Some (domainsAt w (config.Domains (Conf_Dynamic w))
                               !! Domain_Name E d) ∧
                      AccountDestinations (Conf_Parsed w) !! destAddr = None
            else ∃ addr, smtp_ParseAddress E address = Some addr ∧
                         destAddr = Address_String E addr ∧
                         (checkAddressAvailable E addr w).2 = inr tt
          | inl e =>
            isErrRequest e = true ∧
            (e = ErrParsingDomain ∨ e = ErrDomainNotExist ∨ e = ErrCatchallConfigured
             ∨ e = ErrParsingEmailAddress ∨ ∃ c, e = ErrAddressNotAvailable c)
          end) as [-> Hres].
  { destruct (HasPrefix address "@").
    - destruct (dns_ParseDomain E (from1 address)) as [d|]; mrun.
      2:{ injection Hd as <- <-. split; [done|]. split; [done|]. by left. }
      destruct (domainsAt w _ !! Domain_Name E d) as [dc|] eqn:Hdc.
      2:{ rewrite bool_decide_eq_false_2 in Hd by (by intros [? ?]). mrun.
          injection Hd as <- <-. split; [done|]. split; [done|]. right. by left. }
      rewrite bool_decide_eq_true_2 in Hd by done. cbn [negb] in Hd.
      destruct (AccountDestinations (Conf_Parsed w) !! _) as [ad|] eqn:Hi.
      { rewrite bool_decide_eq_true_2 in Hd by done. mrun. injection Hd as <- <-.
        split; [done|]. split; [done|]. right. right. by left. }
      rewrite bool_decide_eq_false_2 in Hd by (by intros [? ?]). mrun.
      injection Hd as <- <-. split; [done|]. by exists d.
    - destruct (smtp_ParseAddress E address) as [addr|]; mrun.
      2:{ injection Hd as <- <-. split; [done|]. split; [done|]. right. right. right.
          by left. }
      destruct (checkAddressAvailable_run addr w) as (rc & Hc & _). rewrite Hc in Hd.
      destruct rc as [c|[]]; mrun; injection Hd as <- <-; (split; [done|]).
      + split; [done|]. right. right. right. right. by exists c.
      + exists addr. by rewrite Hc. }
  destruct r as [e|destAddr]; mrun.
  { injection H as <- <-.
    destruct Hres as [Hreq Hcases]. split; [done|]. split; [done|]. left.
    split; [done|]. right. destruct Hcases as [->|[->|[->|[->|Hc]]]]; auto 10. }
  rewrite accountsAt_new_accounts, store_fresh in H.
  match type of H with context [WriteDynamicLocked E ?c ?w0] =>
    destruct (WriteDynamicLocked E c w0) as [w3 [e|[]]] eqn:Hw;
    apply WriteDynamicLocked_inv in Hw as [(msg & _ & -> & Hr)|(parsed & _ & -> & Hr)];
    try discriminate Hr
  end; mrun; injection H as <- <-.
  - injection Hr as ->. split; [exact (snapshot_withAccounts w _ Hwf)|].
    split; [done|]. right. by exists msg.
  - exists a, destAddr. split; [done|]. split; [done|]. split; [|done].
    rewrite snapshot_published. unfold view, domainsAt, accountsAt. mrun.
    by rewrite lookup_fresh.
Qed.

(** ** AccountRemove *)

(** X17.  [AccountRemove] fails before it touches anything when the store
    cannot open the account; after that the queued messages of the account
    have been failed, whatever follows.  The configuration is as it was on
    every failure but one: when scheduling the removal of the account
    directory fails, the error is returned although the configuration
    without the account has been published.  On success the account is gone
    from the configuration; every other account and the domains, with the
    members of their aliases, are as before. *)
Theorem AccountRemove_cases (account : string) (w : World) :
  wf w →
  let removed := {| sDomains := sDomains (snapshot w);
                    sAccounts := delete account (sAccounts (snapshot w)) |} in
  let failed := (queue_Fail E (queue w) account).1.1 in
  match AccountRemove E account w with
  | (w', inr _) => snapshot w' = removed ∧ queue w' = failed ∧ fs w' = fs w
  | (w', inl e) =>
    fs w' = fs w ∧
    (((∃ msg, e = ErrOpenAccount msg) ∧ isErrRequest e = true ∧ w' = w)
     ∨ (((∃ msg, e = ErrFailingQueued msg) ∨ (∃ msg, e = ErrCancelingWebhooks msg)
         ∨ (∃ msg, e = ErrListingSuppressed msg) ∨ (∃ a, e = ErrParsingSuppressed a)
         ∨ (∃ a, e = ErrRemovingSuppression a)
         ∨ (∃ msg, e = ErrWritingDomainsConf (ErrConfig msg))) ∧
        snapshot w' = snapshot w ∧ queue w' = failed)
     ∨ ((∃ msg, e = ErrSchedulingRemoval msg) ∧
        snapshot w' = removed ∧ queue w' = failed))
  end.
Proof.
  intros Hwf removed failed. subst removed failed.
  destruct (AccountRemove E account w) as [w' res] eqn:H.
  unfold AccountRemove in H. mrun.
  destruct (OpenAccount E (snapshot w) account) as [msg|]; mrun.
  { injection H as <- <-. split; [done|]. left. split; [by eexists|done]. }
  destruct (queue_Fail E (queue w) account) as [[q' n] [msg|]]; mrun.
  { injection H as <- <-. split; [done|]. right. left.
    split; [left; by eexists|done]. }
  destruct (queue_HookCancel E account).2 as [msg|]; mrun.
  { injection H as <- <-. split; [done|]. right. left.
    split; [right; left; by eexists|done]. }
  destruct (queue_SuppressionList E account) as [msg|sups]; mrun.
  { injection H as <- <-. split; [done|]. right. left.
    split; [right; right; left; by eexists|done]. }
  destruct (removeSuppressions E account sups _) as [w0 [e|[]]] eqn:Hs.
  { pose proof Hs as Hs'. apply removeSuppressions_state in Hs' as ->. mrun.
    injection H as <- <-. split; [done|]. right. left. split; [|done].
    clear -Hs. revert Hs. generalize (set_queue q' w). intros w0.
    induction sups as [|base rest IH]; cbn [removeSuppressions]; mrun; [done|].
    destruct (smtp_ParseAddress E base) as [addr|]; mrun.
    2:{ intros [= <-]. right. right. right. left. by eexists. }
    destruct (queue_SuppressionRemove E account addr); mrun; [|done].
    intros [= <-]. right. right. right. right. left. by eexists. }
  apply removeSuppressions_state in Hs as ->. mrun.
  match type of H with context [WriteDynamicLocked E ?c ?w0] =>
    destruct (WriteDynamicLocked E c w0) as [w3 [e|[]]] eqn:Hp;
    apply WriteDynamicLocked_inv in Hp as [(msg & _ & -> & Hr)|(parsed & _ & -> & Hr)];
    try discriminate Hr
  end; mrun.
  { injection H as <- <-. injection Hr as ->. split; [done|]. right. left.
    split; [do 5 right; by eexists|]. split; [|done].
    exact (snapshot_withAccounts (set_queue q' w) _ Hwf). }
  assert (snapshot
            (set_published
               {| config.Domains := config.Domains (Conf_Dynamic w);
                  config.Accounts := length (accountMaps w) |} parsed
               (view
                  (set_accountMaps
                     (accountMaps w ++
                      [delete account (accountsAt w (config.Accounts (Conf_Dynamic w)))])
                     (set_queue q' w))
                  {| config.Domains := config.Domains (Conf_Dynamic w);
                     config.Accounts := length (accountMaps w) |})
               (set_accountMaps
                  (accountMaps w ++
                   [delete account (accountsAt w (config.Accounts (Conf_Dynamic w)))])
                  (set_queue q' w)))
          = {| sDomains := sDomains (snapshot w);
               sAccounts := delete account (sAccounts (snapshot w)) |}) as Hsnap.
  { rewrite snapshot_published. unfold snapshot, view, domainsAt, accountsAt. mrun.
    by rewrite lookup_fresh. }
  destruct (Account_Remove E account) as [msg|]; mrun; injection H as <- <-.
  - split; [done|]. right. right. split; [by eexists|]. split; [exact Hsnap|done].
  - split; [exact Hsnap|done].
Qed.

(** ** What AddressRemove publishes *)

Lemma filterFromID_sublist (keep : smtp.Address → bool) (i : nat)
    (parsedFrom : list smtp.Address) (raw l : list string) :
  filterFromID keep i parsedFrom raw = Some l → l `sublist_of` drop i raw.
Proof.
  revert i l. induction parsedFrom as [|fa rest IH]; intros i l.
  { intros [= <-]. apply sublist_nil_l. }
  cbn [filterFromID]. destruct (keep fa).
  - destruct (raw !! i) as [s|] eqn:Hs; [|done].
    destruct (filterFromID keep (S i) rest raw) as [l'|] eqn:Hl; [|done].
    intros [= <-]. rewrite (drop_S _ _ _ Hs). apply sublist_skip. by apply IH.
  - intros Hl. apply IH in Hl. etrans; [exact Hl|].
    rewrite <- (Nat.add_1_r i), <- drop_drop. apply sublist_drop.
Qed.

Lemma checkTLSPublicKeys_None index ad dc keys :
  checkTLSPublicKeys E index ad dc keys = None →
  ∀ tpk la xad,
    tpk ∈ keys →
    smtp_ParseAddress E (LoginAddress tpk) = Some la →
    index !! Address_String E
               (smtp.NewAddress (CanonicalLocalpart E (smtp.Localpart_ la) dc)
                  (smtp.Domain_ la)) = Some xad →
    AD_Localpart xad ≠ AD_Localpart ad.
Proof.
  induction keys as [|k keys IH]; intros H tpk la xad Hin Hp Hx.
  { by apply elem_of_nil in Hin. }
  cbn [checkTLSPublicKeys] in H.
  destruct (smtp_ParseAddress E (LoginAddress k)) as [a|] eqn:Hk; [|done].
  apply elem_of_cons in Hin as [->|Hin].
  - rewrite Hp in Hk. injection Hk as <-. rewrite Hx in H.
    destruct (bool_decide (AD_Localpart xad = AD_Localpart ad)) eqn:Hl; [done|].
    by apply bool_decide_eq_false in Hl.
  - destruct (index !! _) as [xad'|].
    + destruct (bool_decide _); [done|]. by apply (IH H tpk la xad).
    + by apply (IH H tpk la xad).
Qed.

(** What a successful [AddressRemove] has found and checked. *)
Lemma AddressRemove_ok address w w' :
  AddressRemove E address w = (w', inr tt) →
  ∃ ad a dom pa dc froms keys,
    AccountDestinations (Conf_Parsed w) !! address = Some ad ∧
    sAccounts (snapshot w) !! AD_Account ad = Some a ∧
    is_Some (config.Destinations a !! address) ∧
    (if HasPrefix address "@"
     then dns_ParseDomain E (from1 address) = Some dom ∧ pa = smtp.NewAddress "" dns.zero
     else smtp_ParseAddress E address = Some pa ∧ dom = smtp.Domain_ pa) ∧
    sDomains (snapshot w) !! Domain_Name E dom = Some dc ∧
    filterFromID (keepFromID E address dom pa dc) 0
      (default [] (ParsedFromIDLoginAddresses (Conf_Parsed w) !! AD_Account ad))
      (config.FromIDLoginAddresses a) = Some froms ∧
    TLSPublicKeyList E (AD_Account ad) = inr keys ∧
    checkTLSPublicKeys E (AccountDestinations (Conf_Parsed w)) ad dc keys = None ∧
    sAccounts (snapshot w') =
      <[AD_Account ad :=
          Account_with_FromIDLoginAddresses
            (Account_with_Destinations a (delete address (config.Destinations a))) froms]>
        (sAccounts (snapshot w)) ∧
    fs w' = fs w.
Proof.
  intros H. unfold AddressRemove in H. mrun.
  cbn [snapshot view sDomains sAccounts].
  destruct (AccountDestinations (Conf_Parsed w) !! address) as [ad|] eqn:Hidx; mrun;
    [|done].
  destruct (accountsAt w (config.Accounts (Conf_Dynamic w)) !! AD_Account ad)
    as [a|] eqn:Ha; mrun; [|done].
  destruct (bool_decide (is_Some (config.Destinations a !! address))) eqn:Hdrop;
    cbn [negb] in H; mrun; [|done].
  apply bool_decide_eq_true in Hdrop.
  match type of H with (let (_, _) := ?t in _) = _ =>
    destruct t as [w1 r0] eqn:Hm0
  end.
  assert (w1 = w ∧
          match r0 with
          | inr (dom, pa) =>
            if HasPrefix address "@"
            then dns_ParseDomain E (from1 address) = Some dom ∧
                 pa = smtp.NewAddress "" dns.zero
            else smtp_ParseAddress E address = Some pa ∧ dom = smtp.Domain_ pa
          | inl _ => True
          end) as [-> Hparse].
  { destruct (HasPrefix address "@");
      [destruct (dns_ParseDomain E (from1 address))
      |destruct (smtp_ParseAddress E address)]; by injection Hm0 as <- <-. }
  clear Hm0. destruct r0 as [e|[dom pa]]; mrun; [done|].
  destruct (domainsAt w (config.Domains (Conf_Dynamic w)) !! Domain_Name E dom)
    as [dc|] eqn:Hdc; mrun; [|done].
  destruct (filterFromID _ _ _ _) as [froms|] eqn:Hff; mrun; [|done].
  destruct (TLSPublicKeyList E (AD_Account ad)) as [msg|keys] eqn:Hk; mrun; [done|].
  destruct (checkTLSPublicKeys _ _ _ _ _) as [e|] eqn:Htls; mrun; [done|].
  destruct (pruneAliases _ _ _ _ _) as [w3 [e|[]]] eqn:Hpr;
    apply pruneAliases_frame in Hpr as (h' & -> & Hlen & Hother); mrun; [done|].
  unfold queue_List in H. mrun.
  destruct (queue_List_fault E (queue w) (AD_Account ad)) as [msg|] eqn:Hq; mrun; [done|].
  destruct (checkQueued _ _ _ _ _ _) as [e|] eqn:Hcq; mrun; [done|].
  unfold accountsAt in H. mrun. fold (accountsAt w (config.Accounts (Conf_Dynamic w))) in H.
  rewrite lookup_fresh, store_fresh in H. mrun.
  match type of H with context [WriteDynamicLocked E ?c ?w0] =>
    destruct (WriteDynamicLocked E c w0) as [w3 [e|[]]] eqn:Hp;
    apply WriteDynamicLocked_inv in Hp as [(msg & _ & -> & Hr)|(parsed & Hprep & -> & Hr)];
    try discriminate Hr
  end; mrun; [done|]. injection H as <-.
  exists ad, a, dom, pa, dc, froms, keys. split_and!; try done.
  unfold accountsAt. mrun. by rewrite lookup_fresh.
Qed.

(** X18.  When [AddressRemove] succeeds, the address was a destination of
    the account that the index names for it; in the published
    configuration that account has lost exactly this destination, its login
    addresses for message ids are a sublist of those it had, its other
    settings are as before, and so is every other account. *)
Theorem AddressRemove_effect (address : string) (w w' : World) :
  AddressRemove E address w = (w', inr tt) →
  ∃ ad a a',
    AccountDestinations (Conf_Parsed w) !! address = Some ad ∧
    sAccounts (snapshot w) !! AD_Account ad = Some a ∧
    sAccounts (snapshot w') !! AD_Account ad = Some a' ∧
    is_Some (config.Destinations a !! address) ∧
    config.Destinations a' = delete address (config.Destinations a) ∧
    config.FromIDLoginAddresses a' `sublist_of` config.FromIDLoginAddresses a ∧
    Account_with_FromIDLoginAddresses
      (Account_with_Destinations a' (config.Destinations a))
      (config.FromIDLoginAddresses a) = a ∧
    (∀ n, n ≠ AD_Account ad →
          sAccounts (snapshot w') !! n = sAccounts (snapshot w) !! n) ∧
    fs w' = fs w.
Proof.
  intros H.
  apply AddressRemove_ok in H
    as (ad & a & dom & pa & dc & froms & keys & Hidx & Ha & Hd & _ & _ & Hff & _ & _ & Hs & Hfs).
  eexists ad, a, _. rewrite Hs.
  split; [done|]. split; [done|]. split; [apply lookup_insert_eq|]. split; [done|].
  split; [done|]. split.
  { cbn. apply filterFromID_sublist in Hff. by rewrite drop_0 in Hff. }
  split; [by destruct a|]. split; [|done].
  intros n Hn. by rewrite lookup_insert_ne.
Qed.

(** X19.  [AddressRemove] does not succeed, and changes nothing, while the
    store lists for the account of the address a TLS public key whose login
    address, its localpart made canonical with the configuration of the
    domain of the address to remove, is in the index under an entry with the
    localpart of the address to remove. *)
Theorem AddressRemove_tls_guard (address : string) (ad xad : AccountDestination)
    (dom : dns.Domain) (dc : config.Domain) (keys : list TLSPublicKey)
    (tpk : TLSPublicKey) (la : smtp.Address) (w : World) :
  wf w →
  AccountDestinations (Conf_Parsed w) !! address = Some ad →
  (if HasPrefix address "@"
   then dns_ParseDomain E (from1 address) = Some dom
   else ∃ pa, smtp_ParseAddress E address = Some pa ∧ dom = smtp.Domain_ pa) →
  sDomains (snapshot w) !! Domain_Name E dom = Some dc →
  TLSPublicKeyList E (AD_Account ad) = inr keys →
  tpk ∈ keys →
  smtp_ParseAddress E (LoginAddress tpk) = Some la →
  AccountDestinations (Conf_Parsed w)
    !! Address_String E
         (smtp.NewAddress (CanonicalLocalpart E (smtp.Localpart_ la) dc) (smtp.Domain_ la))
  = Some xad →
  AD_Localpart xad = AD_Localpart ad →
  let r := AddressRemove E address w in
  (∃ e, r.2 = inl e) ∧ snapshot r.1 = snapshot w ∧ fs r.1 = fs w.
Proof.
  intros Hwf Hidx Hparse Hdc Hkeys Hin Hla Hx Hlp r. subst r.
  destruct (AddressRemove E address w) as [w' [e|[]]] eqn:H; cbn [fst snd].
  - eapply AddressRemove_inv in H as (Hfs & _ & Hs); [|done]. split; [by exists e|done].
  - exfalso. apply AddressRemove_ok in H
      as (ad' & a & dom' & pa & dc' & froms & keys' & Hidx' & _ & _ & Hparse' & Hdc'
          & _ & Hkeys' & Htls & _).
    rewrite Hidx in Hidx'. injection Hidx' as <-.
    rewrite Hkeys in Hkeys'. injection Hkeys' as <-.
    assert (dom' = dom) as ->.
    { destruct (HasPrefix address "@").
      - destruct Hparse' as [Hp' _]. congruence.
      - destruct Hparse as (pa0 & Hp & ->). destruct Hparse' as [Hp' ->]. congruence. }
    rewrite Hdc in Hdc'. injection Hdc' as <-.
    by apply (checkTLSPublicKeys_None _ _ _ _ Htls tpk la xad).
Qed.

(** ** Adding and removing again *)

Lemma deleteRequested_self (l : list string) :
  NoDup l → deleteRequested l l = ([], []).
Proof.
  induction 1 as [|a l Hn Hnd IH]; [done|].
  cbn [deleteRequested]. cbv zeta.
  rewrite filter_cons_False by (intros Hne; by apply Hne).
  rewrite filter_ne_id by done.
  rewrite bool_decide_eq_true_2 by (cbn; lia). done.
Qed.

Lemma deleteRequested_app (members addresses : list string) :
  NoDup addresses →
  (∀ a, a ∈ addresses → a ∉ members) →
  deleteRequested (members ++ addresses) addresses = (members, []).
Proof.
  intros Hnd Hdis. induction members as [|m members IH].
  { by apply deleteRequested_self. }
  cbn [app deleteRequested]. cbv zeta.
  assert (m ∉ addresses) as Hm by (intros Hin; apply (Hdis m Hin); left).
  rewrite filter_ne_id by done.
  rewrite bool_decide_eq_false_2 by lia.
  rewrite IH; [done|]. intros a Ha Hin. apply (Hdis a Ha). by right.
Qed.

(** X20.  Removing an alias that was just added publishes the
    configuration that was published before the alias was added. *)
Theorem AliasAdd_AliasRemove_round_trip (addr : smtp.Address) (alias : config.Alias)
    (w w1 w2 : World) :
  AliasAdd E addr alias w = (w1, inr tt) →
  AliasRemove E addr w1 = (w2, inr tt) →
  snapshot w2 = snapshot w.
Proof.
  intros H1 H2. unfold AliasAdd in H1. unfold AliasRemove in H2.
  apply DomainSave_ok in H1 as (d & d1 & Hd & Hx1 & Hs1 & _).
  apply DomainSave_ok in H2 as (d' & d2 & Hd' & Hx2 & Hs2 & _).
  destruct (config.Aliases d !! aliasKey E addr) as [?|] eqn:Hal; [done|].
  cbn in Hx1. injection Hx1 as <-.
  rewrite Hs1 in Hd'. cbn [sDomains] in Hd'. rewrite lookup_insert_eq in Hd'.
  injection Hd' as <-. cbn [config.Aliases Domain_with_Aliases] in Hx2.
  rewrite lookup_insert_eq in Hx2. injection Hx2 as <-.
  rewrite Hs2, Hs1. cbn [sDomains sAccounts]. rewrite insert_insert_eq.
  rewrite delete_insert_id by done.
  assert (Domain_with_Aliases
            (Domain_with_Aliases d (<[aliasKey E addr:=alias]> (config.Aliases d)))
            (config.Aliases d) = d) as -> by (by destruct d).
  rewrite insert_id by done. by destruct (snapshot w).
Qed.

(** X21.  Removing from an alias the members that were just added to it
    publishes the configuration that was published before they were added,
    when the added list has no repetition and none of its addresses was a
    member. *)
Theorem AliasAddresses_round_trip (addr : smtp.Address) (addresses : list string)
    (d : config.Domain) (alias : config.Alias) (w w1 w2 : World) :
  sDomains (snapshot w) !! Domain_Name E (smtp.Domain_ addr) = Some d →
  config.Aliases d !! aliasKey E addr = Some alias →
  NoDup addresses →
  Forall (λ a, a ∉ config.Addresses alias) addresses →
  AliasAddressesAdd E addr addresses w = (w1, inr tt) →
  AliasAddressesRemove E addr addresses w1 = (w2, inr tt) →
  snapshot w2 = snapshot w.
Proof.
  intros Hd0 Hal Hnd Hdis H1 H2.
  unfold AliasAddressesAdd in H1. unfold AliasAddressesRemove in H2.
  destruct (bool_decide (length addresses = 0)); [done|].
  apply DomainSave_ok in H1 as (d0 & d1 & Hd & Hx1 & Hs1 & _).
  apply DomainSave_ok in H2 as (d' & d2 & Hd' & Hx2 & Hs2 & _).
  rewrite Hd0 in Hd. injection Hd as <-.
  rewrite Hal in Hx1. injection Hx1 as <-.
  rewrite Hs1 in Hd'. cbn [sDomains] in Hd'. rewrite lookup_insert_eq in Hd'.
  injection Hd' as <-. cbn [config.Aliases Domain_with_Aliases] in Hx2.
  rewrite lookup_insert_eq in Hx2.
  cbn [config.Addresses Alias_with_Addresses] in Hx2.
  rewrite deleteRequested_app in Hx2
    by (try done; intros a Ha; by apply (proj1 (Forall_forall _ _) Hdis)).
  cbn in Hx2. injection Hx2 as <-.
  rewrite Hs2, Hs1. cbn [sDomains sAccounts]. rewrite insert_insert_eq.
  rewrite insert_insert_eq.
  assert (Alias_with_Addresses
            (Alias_with_Addresses alias (config.Addresses alias ++ addresses))
            (config.Addresses alias) = alias) as -> by (by destruct alias).
  rewrite (insert_id (config.Aliases d) (aliasKey E addr) alias) by done.
  assert (Domain_with_Aliases
            (Domain_with_Aliases d
               (<[aliasKey E addr:=Alias_with_Addresses alias
                                    (config.Addresses alias ++ addresses)]>
                  (config.Aliases d)))
            (config.Aliases d) = d) as -> by (by destruct d).
  rewrite insert_id by done. by destruct (snapshot w).
Qed.

(** ** quickstart.go *)

Lemma string_get_chars (s : string) (k : nat) :
  k < String.length s →
  ∃ c, String.get k s = Some c ∧ c ∈ String.list_ascii_of_string s.
Proof.
  revert k. induction s as [|a s IH]; intros k Hk; cbn in Hk; [lia|].
  destruct k as [|k]; cbn.
  - exists a. split; [done|]. by left.
  - destruct (IH k) as (c & Hc & Hin); [lia|]. exists c. split; [done|]. by right.
Qed.

Lemma string_length_snoc (s : string) (c : Ascii.ascii) :
  String.length (String.append s (String c EmptyString)) = S (String.length s).
Proof. induction s as [|a s IH]; simpl; [done|]. by f_equal. Qed.

Lemma string_chars_snoc (s : string) (c x : Ascii.ascii) :
  x ∈ String.list_ascii_of_string (String.append s (String c EmptyString)) →
  x ∈ String.list_ascii_of_string s ∨ x = c.
Proof.
  induction s as [|a s IH]; simpl.
  - intros [->|H]%elem_of_cons; [by right|]. by apply elem_of_nil in H.
  - intros [->|H]%elem_of_cons; [left; by left|].
    destruct (IH H) as [?|?]; [left; by right|by right].
Qed.

Lemma pwgen_loop_ok (Intn : nat → nat → nat) (n i : nat) (s : string) :
  (∀ i n, 0 < n → Intn i n < n) →
  (∀ c, c ∈ String.list_ascii_of_string s → c ∈ String.list_ascii_of_string chars) →
  ∃ s', pwgen_loop Intn i n s = Some s' ∧
        String.length s' = (String.length s + n)%nat ∧
        ∀ c, c ∈ String.list_ascii_of_string s' → c ∈ String.list_ascii_of_string chars.
Proof.
  intros HI. revert i s. induction n as [|n IH]; intros i s Hs; cbn [pwgen_loop].
  { exists s. split; [done|]. split; [lia|done]. }
  destruct (string_get_chars chars (Intn i (String.length chars))) as (c & -> & Hc).
  { apply HI. vm_compute. lia. }
  destruct (IH (S i) (String.append s (String c EmptyString))) as (s' & -> & Hl & Hin).
  { intros x [?| ->]%string_chars_snoc; [by apply Hs|done]. }
  exists s'. split; [done|]. split; [|done]. rewrite Hl, string_length_snoc. lia.
Qed.

(** X22.  With a random source that keeps the contract of [rand.Intn] (a
    number below its argument), [pwgen] returns a password of 12 characters,
    each one of the 79 characters of its alphabet. *)
Theorem pwgen_password (Intn : nat → nat → nat) :
  (∀ i n : nat, (0 < n)%nat → (Intn i n < n)%nat) →
  ∃ s, pwgen Intn = Some s ∧
       String.length s = 12%nat ∧
       String.length chars = 79%nat ∧
       ∀ c, c ∈ String.list_ascii_of_string s → c ∈ String.list_ascii_of_string chars.
Proof.
  intros HI.
  destruct (pwgen_loop_ok Intn 12 0 "" HI) as (s & Hs & Hl & Hin).
  { intros c H. by apply elem_of_nil in H. }
  exists s. split; [done|]. split; [done|]. split; [reflexivity|done].
Qed.

Lemma remove_all_other (l : list string) (g : FS) (p : string) :
  p ∉ l →
  files (foldl (λ f p, os_Remove E p f) g l) !! p = files g !! p.
Proof.
  revert g. induction l as [|y l IHl]; intros g Hp; cbn [foldl]; [done|].
  apply not_elem_of_cons in Hp as [Hne Hp]. rewrite IHl by done.
  rewrite os_Remove_files. destruct (io_fault E (IORemove y) g); [done|].
  by rewrite lookup_delete_ne.
Qed.

Lemma remove_all_files (l : list string) (g : FS) (p : string) :
  removalSucceeds E →
  files (foldl (λ f p, os_Remove E p f) g l) !! p
  = if bool_decide (p ∈ l) then None else files g !! p.
Proof.
  intros Hr. revert g. induction l as [|y l IHl]; intros g; cbn [foldl].
  { by rewrite bool_decide_eq_false_2 by apply not_elem_of_nil. }
  rewrite IHl, os_Remove_files, Hr.
  destruct (decide (p = y)) as [->|Hne].
  - rewrite lookup_delete_eq.
    rewrite (bool_decide_eq_true_2 (y ∈ y :: l)) by (by left).
    by destruct (bool_decide (y ∈ l)).
  - rewrite lookup_delete_ne by done.
    apply (f_equal (λ b : bool, if b then None else files g !! p)).
    apply bool_decide_ext. rewrite elem_of_cons.
    split; [by right|]. by intros [?|?].
Qed.

Lemma fatalf_other (paths : list string) (f : FS) (p : string) :
  p ∉ paths →
  files (fatalf E {| qfs := f; cleanupPaths := paths |}) !! p = files f !! p.
Proof.
  intros Hp. unfold fatalf. cbn [qfs cleanupPaths]. apply remove_all_other.
  by rewrite elem_of_reverse.
Qed.

Lemma fatalf_files (paths : list string) (f : FS) (p : string) :
  removalSucceeds E →
  files (fatalf E {| qfs := f; cleanupPaths := paths |}) !! p
  = if bool_decide (p ∈ paths) then None else files f !! p.
Proof.
  intros Hr. unfold fatalf. cbn [qfs cleanupPaths]. rewrite remove_all_files by done.
  apply (f_equal (λ b : bool, if b then None else files f !! p)).
  apply bool_decide_ext. apply elem_of_reverse.
Qed.


Lemma listed_elem (addrs : list IP) (s : string) :
  s ∈ listed addrs →
  ∃ a, Some a ∈ addrs ∧ skipped (Some a) = false ∧ IP_String a = s.
Proof.
  induction addrs as [|ip rest IH]; cbn [listed].
  { intros H. by apply elem_of_nil in H. }
  destruct ip as [a|].
  - destruct (skipped (Some a)) eqn:Hsk.
    + intros (b & ? & ?)%IH. exists b. split; [by right|done].
    + intros [->|H]%elem_of_cons.
      * exists a. split; [by left|done].
      * destruct (IH H) as (b & ? & ?). exists b. split; [by right|done].
  - intros (b & ? & ?)%IH. exists b. split; [by right|done].
Qed.

Lemma nonpublic_false (addrs : list IP) :
  nonpublic addrs = false →
  ∀ ip, ip ∈ addrs → skipped ip = false →
        ipIs Loopback ip = false ∧ ipIs Private ip = false.
Proof.
  induction addrs as [|x rest IH]; cbn [nonpublic]; intros H ip Hin Hsk.
  { by apply elem_of_nil in Hin. }
  apply elem_of_cons in Hin as [->|Hin].
  - rewrite Hsk in H. destruct (ipIs Loopback x), (ipIs Private x); done.
  - destruct (skipped x); [by apply IH|].
    destruct (ipIs Loopback x || ipIs Private x); [done|by apply IH].
Qed.

Lemma nonpublic_true (addrs : list IP) :
  nonpublic addrs = true →
  ∃ ip, ip ∈ addrs ∧ skipped ip = false ∧ (ipIs Loopback ip || ipIs Private ip) = true.
Proof.
  induction addrs as [|x rest IH]; cbn [nonpublic]; [done|].
  destruct (skipped x) eqn:Hsk.
  - intros (ip & ? & ?)%IH. exists ip. split; [by right|done].
  - destruct (ipIs Loopback x || ipIs Private x) eqn:Hl.
    + intros _. exists x. split; [by left|done].
    + intros (ip & ? & ?)%IH. exists ip. split; [by right|done].
Qed.

Lemma gatherIPs_elem (ifaces : list Interface) (priv pub priv' pub' : list string) :
  gatherIPs ifaces priv pub = Some (priv', pub') →
  (∀ s, s ∈ priv' → s ∈ priv ∨ fromInterface ifaces true s) ∧
  (∀ s, s ∈ pub' → s ∈ pub ∨ fromInterface ifaces false s).
Proof.
  revert priv pub. induction ifaces as [|iface rest IH]; intros priv pub; cbn [gatherIPs].
  { intros [= <- <-]. split; intros s Hs; by left. }
  assert (∀ np s, fromInterface rest np s → fromInterface (iface :: rest) np s) as Hmono.
  { intros np s (i & addrs & a & ? & ?). exists i, addrs, a. split; [by right|done]. }
  destruct (FlagUp iface) eqn:Hup; cbn [negb].
  2:{ intros [Hp Hq]%IH. split; intros s Hs.
      - destruct (Hp s Hs) as [?|?]; [by left|right; by apply Hmono].
      - destruct (Hq s Hs) as [?|?]; [by left|right; by apply Hmono]. }
  destruct (Addrs iface) as [addrs|] eqn:Haddrs; [|done].
  destruct (bool_decide (length addrs = 0)).
  { intros [Hp Hq]%IH. split; intros s Hs.
    - destruct (Hp s Hs) as [?|?]; [by left|right; by apply Hmono].
    - destruct (Hq s Hs) as [?|?]; [by left|right; by apply Hmono]. }
  destruct (nonpublic addrs) eqn:Hnp; intros [Hp Hq]%IH; split; intros s Hs.
  - destruct (Hp s Hs) as [[?|Hl]%elem_of_app|?]; [by left| |right; by apply Hmono].
    right. apply listed_elem in Hl as (a & ? & ? & ?).
    exists iface, addrs, a. split; [by left|done].
  - destruct (Hq s Hs) as [?|?]; [by left|right; by apply Hmono].
  - destruct (Hp s Hs) as [?|?]; [by left|right; by apply Hmono].
  - destruct (Hq s Hs) as [[?|Hl]%elem_of_app|?]; [by left| |right; by apply Hmono].
    right. apply listed_elem in Hl as (a & ? & ? & ?).
    exists iface, addrs, a. split; [by left|done].
Qed.

(** X24.  When [cmdQuickstart] has gathered the addresses of the listeners,
    neither list is empty.  A public address is one of the defaults 0.0.0.0
    and ::, or an address of an interface that is up and has no loopback or
    private address among the addresses it looks at; a private address is
    one of the defaults 127.0.0.1 and ::1, or an address of an interface
    that is up and has a loopback or private address. *)
Theorem listenerIPs_sorted (ifaces : list Interface) (public private : list string) :
  listenerIPs ifaces = Some (public, private) →
  public ≠ [] ∧ private ≠ [] ∧
  (∀ s, s ∈ public →
     s ∈ ["0.0.0.0"; "::"] ∨
     ∃ iface addrs a,
       iface ∈ ifaces ∧ FlagUp iface = true ∧ Addrs iface = Some addrs ∧
       Some a ∈ addrs ∧ IP_String a = s ∧ skipped (Some a) = false ∧
       ∀ ip, ip ∈ addrs → skipped ip = false →
             ipIs Loopback ip = false ∧ ipIs Private ip = false) ∧
  (∀ s, s ∈ private →
     s ∈ ["127.0.0.1"; "::1"] ∨
     ∃ iface addrs a ip,
       iface ∈ ifaces ∧ FlagUp iface = true ∧ Addrs iface = Some addrs ∧
       Some a ∈ addrs ∧ IP_String a = s ∧ skipped (Some a) = false ∧
       ip ∈ addrs ∧ skipped ip = false ∧ (ipIs Loopback ip || ipIs Private ip) = true).
Proof.
  unfold listenerIPs.
  destruct (gatherIPs ifaces [] []) as [[priv pub]|] eqn:Hg; [|done].
  apply gatherIPs_elem in Hg as [Hp Hq]. intros [= <- <-].
  split; [|split; [|split]].
  - destruct pub; done.
  - destruct priv; done.
  - intros s Hs. destruct (0 <? length pub)%nat; [|by left].
    destruct (Hq s Hs) as [H%elem_of_nil|(iface & addrs & a & ? & ? & ? & Hnp & ? & ? & ?)];
      [done|].
    right. exists iface, addrs, a. split_and!; try done. by apply nonpublic_false.
  - intros s Hs. destruct (0 <? length priv)%nat; [|by left].
    destruct (Hp s Hs) as [H%elem_of_nil|(iface & addrs & a & ? & ? & ? & Hnp & ? & ? & ?)];
      [done|].
    right. apply nonpublic_true in Hnp as (ip & ? & ? & ?).
    exists iface, addrs, a, ip. split_and!; done.
Qed.

End Proofs.

(** * Runs on concrete inputs *)

Lemma AliasUpdate_frame_witness :
  let flags := {| config.Addresses := []; config.PostPublic := true;
                  config.ListMembers := true; config.AllowMsgFrom := false |} in
  let r := AliasUpdate Sample.env0 Sample.team flags Sample.w_lists in
  r.2 = inr tt ∧ sAccounts (snapshot r.1) = sAccounts (snapshot Sample.w_lists).
Proof.
  cbv zeta.
  match goal with |- (?run).2 = _ ∧ _ =>
    assert (run.2 = inr tt) as Hr by (vm_compute; reflexivity);
    destruct run as [w' [e|[]]] eqn:H; [discriminate Hr|]
  end.
  split; [done|].
  destruct (AliasUpdate_frame Sample.env0 _ _ _ _ H)
    as (d & a & d' & a' & _ & _ & _ & _ & _ & _ & _ & _ & _ & _ & _ & Hacc).
  exact Hacc.
Defined.



(** C8 as stated fails where an earlier check answers.  alice has the
    catchall @example.org, and the queue holds a message of alice from
    stray@example.org, which is no destination: the condition of the claim.
    With a message of alice in front whose sender domain is not configured,
    [AddressRemove] of the catchall returns the request error of that
    message, not the one of the catchall; when the queue cannot be listed,
    it returns an error that is no request error. *)
Lemma AddressRemove_queue_guard_earlier_error :
  let w := Sample.w_queue_unknown in
  let r := AddressRemove Sample.env0 "@example.org" w in
  let r' := AddressRemove (Sample.listingFails Sample.env0) "@example.org" Sample.w_queue in
  AD_Account <$> (AccountDestinations (Conf_Parsed w) !! "@example.org") = Some "alice" ∧
  queue w !! 1 = Some (Sample.queued "alice" "stray") ∧
  AccountDestinations (Conf_Parsed w) !! "stray@example.org" = None ∧
  r.2 = inl (ErrUnknownSenderDomain "other.example") ∧
  queue Sample.w_queue !! 0 = Some (Sample.queued "alice" "stray") ∧
  AccountDestinations (Conf_Parsed Sample.w_queue) !! "stray@example.org" = None ∧
  r'.2 = inl (ErrListingQueue "database is locked") ∧
  isErrRequest (ErrListingQueue "database is locked") = false.
Proof. vm_compute. repeat split. Qed.

(** C10 as stated fails: the alias team@example.org exists and has
    a@example.org as a member, and adding that address again is refused when
    the publish step refuses a member listed twice. *)
Lemma AliasAddressesAdd_refused_by_publish :
  let E := Sample.env Sample.noFault Sample.hasDuplicateMember [] in
  let d := Sample.domain ∅ []
             {[ "team" := Sample.alias ["a@example.org"; "b@example.org"];
                "all" := Sample.alias ["a@example.org"; "b@example.org"] ]} in
  sDomains (snapshot Sample.w_lists) !! Domain_Name E (smtp.Domain_ Sample.team) = Some d
  ∧ config.Aliases d !! aliasKey E Sample.team
    = Some (Sample.alias ["a@example.org"; "b@example.org"])
  ∧ (AliasAddressesAdd E Sample.team ["a@example.org"] Sample.w_lists).2
    = inl (ErrWritingDomainsConf (ErrConfig "rejected")).
Proof. vm_compute. done. Qed.

Lemma AliasAddressesAdd_appends_witness :
  wf Sample.w_lists ∧
  ∃ w' d a,
    AliasAddressesAdd Sample.env0 Sample.team ["a@example.org"] Sample.w_lists
      = (w', inr tt) ∧
    sDomains (snapshot w') !! "example.org" = Some d ∧
    config.Aliases d !! "team" = Some a ∧
    config.Addresses a = ["a@example.org"; "b@example.org"; "a@example.org"].
Proof.
  assert (wf Sample.w_lists) as Hwf by (unfold wf; cbn; lia).
  split; [exact Hwf|].
  pose proof (AliasAddressesAdd_appends Sample.env0 Sample.team ["a@example.org"]
                Sample.w_lists Hwf) as H.
  cbv zeta in H.
  destruct (AliasAddressesAdd Sample.env0 Sample.team ["a@example.org"] Sample.w_lists)
    as [w' [e|[]]] eqn:Hr.
  - exfalso.
    assert ((AliasAddressesAdd Sample.env0 Sample.team ["a@example.org"]
               Sample.w_lists).2 = inr tt) as H2 by (vm_compute; reflexivity).
    rewrite Hr in H2. discriminate H2.
  - destruct H as (d & alias & _ & Hd & Ha & _ & Hs).
    assert (d = Sample.domain ∅ []
             {[ "team" := Sample.alias ["a@example.org"; "b@example.org"];
                "all" := Sample.alias ["a@example.org"; "b@example.org"] ]}) as ->.
    { assert (sDomains (snapshot Sample.w_lists)
                !! Domain_Name Sample.env0 (smtp.Domain_ Sample.team)
              = Some (Sample.domain ∅ []
             {[ "team" := Sample.alias ["a@example.org"; "b@example.org"];
                "all" := Sample.alias ["a@example.org"; "b@example.org"] ]})) as Hd'
        by (vm_compute; reflexivity).
      rewrite Hd in Hd'. by injection Hd'. }
    assert (alias = Sample.alias ["a@example.org"; "b@example.org"]) as ->.
    { assert (config.Aliases (Sample.domain ∅ []
             {[ "team" := Sample.alias ["a@example.org"; "b@example.org"];
                "all" := Sample.alias ["a@example.org"; "b@example.org"] ]})
               !! aliasKey Sample.env0 Sample.team
              = Some (Sample.alias ["a@example.org"; "b@example.org"])) as Ha'
        by (vm_compute; reflexivity).
      rewrite Ha in Ha'. by injection Ha'. }
    eexists w', _, _. split; [reflexivity|]. rewrite Hs.
    split; [apply lookup_insert_eq|]. split; [apply lookup_insert_eq|]. reflexivity.
Defined.

(** C6 as stated fails: the one file that adding the RSA selector Sample.s1 to
    example.org creates is not at the specified name, and its name does not
    end in .privatekey.pem, so it is no instance of the pattern at all. *)
Lemma dkim_key_file_name_not_as_specified :
  let r := DKIMAdd Sample.env0 Sample.example_org Sample.s1 "rsa" "sha256" true true true []
             (72 * Hour)%Z Sample.w_lists in
  r.2 = inr tt ∧
  files (fs Sample.w_lists) = ∅ ∧
  files (fs r.1) !! ("/etc/mox/dkim/" +:+
      specKeyFileName "s1" "example.org" "20240102T030405" "rsa2048") = None ∧
  ∀ p, is_Some (files (fs r.1) !! p) →
       p = "/etc/mox/dkim/s1._domainkey.example.org.20240102T030405.rsa2048.privatekey.pkcs8.pem" ∧
       HasSuffix p ".privatekey.pem" = false.
Proof.
  cbv zeta. split; [vm_compute; reflexivity|]. split; [vm_compute; reflexivity|].
  split; [vm_compute; reflexivity|].
  intros p [data Hp]. apply elem_of_map_to_list in Hp.
  match type of Hp with _ ∈ ?l =>
    assert (l = [("/etc/mox/dkim/s1._domainkey.example.org.20240102T030405.rsa2048.privatekey.pkcs8.pem",
                  [1; 2048; 0]%N)]) as Hf by (vm_compute; reflexivity)
  end.
  rewrite Hf in Hp. apply list_elem_of_singleton in Hp. injection Hp as -> _.
  split; [reflexivity|]. vm_compute. reflexivity.
Qed.

Lemma dkim_key_file_names_witness :
  let r := DKIMAdd Sample.env0 Sample.example_org Sample.s1 "rsa" "sha256" true true true []
             (72 * Hour)%Z Sample.w_lists in
  r.2 = inr tt ∧
  ∃ data,
    files (fs r.1)
    = <[ "/etc/mox/dkim/s1._domainkey.example.org.20240102T030405.rsa2048.privatekey.pkcs8.pem"
         := data ]> (files (fs Sample.w_lists)).
Proof.
  cbv zeta.
  match goal with |- (?run).2 = _ ∧ _ =>
    assert (run.2 = inr tt) as Hr by (vm_compute; reflexivity);
    destruct run as [w' [e|[]]] eqn:H; [discriminate Hr|]
  end.
  split; [done|].
  destruct (proj1 (dkim_key_file_names Sample.env0) _ _ _ _ _ _ _ _ _ _ _ H)
    as (tag & data & [[_ ->]|[Ha _]] & _ & Hf & _); [|discriminate Ha].
  exists data. cbn [fst]. rewrite Hf. reflexivity.
Defined.



(** The failing input of C1: the publish step refuses the configuration of
    the new domain.  The two key files are removed again and the domain is
    not published, but the account "admin", stored through the map that the
    published configuration shares, is now in the published accounts, while
    domains.conf still holds the configuration from before. *)
Lemma DomainAdd_failed_publish_keeps_account :
  let E := Sample.env Sample.noFault (λ _, true) [] in
  let r := DomainAdd E false Sample.example_org "admin" "postmaster" Sample.w_empty in
  r.2 = inl (ErrWritingDomainsConf (ErrConfig "rejected")) ∧
  files (fs r.1) = files (fs Sample.w_empty) ∧
  sDomains (snapshot r.1) = sDomains (snapshot Sample.w_empty) ∧
  sAccounts (snapshot Sample.w_empty) !! "admin" = None ∧
  sAccounts (snapshot r.1) !! "admin"
    = Some (MakeAccountConfig E (smtp.NewAddress "postmaster" Sample.example_org)) ∧
  snapshot r.1 ≠ snapshot Sample.w_empty ∧
  domainsConf r.1 = snapshot Sample.w_empty.
Proof.
  cbv zeta. split_and!; try (vm_compute; reflexivity).
  intros Heq.
  assert (sAccounts (snapshot (DomainAdd (Sample.env Sample.noFault (λ _, true) []) false
            Sample.example_org "admin" "postmaster" Sample.w_empty).1) !! "admin"
          = sAccounts (snapshot Sample.w_empty) !! "admin") as Hx by (by rewrite Heq).
  vm_compute in Hx. discriminate Hx.
Qed.


(** C2, at an address that is a member of two aliases of one domain.
    a@example.org, a destination of alice, is a member of "team" and of "all",
    and neither alias would be left empty.  [AddressRemove] succeeds and
    removes the destination, but the loop over the memberships builds each
    pruned domain from the published one: "team" loses the member, "all"
    still lists it.  A publish step that refuses members that are no
    destination refuses the call. *)
Lemma AddressRemove_prunes_one_alias_of_a_domain :
  let w := Sample.w_lists in
  let r := AddressRemove Sample.env0 "a@example.org" w in
  let strict := Sample.env Sample.noFault Sample.hasDanglingMember [] in
  Sample.members w "example.org" "team" = Some ["a@example.org"; "b@example.org"] ∧
  Sample.members w "example.org" "all" = Some ["a@example.org"; "b@example.org"] ∧
  Sample.destinationsOf w "alice" = Some ["a@example.org"] ∧
  r.2 = inr tt ∧
  Sample.destinationsOf r.1 "alice" = Some [] ∧
  Sample.members r.1 "example.org" "team" = Some ["b@example.org"] ∧
  Sample.members r.1 "example.org" "all" = Some ["a@example.org"; "b@example.org"] ∧
  (AddressRemove strict "a@example.org" w).2
  = inl (ErrWritingDomainsConf (ErrConfig "rejected")).
Proof. vm_compute. repeat split. Qed.

Lemma AddressRemove_queue_guard_witness :
  let w := Sample.w_queue in
  let catchall := AddressRemove Sample.env0 "@example.org" w in
  let plain := AddressRemove Sample.env0 "b@example.org" w in
  ((∃ sa, catchall.2 = inl (ErrQueueDependsOnCatchall sa)) ∧
   snapshot catchall.1 = snapshot w)
  ∧ (plain.2 = inl (ErrQueueNoCatchall "b@example.org") ∧
     snapshot plain.1 = snapshot w).
Proof.
  cbv zeta.
  assert (sDomains (snapshot Sample.w_queue) !! "example.org"
          = Some (Sample.domain ∅ [] ∅)) as Hdc by (vm_compute; reflexivity).
  assert (wf Sample.w_queue) as Hwf by (vm_compute; lia).
  split.
  - assert (AccountDestinations (Conf_Parsed Sample.w_queue) !! "@example.org"
            = Some {| AD_Catchall := true; AD_Localpart := "";
                      AD_Account := "alice";
                      AD_Destination := config.Destination_zero |}) as Hidx
      by (vm_compute; reflexivity).
    pose proof (AddressRemove_queue_guard Sample.env0 "@example.org" _
                  (Sample.queued "alice" "stray") (Sample.domain ∅ [] ∅)
                  Sample.w_queue Hwf Hidx) as H.
    specialize (H ltac:(left)). specialize (H eq_refl Hdc). cbv zeta in H.
    destruct H as [Hcatchall _]. specialize (Hcatchall eq_refl).
    destruct Hcatchall as (_ & Hsnap & Herr).
    { intros xad Hx. vm_compute in Hx. discriminate. }
    split; [|exact Hsnap].
    destruct Herr as (m' & dc' & _ & _ & _ & _ & Herr & _).
    2:{ eexists. exact Herr. }
    eexists (Sample.account ["a@example.org"; "@example.org"]), Sample.example_org,
      (smtp.NewAddress "" dns.zero), (Sample.domain ∅ [] ∅), [].
    split; [vm_compute; reflexivity|].
    split; [vm_compute; eauto|].
    split; [vm_compute; split; reflexivity|].
    split; [vm_compute; reflexivity|].
    split; [vm_compute; eauto|].
    split; [vm_compute; reflexivity|].
    split; [vm_compute; reflexivity|].
    split; [vm_compute; constructor|].
    split; [vm_compute; reflexivity|].
    vm_compute. repeat constructor; eauto.
  - assert (AccountDestinations (Conf_Parsed Sample.w_queue) !! "b@example.org"
            = Some {| AD_Catchall := false; AD_Localpart := "b";
                      AD_Account := "bob";
                      AD_Destination := config.Destination_zero |}) as Hidx
      by (vm_compute; reflexivity).
    pose proof (AddressRemove_queue_guard Sample.env0 "b@example.org" _
                  (Sample.queued "bob" "b") (Sample.domain ∅ [] ∅)
                  Sample.w_queue Hwf Hidx) as H.
    specialize (H ltac:(right; left)). specialize (H eq_refl Hdc). cbv zeta in H.
    destruct H as [_ Hplain]. specialize (Hplain eq_refl eq_refl).
    destruct Hplain as (_ & Hsnap & Herr).
    { intros xad Hx. vm_compute in Hx. injection Hx as <-. vm_compute. discriminate. }
    split; [|exact Hsnap].
    apply Herr.
    eexists (Sample.account ["b@example.org"]), Sample.example_org,
      (smtp.NewAddress "b" Sample.example_org), (Sample.domain ∅ [] ∅), [].
    split; [vm_compute; reflexivity|].
    split; [vm_compute; eauto|].
    split; [vm_compute; split; reflexivity|].
    split; [vm_compute; reflexivity|].
    split; [vm_compute; eauto|].
    split; [vm_compute; reflexivity|].
    split; [vm_compute; reflexivity|].
    split; [vm_compute; constructor|].
    split; [vm_compute; reflexivity|].
    vm_compute. repeat constructor; eauto.
Defined.





Lemma DomainAdd_existing_account_witness :
  let new := {| dns.ASCII := "new.example"; dns.Unicode := "" |} in
  let r := DomainAdd Sample.env0 false new "alice" "" Sample.w_lists in
  r.2 = inr tt ∧
  Sample.destinationsOf r.1 "alice" = Some ["a@example.org"; "postmaster@new.example"] ∧
  Sample.destinationsOf r.1 "bob" = Some ["b@example.org"].
Proof.
  cbv zeta.
  assert ((DomainAdd Sample.env0 false {| dns.ASCII := "new.example"; dns.Unicode := "" |}
             "alice" "" Sample.w_lists).2 = inr tt) as Hr by (vm_compute; reflexivity).
  split; [exact Hr|].
  assert (sAccounts (snapshot Sample.w_lists) !! "alice"
          = Some (Sample.account ["a@example.org"])) as Hacc by (vm_compute; reflexivity).
  pose proof (DomainAdd_existing_account Sample.env0 false
                {| dns.ASCII := "new.example"; dns.Unicode := "" |} "alice" ""
                (Sample.account ["a@example.org"]) Sample.w_lists _
                ltac:(vm_compute; lia) Hacc (run_pair _ tt Hr)) as [_ Hs].
  unfold Sample.destinationsOf, snapshot in *. cbn [sAccounts view] in *.
  rewrite Hs. vm_compute. split; reflexivity.
Defined.


Lemma DKIMRemove_effect_witness :
  let s := {| dns.ASCII := "s"; dns.Unicode := "" |} in
  let r := DKIMRemove Sample.env0 Sample.a_example s Sample.w_shared in
  r.2 = inr tt ∧
  ∃ d', sDomains (snapshot r.1) !! "a.example" = Some d' ∧
        config.Selectors (config.DKIM_ d') !! "s" = None ∧
        config.Sign (config.DKIM_ d') = [].
Proof.
  cbv zeta.
  assert ((DKIMRemove Sample.env0 Sample.a_example {| dns.ASCII := "s"; dns.Unicode := "" |}
             Sample.w_shared).2 = inr tt) as Hr by (vm_compute; reflexivity).
  split; [exact Hr|].
  pose proof (DKIMRemove_effect Sample.env0 Sample.a_example
                {| dns.ASCII := "s"; dns.Unicode := "" |} Sample.w_shared _
                (run_pair _ tt Hr)) as H.
  cbv zeta in H. destruct H as (d & d' & Hd & _ & Hd' & Hnone & _ & Hsign & _).
  exists d'. split; [exact Hd'|]. split; [exact Hnone|].
  rewrite Hsign.
  assert (d = Sample.domain {[ "s" := Sample.selector "dkim/shared.pem" ]} ["s"] ∅) as ->.
  { assert (sDomains (snapshot Sample.w_shared) !! Domain_Name Sample.env0 Sample.a_example
            = Some (Sample.domain {[ "s" := Sample.selector "dkim/shared.pem" ]} ["s"] ∅))
      as Hd0 by (vm_compute; reflexivity).
    rewrite Hd in Hd0. by injection Hd0. }
  vm_compute. reflexivity.
Defined.

Lemma DomainSave_cases_witness :
  let refuse (d : config.Domain) : Error + config.Domain := inl ErrAliasNotExist in
  let r := DomainSave Sample.env0 "example.org" refuse Sample.w_lists in
  let r' := DomainSave Sample.env0 "nowhere.example" refuse Sample.w_lists in
  (r.2 = inl ErrAliasNotExist ∧ snapshot r.1 = snapshot Sample.w_lists)
  ∧ (r'.2 = inl ErrDomainNotPresent ∧ snapshot r'.1 = snapshot Sample.w_lists).
Proof.
  cbv zeta.
  assert (wf Sample.w_lists) as Hwf by (vm_compute; lia).
  split.
  - pose proof (DomainSave_cases Sample.env0 "example.org" (λ _, inl ErrAliasNotExist)
                  Sample.w_lists Hwf) as H.
    assert ((DomainSave Sample.env0 "example.org" (λ _, inl ErrAliasNotExist)
               Sample.w_lists).2 = inl ErrAliasNotExist) as Hr by (vm_compute; reflexivity).
    split; [exact Hr|].
    destruct (DomainSave Sample.env0 "example.org" _ Sample.w_lists) as [w' [e|[]]];
      [|discriminate Hr].
    exact (proj1 H).
  - pose proof (DomainSave_cases Sample.env0 "nowhere.example" (λ _, inl ErrAliasNotExist)
                  Sample.w_lists Hwf) as H.
    assert ((DomainSave Sample.env0 "nowhere.example" (λ _, inl ErrAliasNotExist)
               Sample.w_lists).2 = inl ErrDomainNotPresent) as Hr by (vm_compute; reflexivity).
    split; [exact Hr|].
    destruct (DomainSave Sample.env0 "nowhere.example" _ Sample.w_lists) as [w' [e|[]]];
      [|discriminate Hr].
    exact (proj1 H).
Defined.

Lemma AccountSave_cases_witness :
  let rename (acc : config.Account) := Account_with_FromIDLoginAddresses acc ["x@example.org"] in
  let r := AccountSave Sample.env0 "alice" rename Sample.w_lists in
  let r' := AccountSave Sample.env0 "nobody" rename Sample.w_lists in
  (r.2 = inr tt ∧
   sAccounts (snapshot r.1)
   = <["alice" := rename (Sample.account ["a@example.org"])]>
       (sAccounts (snapshot Sample.w_lists)))
  ∧ (r'.2 = inl ErrAccountNotPresent ∧ snapshot r'.1 = snapshot Sample.w_lists).
Proof.
  cbv zeta.
  assert (wf Sample.w_lists) as Hwf by (vm_compute; lia).
  set (rename := λ acc, Account_with_FromIDLoginAddresses acc ["x@example.org"]).
  split.
  - pose proof (AccountSave_cases Sample.env0 "alice" rename Sample.w_lists Hwf) as H.
    assert ((AccountSave Sample.env0 "alice" rename Sample.w_lists).2 = inr tt) as Hr
      by (vm_compute; reflexivity).
    split; [exact Hr|].
    destruct (AccountSave Sample.env0 "alice" rename Sample.w_lists) as [w' [e|[]]];
      [discriminate Hr|].
    destruct H as (acc & Ha & Hs & _). cbn [fst]. rewrite Hs. cbn [sAccounts].
    assert (sAccounts (snapshot Sample.w_lists) !! "alice"
            = Some (Sample.account ["a@example.org"])) as Ha0 by (vm_compute; reflexivity).
    rewrite Ha in Ha0. injection Ha0 as ->. reflexivity.
  - pose proof (AccountSave_cases Sample.env0 "nobody" rename Sample.w_lists Hwf) as H.
    assert ((AccountSave Sample.env0 "nobody" rename Sample.w_lists).2
            = inl ErrAccountNotPresent) as Hr by (vm_compute; reflexivity).
    split; [exact Hr|].
    destruct (AccountSave Sample.env0 "nobody" rename Sample.w_lists) as [w' [e|[]]];
      [|discriminate Hr].
    exact (proj1 H).
Defined.

Lemma AccountSave_twice_witness :
  let f (acc : config.Account) := Account_with_FromIDLoginAddresses acc ["x@example.org"] in
  let g (acc : config.Account) :=
    Account_with_FromIDLoginAddresses acc
      ("y@example.org" :: config.FromIDLoginAddresses acc) in
  let r1 := AccountSave Sample.env0 "alice" f Sample.w_lists in
  let r2 := AccountSave Sample.env0 "alice" g r1.1 in
  ∃ acc, sAccounts (snapshot Sample.w_lists) !! "alice" = Some acc ∧
         sAccounts (snapshot r2.1)
         = <["alice" := g (f acc)]> (sAccounts (snapshot Sample.w_lists)).
Proof.
  cbv zeta.
  set (f := λ acc, Account_with_FromIDLoginAddresses acc ["x@example.org"]).
  set (g := λ acc, Account_with_FromIDLoginAddresses acc
                     ("y@example.org" :: config.FromIDLoginAddresses acc)).
  assert ((AccountSave Sample.env0 "alice" f Sample.w_lists).2 = inr tt) as H1
    by (vm_compute; reflexivity).
  assert ((AccountSave Sample.env0 "alice" g
             (AccountSave Sample.env0 "alice" f Sample.w_lists).1).2 = inr tt) as H2
    by (vm_compute; reflexivity).
  destruct (AccountSave_twice Sample.env0 "alice" f g Sample.w_lists _
              (AccountSave Sample.env0 "alice" g
                 (AccountSave Sample.env0 "alice" f Sample.w_lists).1).1
              (run_pair _ tt H1)) as [Hc _].
  destruct (Hc (run_pair _ tt H2)) as (acc & Ha & Hs).
  exists acc. split; [exact Ha|]. by rewrite Hs.
Defined.

Lemma ConfigSave_cases_witness :
  let empty (c : config.Dynamic) (w : World) :=
    (set_domainMaps (domainMaps w ++ [∅]) w,
     {| config.Domains := length (domainMaps w); config.Accounts := config.Accounts c |}) in
  let r := ConfigSave Sample.env0 empty Sample.w_lists in
  let r' := ConfigSave (Sample.env Sample.noFault (λ _, true) []) empty Sample.w_lists in
  (r.2 = inr tt ∧ sDomains (snapshot r.1) = ∅ ∧
   sAccounts (snapshot r.1) = sAccounts (snapshot Sample.w_lists))
  ∧ (r'.2 = inl (ErrWritingDomainsConf (ErrConfig "rejected")) ∧
     snapshot r'.1 = snapshot Sample.w_lists).
Proof.
  cbv zeta.
  set (empty := λ (c : config.Dynamic) (w : World),
         (set_domainMaps (domainMaps w ++ [∅]) w,
          {| config.Domains := length (domainMaps w);
             config.Accounts := config.Accounts c |})).
  assert (clones empty) as Hc.
  { intros c w. cbn. split; [done|]. split; [done|]. split; [|done].
    intros l Hl. by apply lookup_app_l. }
  assert (wf Sample.w_lists) as Hwf by (vm_compute; lia).
  split.
  - pose proof (ConfigSave_cases Sample.env0 empty Sample.w_lists Hc Hwf) as H.
    cbv zeta in H.
    assert ((ConfigSave Sample.env0 empty Sample.w_lists).2 = inr tt) as Hr
      by (vm_compute; reflexivity).
    split; [exact Hr|].
    destruct (ConfigSave Sample.env0 empty Sample.w_lists) as [w' [e|[]]];
      [discriminate Hr|].
    destruct H as [Hs _]. cbn [fst]. rewrite Hs. vm_compute. split; reflexivity.
  - pose proof (ConfigSave_cases (Sample.env Sample.noFault (λ _, true) []) empty
                  Sample.w_lists Hc Hwf) as H.
    cbv zeta in H.
    assert ((ConfigSave (Sample.env Sample.noFault (λ _, true) []) empty Sample.w_lists).2
            = inl (ErrWritingDomainsConf (ErrConfig "rejected"))) as Hr
      by (vm_compute; reflexivity).
    split; [exact Hr|].
    destruct (ConfigSave _ empty Sample.w_lists) as [w' [e|[]]]; [|discriminate Hr].
    exact (proj1 H).
Defined.


Lemma AddressAdd_cases_witness :
  let r := AddressAdd Sample.env0 "@example.org" "bob" Sample.w_lists in
  let r' := AddressAdd Sample.env0 "c@example.org" "nobody" Sample.w_lists in
  (r.2 = inr tt ∧
   Sample.destinationsOf r.1 "bob" = Some ["b@example.org"; "@example.org"])
  ∧ (r'.2 = inl ErrAccountNotExist ∧ snapshot r'.1 = snapshot Sample.w_lists).
Proof.
  cbv zeta.
  assert (wf Sample.w_lists) as Hwf by (vm_compute; lia).
  split.
  - pose proof (AddressAdd_cases Sample.env0 "@example.org" "bob" Sample.w_lists Hwf) as H.
    assert ((AddressAdd Sample.env0 "@example.org" "bob" Sample.w_lists).2 = inr tt)
      as Hr by (vm_compute; reflexivity).
    split; [exact Hr|].
    destruct (AddressAdd Sample.env0 "@example.org" "bob" Sample.w_lists)
      as [w' [e|[]]]; [discriminate Hr|].
    destruct H as (a & destAddr & Ha & Hd & Hs & _).
    assert (a = Sample.account ["b@example.org"]) as ->.
    { assert (sAccounts (snapshot Sample.w_lists) !! "bob"
              = Some (Sample.account ["b@example.org"])) as Ha0
        by (vm_compute; reflexivity).
      rewrite Ha in Ha0. by injection Ha0. }
    assert (destAddr = "@example.org") as ->.
    { change (HasPrefix "@example.org" "@") with true in Hd.
      destruct Hd as (d & Hp & -> & _). vm_compute in Hp. injection Hp as <-.
      vm_compute. reflexivity. }
    unfold Sample.destinationsOf. cbn [fst]. rewrite Hs. vm_compute. reflexivity.
  - pose proof (AddressAdd_cases Sample.env0 "c@example.org" "nobody" Sample.w_lists Hwf)
      as H.
    assert ((AddressAdd Sample.env0 "c@example.org" "nobody" Sample.w_lists).2
            = inl ErrAccountNotExist) as Hr by (vm_compute; reflexivity).
    split; [exact Hr|].
    destruct (AddressAdd Sample.env0 "c@example.org" "nobody" Sample.w_lists)
      as [w' [e|[]]]; [|discriminate Hr].
    exact (proj1 H).
Defined.

Lemma AccountRemove_cases_witness :
  let r := AccountRemove Sample.env0 "bob" Sample.w_queue in
  let r' := AccountRemove (Sample.removalFails Sample.env0) "bob" Sample.w_queue in
  (r.2 = inr tt ∧
   sAccounts (snapshot r.1) = delete "bob" (sAccounts (snapshot Sample.w_queue)) ∧
   queue r.1 = [Sample.queued "alice" "stray"])
  ∧ (r'.2 = inl (ErrSchedulingRemoval "disk full") ∧
     sAccounts (snapshot r'.1) = delete "bob" (sAccounts (snapshot Sample.w_queue))).
Proof.
  cbv zeta.
  assert (wf Sample.w_queue) as Hwf by (vm_compute; lia).
  split.
  - pose proof (AccountRemove_cases Sample.env0 "bob" Sample.w_queue Hwf) as H.
    cbv zeta in H.
    assert ((AccountRemove Sample.env0 "bob" Sample.w_queue).2 = inr tt) as Hr
      by (vm_compute; reflexivity).
    split; [exact Hr|].
    destruct (AccountRemove Sample.env0 "bob" Sample.w_queue) as [w' [e|[]]];
      [discriminate Hr|].
    destruct H as (Hs & Hq & _). cbn [fst]. rewrite Hs, Hq. cbn [sAccounts].
    split; [reflexivity|]. vm_compute. reflexivity.
  - pose proof (AccountRemove_cases (Sample.removalFails Sample.env0) "bob" Sample.w_queue
                  Hwf) as H.
    cbv zeta in H.
    assert ((AccountRemove (Sample.removalFails Sample.env0) "bob" Sample.w_queue).2
            = inl (ErrSchedulingRemoval "disk full")) as Hr by (vm_compute; reflexivity).
    split; [exact Hr|].
    destruct (AccountRemove (Sample.removalFails Sample.env0) "bob" Sample.w_queue)
      as [w' [e|[]]]; [|discriminate Hr].
    cbn [snd] in Hr. injection Hr as ->.
    destruct H as (_ & [([msg [=]] & _)|[(Hcases & _)|(_ & Hs & _)]]).
    + destruct Hcases as [[? [=]]|[[? [=]]|[[? [=]]|[[? [=]]|[[? [=]]|[? [=]]]]]]].
    + cbn [fst]. by rewrite Hs.
Defined.

Lemma AddressRemove_effect_witness :
  let r := AddressRemove Sample.env0 "a@example.org" Sample.w_lists in
  r.2 = inr tt ∧
  Sample.destinationsOf r.1 "alice" = Some [] ∧
  Sample.destinationsOf r.1 "bob" = Some ["b@example.org"].
Proof.
  cbv zeta.
  assert ((AddressRemove Sample.env0 "a@example.org" Sample.w_lists).2 = inr tt) as Hr
    by (vm_compute; reflexivity).
  split; [exact Hr|].
  pose proof (AddressRemove_effect Sample.env0 "a@example.org" Sample.w_lists _
                (run_pair _ tt Hr)) as (ad & a & a' & Hidx & Ha & Ha' & _ & Hd & _ & _ & Ho & _).
  assert (AccountDestinations (Conf_Parsed Sample.w_lists) !! "a@example.org"
          = Some {| AD_Catchall := false; AD_Localpart := "a"; AD_Account := "alice";
                    AD_Destination := config.Destination_zero |}) as Hidx0
    by (vm_compute; reflexivity).
  rewrite Hidx in Hidx0. injection Hidx0 as ->. cbn [AD_Account] in *.
  assert (sAccounts (snapshot Sample.w_lists) !! "alice"
          = Some (Sample.account ["a@example.org"])) as Ha0 by (vm_compute; reflexivity).
  rewrite Ha in Ha0. injection Ha0 as ->.
  unfold Sample.destinationsOf. rewrite Ha'. cbn [mbind option_bind]. rewrite Hd.
  rewrite (Ho "bob") by discriminate.
  split; vm_compute; reflexivity.
Defined.

Lemma AddressRemove_tls_guard_witness :
  let key := {| Fingerprint := "f1"; LoginAddress := "a@example.org"; TPK_Account := "alice" |} in
  let E := Sample.env Sample.noFault Sample.accept [key] in
  let r := AddressRemove E "a@example.org" Sample.w_lists in
  r.2 = inl (ErrTLSPublicKeyReferences "f1" "a@example.org") ∧
  snapshot r.1 = snapshot Sample.w_lists ∧ fs r.1 = fs Sample.w_lists.
Proof.
  cbv zeta.
  set (key := {| Fingerprint := "f1"; LoginAddress := "a@example.org";
                 TPK_Account := "alice" |}).
  set (E := Sample.env Sample.noFault Sample.accept [key]).
  set (ad := {| AD_Catchall := false; AD_Localpart := "a"; AD_Account := "alice";
                AD_Destination := config.Destination_zero |}).
  assert (wf Sample.w_lists) as Hwf by (vm_compute; lia).
  split; [vm_compute; reflexivity|].
  refine (proj2 (AddressRemove_tls_guard E "a@example.org" ad ad Sample.example_org
            (Sample.domain ∅ []
               {[ "team" := Sample.alias ["a@example.org"; "b@example.org"];
                  "all" := Sample.alias ["a@example.org"; "b@example.org"] ]})
            [key] key (smtp.NewAddress "a" Sample.example_org) Sample.w_lists
            Hwf _ _ _ _ _ _ _ _)).
  - vm_compute; reflexivity.
  - vm_compute. eexists. split; reflexivity.
  - vm_compute; reflexivity.
  - vm_compute; reflexivity.
  - left.
  - vm_compute; reflexivity.
  - vm_compute; reflexivity.
  - reflexivity.
Defined.

Lemma AliasAdd_AliasRemove_round_trip_witness :
  let new := smtp.NewAddress "new" Sample.example_org in
  let r1 := AliasAdd Sample.env0 new (Sample.alias ["a@example.org"]) Sample.w_lists in
  let r2 := AliasRemove Sample.env0 new r1.1 in
  r1.2 = inr tt ∧ r2.2 = inr tt ∧
  Sample.members r1.1 "example.org" "new" = Some ["a@example.org"] ∧
  snapshot r2.1 = snapshot Sample.w_lists.
Proof.
  cbv zeta.
  set (new := smtp.NewAddress "new" Sample.example_org).
  set (r1 := AliasAdd Sample.env0 new (Sample.alias ["a@example.org"]) Sample.w_lists).
  assert (r1.2 = inr tt) as Hr1 by (vm_compute; reflexivity).
  assert ((AliasRemove Sample.env0 new r1.1).2 = inr tt) as Hr2 by (vm_compute; reflexivity).
  split; [exact Hr1|]. split; [exact Hr2|]. split; [vm_compute; reflexivity|].
  exact (AliasAdd_AliasRemove_round_trip Sample.env0 new (Sample.alias ["a@example.org"])
           Sample.w_lists r1.1 _ (run_pair r1 tt Hr1) (run_pair _ tt Hr2)).
Defined.

Lemma AliasAddresses_round_trip_witness :
  let added := ["c@example.org"; "d@example.org"] in
  let r1 := AliasAddressesAdd Sample.env0 Sample.team added Sample.w_lists in
  let r2 := AliasAddressesRemove Sample.env0 Sample.team added r1.1 in
  r1.2 = inr tt ∧ r2.2 = inr tt ∧
  Sample.members r1.1 "example.org" "team"
  = Some ["a@example.org"; "b@example.org"; "c@example.org"; "d@example.org"] ∧
  snapshot r2.1 = snapshot Sample.w_lists.
Proof.
  cbv zeta.
  set (added := ["c@example.org"; "d@example.org"]).
  set (r1 := AliasAddressesAdd Sample.env0 Sample.team added Sample.w_lists).
  assert (r1.2 = inr tt) as Hr1 by (vm_compute; reflexivity).
  assert ((AliasAddressesRemove Sample.env0 Sample.team added r1.1).2 = inr tt) as Hr2
    by (vm_compute; reflexivity).
  split; [exact Hr1|]. split; [exact Hr2|]. split; [vm_compute; reflexivity|].
  refine (AliasAddresses_round_trip Sample.env0 Sample.team added
            (Sample.domain ∅ []
               {[ "team" := Sample.alias ["a@example.org"; "b@example.org"];
                  "all" := Sample.alias ["a@example.org"; "b@example.org"] ]})
            (Sample.alias ["a@example.org"; "b@example.org"])
            Sample.w_lists r1.1 _ _ _ _ _ (run_pair r1 tt Hr1) (run_pair _ tt Hr2)).
  - vm_compute; reflexivity.
  - vm_compute; reflexivity.
  - refine (bool_decide_unpack (NoDup added) _). vm_compute. exact I.
  - refine (bool_decide_unpack (Forall (λ a, a ∉ ["a@example.org"; "b@example.org"]) added) _).
    vm_compute. exact I.
Defined.


Lemma pwgen_password_witness :
  let Intn := (λ i n, (7 * i + 30) `mod` n)%nat in
  pwgen Intn = Some "ELSZ6$;ahovC" ∧
  ∃ s, pwgen Intn = Some s ∧ String.length s = 12%nat.
Proof.
  cbv zeta. split; [vm_compute; reflexivity|].
  destruct (pwgen_password (λ i n, (7 * i + 30) `mod` n)%nat) as (s & Hs & Hl & _).
  - intros i n Hn. apply Nat.mod_upper_bound. lia.
  - exists s. split; [exact Hs|exact Hl].
Defined.

Lemma listenerIPs_sorted_witness :
  let addr (linkLocal loopback private : bool) (s : string) : IP :=
    Some {| InterfaceLocalMulticast := false; LinkLocalMulticast := false;
            LinkLocalUnicast := linkLocal; Multicast := false;
            Loopback := loopback; Private := private; IP_String := s |} in
  let ifaces :=
    [ {| FlagUp := true;
         Addrs := Some [addr false true false "127.0.0.1"; addr false true false "::1"] |};
      {| FlagUp := true;
         Addrs := Some [addr false false false "192.0.2.1"; addr true false false "fe80::1"] |};
      {| FlagUp := true;
         Addrs := Some [addr false false false "2001:db8::1"; None;
                        addr false false true "10.0.0.1"] |};
      {| FlagUp := false; Addrs := Some [addr false false false "198.51.100.1"] |} ] in
  listenerIPs ifaces
  = Some (["192.0.2.1"], ["127.0.0.1"; "::1"; "2001:db8::1"; "10.0.0.1"])
  ∧ ["192.0.2.1"] ≠ [] ∧ ["127.0.0.1"; "::1"; "2001:db8::1"; "10.0.0.1"] ≠ [].
Proof.
  cbv zeta.
  match goal with |- ?l = _ ∧ _ => assert (l = Some (["192.0.2.1"], ["127.0.0.1"; "::1"; "2001:db8::1"; "10.0.0.1"])) as Hr by (vm_compute; reflexivity) end.
  split; [exact Hr|].
  pose proof (listenerIPs_sorted _ _ _ Hr) as (Hpub & Hpriv & _).
  split; [exact Hpub|exact Hpriv].
Defined.
